(** * TurbuStat: radial power spectra, elliptical power-law fits, MVC and
      dendrogram statistics

    A shallow embedding of

    - [turbustat/statistics/psds.py]
      ([pspec], [make_radial_arrays], [make_radial_freq_arrays]),
    - [turbustat/statistics/elliptical_powerlaw.py]
      ([fit_elliptical_powerlaw], [LogEllipticalPowerLaw2D.evaluate],
      [interval_transform]),
    - [turbustat/statistics/mvc/mvc.py]
      ([MVC], [MVC_Distance.distance_metric]),
    - [turbustat/io/input_base.py]                      ([input_data]),
    - [turbustat/statistics/dendrograms/dendro_stats.py]
      ([Dendrogram_Stats.make_hists], [fit_numfeat], [save_results],
      [std_window], and the cutoff, the bin numbers and the slope distance
      of [DendroDistance]).

    Python floats are idealised: a float is a real number, one of the two
    infinities, or NaN; rounding, overflow and underflow are not
    modelled.  Python exceptions are an explicit error result.  The
    numerical libraries the code calls (FFT, Levenberg-Marquardt, OLS,
    histogram and percentile routines, the random generator) are
    interfaces ([Class]es) whose operations the embedding calls exactly
    where the code does; an operation that can raise returns a result,
    and the failures the code is known to meet are laws of the
    interface. *)

From Stdlib Require Import String Reals Lra Lia List ZArith Bool Permutation.
Import ListNotations.
Open Scope R_scope.

Set Implicit Arguments.

(* ------------------------------------------------------------------ *)
(** * Python results *)

Inductive exn : Type :=
| ValueError
| IndexError
| TypeError
| OverflowError
| ZeroDivisionError.

Inductive result (A : Type) : Type :=
| Ok (a : A)
| Raise (e : exn).

Arguments Ok {A} a.
Arguments Raise {A} e.

(** The warnings ([warnings.warn]) of the modules below. *)
Inductive warning : Type :=
| NoHeaderLoaded
| CovarianceFailed.

Definition bind {A B : Type} (m : result A) (k : A -> result B) : result B :=
  match m with
  | Ok a => k a
  | Raise e => Raise e
  end.

Notation "x <- m ;; k" := (bind m (fun x => k))
  (at level 61, m at next level, right associativity).

(* ------------------------------------------------------------------ *)
(** * Floats *)

Inductive float64 : Type :=
| NaN
| NInf
| PInf
| Fin (r : R).

Definition isnan (a : float64) : bool :=
  match a with NaN => true | _ => false end.

Definition isfinite (a : float64) : bool :=
  match a with Fin _ => true | _ => false end.

Definition Rltb (a b : R) : bool := if Rlt_dec a b then true else false.
Definition Reqb (a b : R) : bool := if Req_dec_T a b then true else false.

(** [a < b] on floats: false as soon as one side is NaN. *)
Definition flt (a b : float64) : bool :=
  match a, b with
  | NaN, _ | _, NaN => false
  | _, NInf => false
  | NInf, _ => true
  | PInf, _ => false
  | _, PInf => true
  | Fin x, Fin y => Rltb x y
  end.

Definition fneg (a : float64) : float64 :=
  match a with
  | NaN => NaN
  | NInf => PInf
  | PInf => NInf
  | Fin x => Fin (- x)
  end.

Definition fadd (a b : float64) : float64 :=
  match a, b with
  | NaN, _ | _, NaN => NaN
  | PInf, NInf | NInf, PInf => NaN
  | PInf, _ | _, PInf => PInf
  | NInf, _ | _, NInf => NInf
  | Fin x, Fin y => Fin (x + y)
  end.

Definition fsub (a b : float64) : float64 := fadd a (fneg b).

(** An infinity times a real: NaN at zero, else the sign of the product. *)
Definition inf_times (positive_inf : bool) (x : R) : float64 :=
  if Reqb x 0 then NaN
  else if eqb positive_inf (Rltb 0 x) then PInf else NInf.

Definition fmul (a b : float64) : float64 :=
  match a, b with
  | NaN, _ | _, NaN => NaN
  | PInf, PInf | NInf, NInf => PInf
  | PInf, NInf | NInf, PInf => NInf
  | PInf, Fin x | Fin x, PInf => inf_times true x
  | NInf, Fin x | Fin x, NInf => inf_times false x
  | Fin x, Fin y => Fin (x * y)
  end.

(** numpy division: a zero divisor gives an infinity or NaN, no exception. *)
Definition fdiv (a b : float64) : float64 :=
  match a, b with
  | NaN, _ | _, NaN => NaN
  | (PInf | NInf), (PInf | NInf) => NaN
  | Fin _, (PInf | NInf) => Fin 0
  | PInf, Fin y => if Rltb y 0 then NInf else PInf
  | NInf, Fin y => if Rltb y 0 then PInf else NInf
  | Fin x, Fin y =>
      if Reqb y 0 then
        (if Reqb x 0 then NaN else if Rltb 0 x then PInf else NInf)
      else Fin (x / y)
  end.

Definition fabs (a : float64) : float64 :=
  match a with
  | NaN => NaN
  | NInf | PInf => PInf
  | Fin x => Fin (Rabs x)
  end.

Definition fsqrt (a : float64) : float64 :=
  match a with
  | NaN | NInf => NaN
  | PInf => PInf
  | Fin x => if Rltb x 0 then NaN else Fin (sqrt x)
  end.

(** [np.log10]: minus infinity at zero, NaN below. *)
Definition np_log10 (a : float64) : float64 :=
  match a with
  | NaN | NInf => NaN
  | PInf => PInf
  | Fin x =>
      if Rltb 0 x then Fin (ln x / ln 10)
      else if Reqb x 0 then NInf else NaN
  end.

(** [10 ** a]. *)
Definition pow10 (a : float64) : float64 :=
  match a with
  | NaN => NaN
  | NInf => Fin 0
  | PInf => PInf
  | Fin x => Fin (exp (x * ln 10))
  end.

Definition of_Z (z : Z) : float64 := Fin (IZR z).
Definition of_nat (n : nat) : float64 := Fin (INR n).

(** [np.sum] and [np.mean] (mean of an empty array is NaN). *)
Definition np_sum (l : list float64) : float64 := fold_left fadd l (Fin 0).

Definition np_mean (l : list float64) : float64 :=
  fdiv (np_sum l) (of_nat (length l)).

(** [np.nanmean]: the mean of the entries that are not NaN. *)
Definition np_nanmean (l : list float64) : float64 :=
  np_mean (filter (fun a => negb (isnan a)) l).

(** [np.std]: square root of the mean squared deviation from the mean. *)
Definition np_std (l : list float64) : float64 :=
  let m := np_mean l in
  fsqrt (np_mean (map (fun a => fmul (fabs (fsub a m)) (fabs (fsub a m))) l)).

(** [np.argmax]: index of the first maximum; a NaN counts as the maximum. *)
Definition takes_over (best a : float64) : bool :=
  negb (isnan best) && (isnan a || flt best a).

Fixpoint argmax_from (best_i : nat) (best : float64) (i : nat)
  (l : list float64) : nat :=
  match l with
  | [] => best_i
  | a :: t =>
      if takes_over best a then argmax_from i a (S i) t
      else argmax_from best_i best (S i) t
  end.

Definition np_argmax (l : list float64) : result nat :=
  match l with
  | [] => Raise ValueError
  | a :: t => Ok (argmax_from 0 a 1 t)
  end.

(* ------------------------------------------------------------------ *)
(** * Python sequences *)

(** [range(a, b)]. *)
Definition py_range (a b : Z) : list Z :=
  map (fun k => (a + Z.of_nat k)%Z) (seq 0 (Z.to_nat (b - a))).

(** A slice bound as Python reads it: negative bounds count from the end,
    and every bound is clamped to the sequence. *)
Definition clamp_bound (n i : Z) : Z :=
  if (i <? 0)%Z then Z.max (i + n) 0 else Z.min i n.

(** [l[a:b]]. *)
Definition py_slice {A : Type} (l : list A) (a b : Z) : list A :=
  let n := Z.of_nat (length l) in
  let a' := clamp_bound n a in
  let b' := clamp_bound n b in
  firstn (Z.to_nat (b' - a')) (skipn (Z.to_nat a') l).

(** [l[a:]]. *)
Definition py_slice_from {A : Type} (l : list A) (a : Z) : list A :=
  skipn (Z.to_nat (clamp_bound (Z.of_nat (length l)) a)) l.

(** An index as Python reads it: [-n <= i < n], negative ones from the end. *)
Definition py_index (n i : Z) : result nat :=
  if ((0 <=? i) && (i <? n))%Z then Ok (Z.to_nat i)
  else if ((- n <=? i) && (i <? 0))%Z then Ok (Z.to_nat (i + n))
  else Raise IndexError.

Fixpoint set_nth {A : Type} (l : list A) (k : nat) (v : A) : list A :=
  match l, k with
  | [], _ => []
  | _ :: t, O => v :: t
  | a :: t, S k' => a :: set_nth t k' v
  end.

(** [l[i]]. *)
Definition py_getitem {A : Type} (l : list A) (i : Z) : result A :=
  k <- py_index (Z.of_nat (length l)) i ;;
  match nth_error l k with
  | Some a => Ok a
  | None => Raise IndexError
  end.

(** [l[i] = v]. *)
Definition py_setitem {A : Type} (l : list A) (i : Z) (v : A)
  : result (list A) :=
  k <- py_index (Z.of_nat (length l)) i ;;
  Ok (set_nth l k v).

(** [a[mask]] for a boolean mask: the entries where the mask is true;
    numpy refuses a mask of another length. *)
Fixpoint select {A : Type} (mask : list bool) (l : list A) : list A :=
  match mask, l with
  | m :: ms, a :: t => if m then a :: select ms t else select ms t
  | _, _ => []
  end.

Definition np_mask {A : Type} (l : list A) (mask : list bool)
  : result (list A) :=
  if Nat.eqb (length mask) (length l) then Ok (select mask l)
  else Raise IndexError.

(** [np.empty(n)]: [n] entries of no particular value (NaN stands for
    them), an error for a negative size. *)
Definition np_empty (n : Z) : result (list float64) :=
  if (n <? 0)%Z then Raise ValueError else Ok (repeat NaN (Z.to_nat n)).

(** Elementwise operations. *)
Fixpoint map2 {A B C : Type} (f : A -> B -> C) (l : list A) (l' : list B)
  : list C :=
  match l, l' with
  | a :: t, b :: t' => f a b :: map2 f t t'
  | _, _ => []
  end.

(* ------------------------------------------------------------------ *)
(** * dendro_stats.py *)

(** ** [std_window] *)

(** One pass of the loop body
    [stds[i - half_size] = np.std(y[i - half_size: i + half_size])]. *)
Definition std_window_step (y : list Z) (half_size : Z)
  (stds : result (list float64)) (i : Z) : result (list float64) :=
  s <- stds ;;
  py_setitem s (i - half_size)
    (np_std (map of_Z (py_slice y (i - half_size) (i + half_size)))).

(** The array [stds] after the loop. *)
Definition std_window_stds (y : list Z) (size : Z)
  : result (list float64) :=
  let half_size := ((size - 1) / 2)%Z in
  let shape := Z.of_nat (length y) in
  fold_left (std_window_step y half_size)
    (py_range half_size (shape - half_size))
    (np_empty (shape - size + 1)).

Definition std_window (y : list Z) (size : Z) : result Z :=
  let half_size := ((size - 1) / 2)%Z in
  stds <- std_window_stds y size ;;
  k <- np_argmax stds ;;
  Ok (Z.of_nat k + half_size)%Z.

(** The scan as the documentation words it: at every interior position
    the standard deviation of the [size] values centred there, the break
    at the position of the first maximum. *)
Definition centred_window (y : list Z) (size : Z) (i : Z) : list Z :=
  let half_size := ((size - 1) / 2)%Z in
  py_slice y (i - half_size) (i + half_size + 1).

Definition std_window_centred (y : list Z) (size : Z) : result Z :=
  let half_size := ((size - 1) / 2)%Z in
  let shape := Z.of_nat (length y) in
  k <- np_argmax
         (map (fun i => np_std (map of_Z (centred_window y size i)))
              (py_range half_size (shape - half_size))) ;;
  Ok (Z.of_nat k + half_size)%Z.

(** ** statsmodels *)

Record ols_results : Type := {
  params : list float64;
  bse : list float64
}.

(** [sm.add_constant] and [sm.OLS(endog, exog).fit()]. *)
Class Statsmodels : Type := {
  design : Type;
  add_constant : list float64 -> design;
  OLS_fit : list float64 -> design -> result ols_results
}.

(** ** [Dendrogram_Stats.fit_numfeat] *)

(** What [fit_numfeat] leaves on the object. *)
Record numfeat_fit : Type := {
  break_pos : float64;
  fitvals : list float64 * list float64;
  model : ols_results;
  tail_slope : float64;
  tail_slope_err : float64
}.

Definition more_than_one (numfeatures : list Z) : list bool :=
  map (fun n => (1 <? n)%Z) numfeatures.

(** [None]: the single-threshold warning, nothing fitted. *)
Definition fit_numfeat `{Statsmodels} (numfeatures : list Z)
  (min_deltas : list float64) (size : Z) : result (option numfeat_fit) :=
  if Nat.eqb (length numfeatures) 1 then Ok None
  else
    nums <- np_mask numfeatures (more_than_one numfeatures) ;;
    deltas <- np_mask min_deltas (more_than_one numfeatures) ;;
    pos <- std_window nums size ;;
    brk <- py_getitem deltas pos ;;
    let fv := (map np_log10 (py_slice_from deltas pos),
               map np_log10 (map of_Z (py_slice_from nums pos))) in
    let x := add_constant (fst fv) in
    m <- OLS_fit (snd fv) x ;;
    slope <- py_getitem (params m) (-1) ;;
    slope_err <- py_getitem (bse m) (-1) ;;
    Ok (Some {| break_pos := brk; fitvals := fv; model := m;
                tail_slope := slope; tail_slope_err := slope_err |}).

(** ** [Dendrogram_Stats.make_hists] *)

(** The [bins] argument of [np.histogram]: a count or explicit edges. *)
Inductive bins_arg : Type :=
| BinCount (n : Z)
| BinEdges (edges : list float64).

(** [np.histogram(value, bins=bins, **kwargs)]: the counts and the edges. *)
Class NumpyHistogram : Type := {
  hist_kwargs : Type;
  np_histogram : list float64 -> bins_arg -> hist_kwargs
                 -> result (list Z * list float64)
}.

(** [(bins[:-1] + bins[1:]) / 2]. *)
Definition bin_centres (edges : list float64) : list float64 :=
  map2 (fun a b => fdiv (fadd a b) (Fin 2)) (removelast edges) (tl edges).

(** One entry of [hists]: [[bin_cents, hist]]. *)
Definition hist_entry : Type := (list float64 * list Z)%type.

(** [[np.zeros((0, ))] * 2]. *)
Definition empty_hist : hist_entry := ([], []).

(** [int(np.sqrt(n))] for a length [n]. *)
Definition int_sqrt (n : nat) : Z := Z.of_nat (Nat.sqrt n).

(** The loop of [make_hists]; [bins_kw] is the entry ['bins'] of [kwargs],
    which the first histogram built pops. *)
Fixpoint make_hists_loop `{NumpyHistogram} (values : list (list float64))
  (min_number : Z) (bins_kw : option bins_arg) (kwargs : hist_kwargs)
  : result (list hist_entry) :=
  match values with
  | [] => Ok []
  | value :: rest =>
      if (Z.of_nat (length value) <? min_number)%Z then
        hs <- make_hists_loop rest min_number bins_kw kwargs ;;
        Ok (empty_hist :: hs)
      else
        let bins := match bins_kw with
                    | None => BinCount (int_sqrt (length value))
                    | Some b => b
                    end in
        hb <- np_histogram value bins kwargs ;;
        hs <- make_hists_loop rest min_number None kwargs ;;
        Ok ((bin_centres (snd hb), fst hb) :: hs)
  end.

Definition make_hists `{NumpyHistogram} (values : list (list float64))
  (min_number : Z) (bins_kw : option bins_arg) (kwargs : hist_kwargs)
  : result (list hist_entry) :=
  make_hists_loop values min_number bins_kw kwargs.

(** The default bin count as the documentation words it:
    [round(sqrt(n))]. No square root of an integer lies half way between
    two integers, so rounding is up exactly above [k * (k + 1)]. *)
Definition round_sqrt (n : nat) : Z :=
  let k := Nat.sqrt n in
  if (n <=? k * k + k)%nat then Z.of_nat k else Z.of_nat (S k).

(* ------------------------------------------------------------------ *)
(** * elliptical_powerlaw.py *)

(** The parameters of [LogEllipticalPowerLaw2D], in the order of
    [model.parameters]. *)
Record pl_params : Type := {
  logamplitude : R;
  ellip_transf : R;
  theta : R;
  gamma : R
}.

(** [LogEllipticalPowerLaw2D.evaluate] at one point: a model value that
    is not finite (the zero-frequency term) is set to [0.0]. *)
Definition evaluate (p : pl_params) (x y : R) : R :=
  let ellip := 1 / (1 + exp (- ellip_transf p)) in
  let costhet := cos (theta p) in
  let sinthet := sin (theta p) in
  let q := ellip in
  let term1 := (q * costhet) ^ 2 + sinthet ^ 2 in
  let term2 := 2 * (1 - q ^ 2) * sinthet * costhet in
  let term3 := (q * sinthet) ^ 2 + costhet ^ 2 in
  let model :=
    fadd (Fin (logamplitude p))
      (fmul (Fin (0.5 * gamma p))
         (np_log10 (Fin (x ^ 2 * term1 + x * y * term2 + y ^ 2 * term3)))) in
  match model with
  | Fin m => m
  | _ => 0
  end.

(** [fit_model(x, y)] on coordinate arrays. *)
Definition model_call (p : pl_params) (x y : list R) : list R :=
  map2 (evaluate p) x y.

(** [a % b] on Python floats: the result takes the sign of [b]. *)
Definition py_fmod (a b : R) : R := a - b * IZR (Int_part (a / b)).

(** The covariance matrix of a fit, by rows. *)
Definition matrix : Type := list (list float64).

(** [np.diag]. *)
Definition np_diag (m : matrix) : list float64 :=
  map (fun i => nth i (nth i m []) NaN) (seq 0 (length m)).

(** What one run of the Levenberg-Marquardt solver gives: the fitted
    parameters and the covariance matrix, [None] when the solver could not
    compute it. *)
Record lm_output : Type := {
  fitted : pl_params;
  cov_x : option matrix
}.

(** [LevMarLSQFitter.__call__(model, x, y, z)]: the numerical work.  The
    call can raise; in particular the least-squares routine refuses, with
    [TypeError], fewer data points than the four free parameters of the
    model. *)
Class Astropy : Type := {
  lev_mar : pl_params -> list R -> list R -> list R -> result lm_output;
  lev_mar_few_points :
    forall (p : pl_params) (x y z : list R),
      length x = length z -> length y = length z -> (length z < 4)%nat ->
      lev_mar p x y z = Raise TypeError
}.

(** [np.random.permutation(n)] over the process-wide generator. *)
Class NumpyRandom : Type := {
  rng : Type;
  np_random_permutation : rng -> nat -> list nat * rng
}.

(** [np.percentile] of one row of [params].  The call can raise; a row
    with no entry (no bootstrap iteration) raises [IndexError]. *)
Class NumpyPercentile : Type := {
  np_percentile : list R -> R -> result float64;
  np_percentile_empty :
    forall q : R, 0 <= q <= 100 -> np_percentile [] q = Raise IndexError
}.

(** A [LevMarLSQFitter] object: its [fit_info['param_cov']], which is
    [None] until the fitter has been called. *)
Record fitter_obj : Type := { param_cov : option matrix }.

(** The mutable state the function runs in: the fitter objects created so
    far (a fitter is referred to by its index), the random generator and the
    warnings issued. *)
Record world `{NumpyRandom} : Type := {
  fitters : list fitter_obj;
  gen : rng;
  warnings : list warning
}.

(** A sequence of calls, each of which can raise. *)
Fixpoint result_map {A B : Type} (f : A -> result B) (l : list A)
  : result (list B) :=
  match l with
  | [] => Ok []
  | a :: t =>
      b <- f a ;;
      bs <- result_map f t ;;
      Ok (b :: bs)
  end.

Section EllipticalPowerlaw.
Context `{Astropy} `{NumpyRandom} `{NumpyPercentile}.

(** [fitting.LevMarLSQFitter()]. *)
Definition new_fitter (w : world) : nat * world :=
  (length (fitters w),
   {| fitters := fitters w ++ [{| param_cov := None |}];
      gen := gen w; warnings := warnings w |}).

(** [f(model, x, y, values)]: returns the fitted copy of the model and
    stores the covariance in [f.fit_info]; when the solver raises, the
    fitter is left as it was. *)
Definition call_fitter (w : world) (f : nat) (m : pl_params)
  (x y values : list R) : result pl_params * world :=
  match lev_mar m x y values with
  | Ok out =>
      (Ok (fitted out),
       {| fitters := set_nth (fitters w) f {| param_cov := cov_x out |};
          gen := gen w; warnings := warnings w |})
  | Raise e => (Raise e, w)
  end.

(** [f.fit_info.get('param_cov')]. *)
Definition get_param_cov (w : world) (f : nat) : option matrix :=
  match nth_error (fitters w) f with
  | Some o => param_cov o
  | None => None
  end.

Definition draw_permutation (w : world) (n : nat) : list nat * world :=
  let (perm, g) := np_random_permutation (gen w) n in
  (perm, {| fitters := fitters w; gen := g; warnings := warnings w |}).

Definition warn (w : world) (msg : warning) : world :=
  {| fitters := fitters w; gen := gen w; warnings := warnings w ++ [msg] |}.

(** [values - fit_model(x, y)]. *)
Definition residuals (p : pl_params) (x y values : list R) : list R :=
  map2 Rminus values (model_call p x y).

(** [np.sum(np.abs(values - fit_model(x, y)))]. *)
Definition abs_residual_sum (p : pl_params) (x y values : list R) : R :=
  fold_left Rplus (map Rabs (residuals p x y values)) 0.

(** [resid[index]] for an index array. *)
Definition take (resid : list R) (index : list nat) : list R :=
  map (fun i => nth i resid 0) index.

(** The data the fitter is given in one bootstrap iteration:
    [(x, resamp_y, values)]. *)
Definition boot_data (x y values resid : list R) (perm : list nat)
  : list R * list R * list R :=
  (x, map2 Rplus y (take resid perm), values).

(** The bootstrap loop; [acc] holds the columns of [params] filled so
    far.  An iteration whose fit raises ends the loop with the fitter
    created and the permutation drawn. *)
Fixpoint bootstrap_loop (n : nat) (fit_model : pl_params)
  (x y values resid : list R) (w : world) (acc : list pl_params)
  : result (list pl_params) * world :=
  match n with
  | O => (Ok acc, w)
  | S n' =>
      let (boot_fit, w1) := new_fitter w in
      let (perm, w2) := draw_permutation w1 (length resid) in
      let '(bx, by_, bv) := boot_data x y values resid perm in
      match call_fitter w2 boot_fit fit_model bx by_ bv with
      | (Ok boot_model, w3) =>
          bootstrap_loop n' fit_model x y values resid w3
            (acc ++ [boot_model])
      | (Raise e, w3) => (Raise e, w3)
      end
  end.

(** The rows of [params]: one per parameter, one column per iteration. *)
Definition param_rows (cols : list pl_params) : list (list R) :=
  [map logamplitude cols; map ellip_transf cols;
   map theta cols; map gamma cols].

(** [0.5 * (percentiles[1] - percentiles[0])] for one row, the
    percentiles taken at [100 * (0.5 - alpha / 2.)] and
    [100 * (0.5 + alpha / 2.)]. *)
Definition half_width (alpha : R) (row : list R) : result float64 :=
  lower <- np_percentile row (100 * (0.5 - alpha / 2)) ;;
  upper <- np_percentile row (100 * (0.5 + alpha / 2)) ;;
  Ok (fmul (Fin 0.5) (fsub upper lower)).

(** [np.isfinite(values).all()], with the values as reals when it holds. *)
Fixpoint finite_values (values : list float64) : option (list R) :=
  match values with
  | [] => Some []
  | Fin v :: t =>
      match finite_values t with
      | Some vs => Some (v :: vs)
      | None => None
      end
  | _ :: _ => None
  end.

(** The tuple [fit_elliptical_powerlaw] returns. *)
Record fit_result : Type := {
  res_params : pl_params;
  res_stderrs : list float64;
  res_fit_model : pl_params;
  res_fitter : nat
}.

(** [p0_f]: [p0] with [theta] offset by pi / 2, modulo pi. *)
Definition flip_theta (p0 : pl_params) : pl_params :=
  {| logamplitude := logamplitude p0;
     ellip_transf := ellip_transf p0;
     theta := py_fmod (theta p0 + PI / 2) PI;
     gamma := gamma p0 |}.

(** The two fits and the choice between them (lines 29-50): the fitter
    variable, the retained model, and the state. *)
Definition fit_twice (w : world) (x y values : list R) (p0 : pl_params)
  : result (nat * pl_params) * world :=
  let model := p0 in
  let (fitter, w1) := new_fitter w in
  match call_fitter w1 fitter model x y values with
  | (Raise e, w2) => (Raise e, w2)
  | (Ok fit_model, w2) =>
      let resids := abs_residual_sum fit_model x y values in
      let model_f := flip_theta p0 in
      let (fitter_f, w3) := new_fitter w2 in
      match call_fitter w3 fitter model_f x y values with
      | (Raise e, w4) => (Raise e, w4)
      | (Ok fit_model_f, w4) =>
          let resids_f := abs_residual_sum fit_model_f x y values in
          if Rltb resids_f resids then (Ok (fitter_f, fit_model_f), w4)
          else (Ok (fitter, fit_model), w4)
      end
  end.

Definition fit_elliptical_powerlaw (w : world) (values : list float64)
  (x y : list R) (p0 : pl_params) (fit_method : string)
  (bootstrap : bool) (niters : nat) (alpha : R)
  : result fit_result * world :=
  match finite_values values with
  | None => (Raise ValueError, w)
  | Some values =>
      if String.eqb fit_method "LevMarq" then
        match fit_twice w x y values p0 with
        | (Raise e, w1) => (Raise e, w1)
        | (Ok (fitter, fit_model), w1) =>
            if bootstrap then
              let resid := residuals fit_model x y values in
              match bootstrap_loop niters fit_model x y values resid w1 []
              with
              | (Raise e, w2) => (Raise e, w2)
              | (Ok cols, w2) =>
                  match result_map (half_width alpha) (param_rows cols) with
                  | Raise e => (Raise e, w2)
                  | Ok stderrs =>
                      (Ok {| res_params := fit_model;
                             res_stderrs := stderrs;
                             res_fit_model := fit_model;
                             res_fitter := fitter |}, w2)
                  end
              end
            else
              match get_param_cov w1 fitter with
              | None =>
                  (Ok {| res_params := fit_model;
                         res_stderrs := repeat NaN 4;
                         res_fit_model := fit_model;
                         res_fitter := fitter |},
                   warn w1 CovarianceFailed)
              | Some cov_matrix =>
                  (Ok {| res_params := fit_model;
                         res_stderrs :=
                           map fsqrt (map fabs (np_diag cov_matrix));
                         res_fit_model := fit_model;
                         res_fitter := fitter |}, w1)
              end
        end
      else (Raise ValueError, w)
  end.

(** The permutations the generator yields in [k] successive draws. *)
Fixpoint draws (g : rng) (n k : nat) : list (list nat) :=
  match k with
  | O => []
  | S k' =>
      let (perm, g') := np_random_permutation g n in
      perm :: draws g' n k'
  end.

End EllipticalPowerlaw.

(* ------------------------------------------------------------------ *)
(** * Arrays *)

(** An [np.ndarray]: its shape and its entries in row-major order. *)
Record ndarray (A : Type) : Type := {
  shape : list nat;
  data : list A
}.

Definition shape_eqb (s s' : list nat) : bool :=
  if list_eq_dec Nat.eq_dec s s' then true else false.

(** Elementwise operation on two arrays of one shape. *)
Definition zip_arrays {A B C : Type} (f : A -> B -> C)
  (a : ndarray A) (b : ndarray B) : ndarray C :=
  {| shape := shape a; data := map2 f (data a) (data b) |}.

Definition map_array {A B : Type} (f : A -> B) (a : ndarray A) : ndarray B :=
  {| shape := shape a; data := map f (data a) |}.

(** [np.roll(l, k)] along one axis, for [k <= len(l)]. *)
Definition roll {A : Type} (k : nat) (l : list A) : list A :=
  skipn (length l - k) l ++ firstn (length l - k) l.

(** [count] consecutive blocks of [size] entries. *)
Fixpoint chunks {A : Type} (size count : nat) (l : list A) : list (list A) :=
  match count with
  | O => []
  | S c => firstn size l :: chunks size c (skipn size l)
  end.

(** [np.fft.fftshift]: every axis of length [n] is rolled by [n // 2]. *)
Fixpoint fftshift_data {A : Type} (shp : list nat) (l : list A) : list A :=
  match shp with
  | [] => l
  | n :: rest =>
      concat (roll (n / 2)
                (map (fftshift_data rest)
                   (chunks (fold_right Nat.mul 1%nat rest) n l)))
  end.

Definition fftshift {A : Type} (a : ndarray A) : ndarray A :=
  {| shape := shape a; data := fftshift_data (shape a) (data a) |}.

(** Complex numbers, and the operations [compute_pspec] uses. *)
Record complex : Type := { re : float64; im : float64 }.

Definition of_real (a : float64) : complex := {| re := a; im := Fin 0 |}.

Definition csub (z w : complex) : complex :=
  {| re := fsub (re z) (re w); im := fsub (im z) (im w) |}.

Definition cmul (z w : complex) : complex :=
  {| re := fsub (fmul (re z) (re w)) (fmul (im z) (im w));
     im := fadd (fmul (re z) (im w)) (fmul (im z) (re w)) |}.

(** [np.abs] of a complex number. *)
Definition cabs (z : complex) : float64 :=
  fsqrt (fadd (fmul (re z) (re z)) (fmul (im z) (im z))).

(** [a ** 2.]. *)
Definition fsquare (a : float64) : float64 := fmul a a.

(** [numpy.fft.fft2]. *)
Class NumpyFFT : Type := {
  fft2 : ndarray float64 -> ndarray complex
}.

(** [np.fmin], and [np.nanmin] as its reduction: NaNs are skipped, an
    array of NaNs only gives NaN, an empty array is an error. *)
Definition fmin (a b : float64) : float64 :=
  if isnan a then b
  else if isnan b then a
  else if flt b a then b else a.

Definition np_nanmin (l : list float64) : result float64 :=
  match l with
  | [] => Raise ValueError
  | a :: t => Ok (fold_left fmin t a)
  end.

(* ------------------------------------------------------------------ *)
(** * io/input_base.py and mvc/mvc.py *)

(** Array objects live in a store and are referred to by location, so that
    two names of one array see each other's writes. *)
Definition loc : Type := nat.
Definition store : Type := loc -> ndarray float64.

Definition store_set (s : store) (l : loc) (a : ndarray float64) : store :=
  fun l' => if Nat.eqb l' l then a else s l'.

(** The forms of input [input_data] tells apart: an object that carries
    its data and a header (an HDU, a projection or slice, a two-item tuple
    or list), a bare array, anything else. *)
Inductive data_input (H : Type) : Type :=
| WithHeader (a : loc) (h : H)
| BareArray (a : loc)
| Unsupported.

Arguments WithHeader {H} a h.
Arguments BareArray {H} a.
Arguments Unsupported {H}.

(** [input_data(data, no_header=False)]: the data and the header. *)
Definition input_data_header {H : Type} (d : data_input H)
  : result (loc * H) :=
  match d with
  | WithHeader a h => Ok (a, h)
  | BareArray _ => Raise TypeError
  | Unsupported => Raise TypeError
  end.

(** [input_data(data, no_header=True)]: the data alone; the array object
    itself is returned, not a copy. *)
Definition input_data_only {H : Type} (d : data_input H) : result loc :=
  match d with
  | WithHeader a _ => Ok a
  | BareArray a => Ok a
  | Unsupported => Raise TypeError
  end.

(** [arr[np.isnan(arr)] = np.nanmin(arr)], on the array at [l]. *)
Definition replace_nan (v : float64) (l : list float64) : list float64 :=
  map (fun a => if isnan a then v else a) l.

Definition clean_nans (s : store) (l : loc) : result store :=
  m <- np_nanmin (data (s l)) ;;
  Ok (store_set s l {| shape := shape (s l);
                       data := replace_nan m (data (s l)) |}).

(** An [MVC] object: the three arrays it refers to, the header and the
    shape. *)
Record MVC (H : Type) : Type := {
  _centroid : loc;
  _moment0 : loc;
  _linewidth : loc;
  header : option H;
  mvc_shape : list nat
}.

(** The first lines of [MVC.__init__]: the three calls of [input_data]. *)
Definition load_inputs {H : Type} (centroid moment0 linewidth : data_input H)
  (hdr : option H) : result (loc * option H * loc * loc * list warning) :=
  ch <- match hdr with
        | None =>
            match input_data_header centroid with
            | Ok (c, h) => Ok (c, Some h, [])
            | Raise TypeError =>
                c <- input_data_only centroid ;;
                Ok (c, None, [NoHeaderLoaded])
            | Raise e => Raise e
            end
        | Some h =>
            c <- input_data_only centroid ;;
            Ok (c, Some h, [])
        end ;;
  let '(c, h, ws) := ch in
  m <- input_data_only moment0 ;;
  l <- input_data_only linewidth ;;
  Ok (c, h, m, l, ws).

(** [MVC.__init__]: the outcome and the store it leaves behind. *)
Definition MVC_init {H : Type} (s : store)
  (centroid moment0 linewidth : data_input H) (hdr : option H)
  : result (MVC H) * store :=
  match load_inputs centroid moment0 linewidth hdr with
  | Raise e => (Raise e, s)
  | Ok (c, h, m, l, _) =>
      match clean_nans s c with
      | Raise e => (Raise e, s)
      | Ok s1 =>
          match clean_nans s1 m with
          | Raise e => (Raise e, s1)
          | Ok s2 =>
              match clean_nans s2 l with
              | Raise e => (Raise e, s2)
              | Ok s3 =>
                  let shape_check1 :=
                    shape_eqb (shape (s3 c)) (shape (s3 m)) in
                  let shape_check2 :=
                    shape_eqb (shape (s3 c)) (shape (s3 l)) in
                  if negb shape_check1 || negb shape_check2 then
                    (Raise IndexError, s3)
                  else
                    (Ok {| _centroid := c; _moment0 := m; _linewidth := l;
                           header := h; mvc_shape := shape (s3 c) |}, s3)
              end
          end
      end
  end.

(** [MVC.compute_pspec]: the array stored as [self._ps2D]. *)
Definition compute_pspec `{NumpyFFT} {H : Type} (self : MVC H) (s : store)
  : ndarray float64 :=
  let centroid := s (_centroid self) in
  let moment0 := s (_moment0 self) in
  let linewidth := s (_linewidth self) in
  let term1 := fft2 (zip_arrays fmul centroid moment0) in
  let term2 :=
    np_nanmean
      (data (zip_arrays fadd (map_array fsquare linewidth)
                              (map_array fsquare centroid))) in
  let mvc_fft :=
    zip_arrays csub term1 (map_array (cmul (of_real term2)) (fft2 moment0)) in
  let mvc_fft := fftshift mvc_fft in
  map_array (fun z => fsquare (cabs z)) mvc_fft.

(** The power spectrum as the documentation words it:
    [|FFT(f1 f2) - mean(f3^2 + f1^2) FFT(f2)|^2], then centred. *)
Definition mvc_spectrum `{NumpyFFT} (f1 f2 f3 : ndarray float64)
  : ndarray float64 :=
  let mean_term :=
    np_mean (map2 fadd (map fsquare (data f3)) (map fsquare (data f1))) in
  let transform :=
    zip_arrays csub (fft2 (zip_arrays fmul f1 f2))
      (map_array (cmul (of_real mean_term)) (fft2 f2)) in
  fftshift (map_array (fun z => fsquare (cabs z)) transform).

(* ------------------------------------------------------------------ *)
(** * psds.py *)

(** [np.arange(-np.floor(n / 2.).astype(int),
              n - np.floor(n / 2.).astype(int))]. *)
Definition radial_axis (n : nat) : list Z :=
  py_range (- Z.of_nat (n / 2)) (Z.of_nat n - Z.of_nat (n / 2)).

(** [np.meshgrid(y, x, indexing='ij')], row-major: the entry at [(i, j)]
    pairs [y[i]] with [x[j]]. *)
Definition meshgrid {A : Type} (y x : list A) : list (A * A) :=
  flat_map (fun yi => map (fun xj => (yi, xj)) x) y.

(** [make_radial_arrays(shape)] followed by [np.sqrt(yy**2 + xx**2)]. *)
Definition pixel_dists (n0 n1 : nat) : list R :=
  map (fun p => sqrt (IZR (fst p ^ 2 + snd p ^ 2)))
      (meshgrid (radial_axis n0) (radial_axis n1)).

(** [np.fft.fftfreq(n)], which divides by [n], and [np.fft.fftshift] of
    it. *)
Definition fftfreq (n : nat) : result (list R) :=
  if Nat.eqb n 0 then Raise ZeroDivisionError
  else
    let N := (((Z.of_nat n - 1) / 2) + 1)%Z in
    Ok (map (fun k => IZR k * (1 / INR n))
            (py_range 0 N ++ py_range (- Z.of_nat (n / 2)) 0)).

Definition freq_axis (n : nat) : result (list R) :=
  freqs <- fftfreq n ;;
  Ok (roll (n / 2) freqs).

(** [make_radial_freq_arrays(shape)] followed by
    [np.sqrt(yy_freq**2 + xx_freq**2)]. *)
Definition freq_dists (n0 n1 : nat) : result (list R) :=
  yfreqs <- freq_axis n0 ;;
  xfreqs <- freq_axis n1 ;;
  Ok (map (fun p => sqrt (fst p ^ 2 + snd p ^ 2)) (meshgrid yfreqs xfreqs)).

(** [a.max()] and [a.min()]: an error on an empty array. *)
Definition np_max (l : list R) : result R :=
  match l with
  | [] => Raise ValueError
  | a :: t => Ok (fold_left Rmax t a)
  end.

Definition np_min (l : list R) : result R :=
  match l with
  | [] => Raise ValueError
  | a :: t => Ok (fold_left Rmin t a)
  end.

(** [np.round] of a real: to the nearest integer, a tie to the even one. *)
Definition np_round (r : R) : Z :=
  let f := Int_part r in
  if Rltb (r - IZR f) (1 / 2) then f
  else if Rltb (1 / 2) (r - IZR f) then (f + 1)%Z
  else if Z.even f then f else (f + 1)%Z.

(** [int(np.round(a) + 1)]: [int] refuses NaN and the infinities. *)
Definition int_round_plus_one (a : float64) : result Z :=
  match a with
  | Fin r => Ok (np_round r + 1)%Z
  | NaN => Raise ValueError
  | PInf | NInf => Raise OverflowError
  end.

(** [np.linspace(start, stop, num)]: [start + i * step], the last entry
    set to [stop]; an error for a negative [num]. *)
Definition np_linspace (start stop : float64) (num : Z)
  : result (list float64) :=
  if (num <? 0)%Z then Raise ValueError
  else
    let n := Z.to_nat num in
    let delta := fsub stop start in
    match n with
    | O => Ok []
    | S O => Ok [fadd (fmul (Fin 0) delta) start]
    | S div =>
        let step := fdiv delta (of_nat div) in
        Ok (map (fun i => fadd (fmul (of_nat i) step) start) (seq 0 div)
            ++ [stop])
    end.

(** [np.logspace(start, stop, num)]: ten to the power of [np.linspace]. *)
Definition np_logspace (start stop : float64) (num : Z)
  : result (list float64) :=
  y <- np_linspace start stop num ;;
  Ok (map pow10 y).

(** The statistic [binned_statistic] is asked for. *)
Inductive statistic : Type :=
| nanmean
| nanstd.

(** [scipy.stats.binned_statistic(x, values, bins=bins, statistic=...)[0]]:
    the statistic of the values in each bin. *)
Class Scipy : Type := {
  binned_statistic : list float64 -> list float64 -> list float64
                     -> statistic -> result (list float64)
}.

(** [(bin_edge[1:] + bin_edge[:-1]) / 2.]. *)
Definition edge_mids (bin_edge : list float64) : list float64 :=
  map2 (fun a b => fdiv (fadd a b) (Fin 2)) (tl bin_edge)
       (removelast bin_edge).

(** What [pspec] returns. *)
Record radial_profile : Type := {
  bin_cents : list float64;
  ps1D : list float64;
  ps1D_stddev : option (list float64)
}.

(** The number of bins [pspec] uses. *)
Definition pspec_nbins (dists : list R) (nbins : option Z) (binsize : R)
  : result Z :=
  match nbins with
  | Some n => Ok n
  | None =>
      m <- np_max dists ;;
      int_round_plus_one (fdiv (Fin m) (Fin binsize))
  end.

(** [freqs_dist] with its zeros replaced by half the smallest non-zero
    entry. *)
Definition freqs_dist_nonzero (n0 n1 : nat) : result (list R) :=
  freqs_dist <- freq_dists n0 n1 ;;
  m <- np_min (filter (fun d => negb (Reqb d 0)) freqs_dist) ;;
  let zero_freq_val := m / 2 in
  Ok (map (fun d => if Reqb d 0 then zero_freq_val else d) freqs_dist).

(** The upper and lower bin bounds in force. *)
Definition pspec_max_bin (dists : list R) (max_bin : option R)
  (return_freqs : bool) : result R :=
  match max_bin with
  | Some b => Ok b
  | None => if return_freqs then Ok 0.5 else np_max dists
  end.

(** [min(psd2.shape)]. *)
Definition min_shape (shp : list nat) : result nat :=
  match shp with
  | [] => Raise ValueError
  | n :: t => Ok (fold_left Nat.min t n)
  end.

Definition pspec_min_bin (shp : list nat) (min_bin : option R)
  (return_freqs : bool) : result R :=
  match min_bin with
  | Some b => Ok b
  | None =>
      if return_freqs then
        n <- min_shape shp ;;
        if Nat.eqb n 0 then Raise ZeroDivisionError else Ok (1 / INR n)
      else Ok 0.5
  end.

Definition pspec_bins (min_bin max_bin : R) (nbins : Z) (logspacing : bool)
  : result (list float64) :=
  if logspacing then
    np_logspace (np_log10 (Fin min_bin)) (np_log10 (Fin max_bin)) (nbins + 1)
  else np_linspace (Fin min_bin) (Fin max_bin) (nbins + 1).

Definition pspec `{Scipy} (psd2 : ndarray float64) (nbins : option Z)
  (return_stddev : bool) (binsize : R) (logspacing : bool)
  (max_bin min_bin : option R) (return_freqs : bool)
  : result radial_profile :=
  match shape psd2 with
  | n0 :: n1 :: _ =>
      let dists := pixel_dists n0 n1 in
      nbins <- pspec_nbins dists nbins binsize ;;
      freqs_dist <- (if return_freqs then freqs_dist_nonzero n0 n1
                     else Ok []) ;;
      max_bin <- pspec_max_bin dists max_bin return_freqs ;;
      min_bin <- pspec_min_bin (shape psd2) min_bin return_freqs ;;
      bins <- pspec_bins min_bin max_bin nbins logspacing ;;
      let dist_arr := if return_freqs then freqs_dist else dists in
      ps <- binned_statistic (map Fin dist_arr) (data psd2) bins nanmean ;;
      let bin_edge := bins in
      let cents := edge_mids bin_edge in
      if negb return_stddev then
        Ok {| bin_cents := cents; ps1D := ps; ps1D_stddev := None |}
      else
        sd <- binned_statistic (map Fin dist_arr) (data psd2) bins nanstd ;;
        Ok {| bin_cents := cents; ps1D := ps; ps1D_stddev := Some sd |}
  | _ => Raise IndexError
  end.

(* ------------------------------------------------------------------ *)
(** * elliptical_powerlaw.py: [interval_transform] *)

(** [np.log]: minus infinity at zero, NaN below. *)
Definition np_log (a : float64) : float64 :=
  match a with
  | NaN | NInf => NaN
  | PInf => PInf
  | Fin x =>
      if Rltb 0 x then Fin (ln x)
      else if Reqb x 0 then NInf else NaN
  end.

(** [np.log(x - a) - np.log(b - x)]. *)
Definition interval_transform (x a b : float64) : float64 :=
  fsub (np_log (fsub x a)) (np_log (fsub b x)).

(* ------------------------------------------------------------------ *)
(** * The slope distances of mvc.py and dendro_stats.py *)

(** The fitted slope and its standard error, as [MVC_Distance] reads them
    from an [MVC] object. *)
Record slope_fit : Type := {
  slope : float64;
  slope_err : float64
}.

(** [MVC_Distance.distance_metric]:
    [np.abs((slope1 - slope2) / np.sqrt(slope_err1**2 + slope_err2**2))]. *)
Definition mvc_distance_metric (mvc1 mvc2 : slope_fit) : float64 :=
  fabs (fdiv (fsub (slope mvc1) (slope mvc2))
             (fsqrt (fadd (fsquare (slope_err mvc1))
                          (fsquare (slope_err mvc2))))).

(** [DendroDistance.numfeature_stat]:
    [np.abs(tail_slope1 - tail_slope2) /
     np.sqrt(tail_slope_err1**2 + tail_slope_err2**2)]. *)
Definition numfeature_stat (dendro1 dendro2 : numfeat_fit) : float64 :=
  fdiv (fabs (fsub (tail_slope dendro1) (tail_slope dendro2)))
       (fsqrt (fadd (fsquare (tail_slope_err dendro1))
                    (fsquare (tail_slope_err dendro2)))).

(* ------------------------------------------------------------------ *)
(** * dendro_stats.py: [DendroDistance.__init__], the cutoff *)

(** [np.argwhere(numfeatures > min_features)]: the positions where the
    test holds, in order; [i] is the position of the head. *)
Fixpoint argwhere_above (numfeatures : list Z) (min_features : Z) (i : nat)
  : list nat :=
  match numfeatures with
  | [] => []
  | n :: t =>
      if (min_features <? n)%Z then i :: argwhere_above t min_features (S i)
      else argwhere_above t min_features (S i)
  end.

(** [if cutoff.any(): cutoff = cutoff[-1] else: raise ValueError]:
    [any] holds when one of the positions is not zero. *)
Definition last_above (numfeatures : list Z) (min_features : Z)
  : result nat :=
  let cutoff := argwhere_above numfeatures min_features 0 in
  if existsb (fun i => negb (Nat.eqb i 0)) cutoff then Ok (last cutoff 0%nat)
  else Raise ValueError.

(** [self.cutoff = np.min([cutoff1, cutoff2])]. *)
Definition dendro_cutoff (numfeatures1 numfeatures2 : list Z)
  (min_features : Z) : result nat :=
  cutoff1 <- last_above numfeatures1 min_features ;;
  cutoff2 <- last_above numfeatures2 min_features ;;
  Ok (Nat.min cutoff1 cutoff2).

(* ------------------------------------------------------------------ *)
(** * dendro_stats.py: the file name of [save_results] *)

Definition pkl_suffix : list Ascii.ascii := list_ascii_of_string ".pkl".

(** The name [save_results] writes to: the default when none is given,
    and [".pkl"] appended unless the last four characters are [".pkl"]. *)
Definition save_results_name (output_name : option (list Ascii.ascii))
  : list Ascii.ascii :=
  let output_name :=
    match output_name with
    | None => list_ascii_of_string "dendrogram_stats_output.pkl"
    | Some name => name
    end in
  if list_eq_dec Ascii.ascii_dec (py_slice_from output_name (-4)) pkl_suffix
  then output_name
  else output_name ++ pkl_suffix.

(* ------------------------------------------------------------------ *)
(** * dendro_stats.py: the bin numbers of [DendroDistance.histogram_stat] *)

(** [nbins="best"]: [np.floor(np.sqrt((n1 + n2) / 2.))] for the levels
    below the cutoff, as integers. *)
Definition best_nbins (numfeatures1 numfeatures2 : list Z) (cutoff : nat)
  : list Z :=
  map2 (fun n1 n2 => Int_part (sqrt (IZR (n1 + n2) / 2)))
       (firstn cutoff numfeatures1) (firstn cutoff numfeatures2).

(* ------------------------------------------------------------------ *)
(** * Notions the statements use *)

(** The window the loop body reads at position [i = j + half_size]: the
    [size - 1] values [y[j], ..., y[j + size - 2]]. *)
Definition scanned_window (y : list Z) (half_size j : nat) : list Z :=
  firstn (2 * half_size) (skipn j y).

(** Sum, mean and standard deviation of real numbers. *)
Definition Rsum (l : list R) : R := fold_left Rplus l 0.

Definition Rmean (l : list R) : R := Rsum l / INR (length l).

Definition Rstd (l : list R) : R :=
  sqrt (Rmean (map (fun a => (a - Rmean l) * (a - Rmean l)) l)).

(** The (delta, count) pairs [fit_numfeat] keeps. *)
Definition kept_levels (min_deltas : list float64) (numfeatures : list Z)
  : list (float64 * Z) :=
  filter (fun p => (1 <? snd p)%Z) (combine min_deltas numfeatures).

(** [np.nanmin] of an array with an entry that is not NaN: the least such
    entry. *)
Definition least_non_nan (l : list float64) (v : float64) : Prop :=
  isnan v = false /\ In v l /\
  forall b, In b l -> isnan b = false -> flt b v = false.

(** An array with its NaNs replaced by [v]. *)
Definition filled (v : float64) (a : ndarray float64) : ndarray float64 :=
  {| shape := shape a; data := replace_nan v (data a) |}.

(** The store [s'] holds, at every location of [done], the array of [s]
    with its NaNs replaced by its [np.nanmin], and agrees with [s]
    elsewhere. *)
Definition cleaned_at (done : list loc) (s s' : store) : Prop :=
  forall a : loc,
    (In a done ->
     exists v, np_nanmin (data (s a)) = Ok v /\ s' a = filled v (s a)) /\
    (~ In a done -> s' a = s a).


(** Level [c] is the last one whose number of features exceeds
    [min_features]. *)
Definition last_exceeding (numfeatures : list Z) (min_features : Z)
  (c : nat) : Prop :=
  (exists n, nth_error numfeatures c = Some n /\ (min_features < n)%Z) /\
  forall j n, (c < j)%nat -> nth_error numfeatures j = Some n ->
    (n <= min_features)%Z.

(** The total absolute residual of a model on the data:
    [sum |values - model(x, y)|]. *)
Fixpoint total_abs_residual (p : pl_params) (x y values : list R) : R :=
  match x, y, values with
  | a :: x', b :: y', c :: values' =>
      Rabs (c - evaluate p a b) + total_abs_residual p x' y' values'
  | _, _, _ => 0
  end.


(** Where the entry at row [i] and column [j] of an [n0] by [n1] array
    stands, in row-major order, once the zero frequency has been moved to
    the centre: at row [(i + n0 // 2) % n0] and column
    [(j + n1 // 2) % n1]. *)
Definition centred_position (n0 n1 i j : nat) : nat :=
  (((i + n0 / 2) mod n0) * n1 + (j + n1 / 2) mod n1)%nat.

(* ------------------------------------------------------------------ *)
(** * Inputs and library instances of the examples *)

(** The count sequence on which the scan of the code and the scan of the
    documentation part ways. *)
Definition flat_then_drop : list Z := [3; 3; 3; 3; 3; 3; 2]%Z.

(** A histogram routine to run the examples with: every count is zero and
    the edges are [0, 1, ..., n]. *)
Definition zero_histogram : NumpyHistogram :=
  {| hist_kwargs := unit;
     np_histogram := fun _ bins _ =>
       match bins with
       | BinCount n =>
           Ok (repeat 0%Z (Z.to_nat n), map of_nat (seq 0 (S (Z.to_nat n))))
       | BinEdges e => Ok (repeat 0%Z (length e - 1), e)
       end |}.

(** A regression routine to run the examples with: the design matrix is
    the regressor itself and every fit reports zero coefficients. *)
Definition zero_regression : Statsmodels :=
  {| design := list float64;
     add_constant := fun x => x;
     OLS_fit := fun _ _ => Ok {| params := [Fin 0; Fin 0];
                                 bse := [Fin 0; Fin 0] |} |}.

(** A solver, a generator and a percentile routine to run the examples
    with.  The solver refuses fewer than four data points; otherwise it
    returns a flat model, of log-amplitude 0 when the start has angle 0
    and 1 otherwise, with a covariance.  The generator always yields the
    reversal.  The percentile of a row is its first entry. *)
Definition flat_fit (p : pl_params) (x y z : list R) : result lm_output :=
  if (length z <? 4)%nat then Raise TypeError
  else Ok {| fitted := {| logamplitude := if Reqb (theta p) 0 then 0 else 1;
                          ellip_transf := ellip_transf p;
                          theta := theta p;
                          gamma := 0 |};
             cov_x := Some [[Fin 4; Fin 0; Fin 0; Fin 0];
                            [Fin 0; Fin 9; Fin 0; Fin 0];
                            [Fin 0; Fin 0; Fin 16; Fin 0];
                            [Fin 0; Fin 0; Fin 0; Fin 25]] |}.

Definition flat_solver : Astropy.
Proof.
  refine {| lev_mar := flat_fit |}.
  intros p x y z _ _ Hfew. unfold flat_fit.
  rewrite (proj2 (Nat.ltb_lt (length z) 4) Hfew). reflexivity.
Defined.

Definition reversing_generator : NumpyRandom :=
  {| rng := unit; np_random_permutation := fun g n => (rev (seq 0 n), g) |}.

Definition first_entry_percentile : NumpyPercentile :=
  {| np_percentile := fun row _ => match row with
                                    | [] => Raise IndexError
                                    | a :: _ => Ok (Fin a)
                                    end;
     np_percentile_empty := fun _ _ => eq_refl |}.

(** A state with no fitter and no warning yet, a first guess, and five
    data points around the origin. *)
Definition fresh_world : world (H := reversing_generator) :=
  @Build_world reversing_generator [] tt [].

Definition circular_guess : pl_params :=
  {| logamplitude := 0; ellip_transf := 0; theta := 0; gamma := -1 |}.

Definition five_x : list R := [1; 0; -1; 0; 1].
Definition five_y : list R := [0; 1; 0; -1; 1].
Definition five_values : list R := [1; 1; 1; 1; 2].

(** Three maps to run the examples with: a centroid map with a blanked
    pixel, and two complete maps, the last of another shape. *)
Definition three_maps : store :=
  fun a =>
    match a with
    | 0%nat => {| shape := [1; 2]%nat; data := [NaN; Fin 1] |}
    | 1%nat => {| shape := [1; 2]%nat; data := [Fin 2; Fin 3] |}
    | _ => {| shape := [2; 1]%nat; data := [Fin 4; Fin 5] |}
    end.

(** The transform of one-pixel maps, to run the example with: a single
    pixel is its own Fourier transform. *)
Definition one_pixel_fft : NumpyFFT :=
  {| fft2 := fun a => map_array of_real a |}.


(** Three maps of one shape with a blanked pixel each. *)
Definition blanked_maps : store :=
  fun a => {| shape := [1; 2]%nat; data := [NaN; Fin (INR (S a))] |}.

(** The transform of two by two maps, to run the example with: on such a
    map the discrete Fourier transform is real, a sum of the four pixels
    with signs. *)
Definition two_by_two_fft : NumpyFFT :=
  {| fft2 := fun a =>
       match shape a, data a with
       | [2%nat; 2%nat], [p; q; r; t] =>
           {| shape := [2; 2]%nat;
              data := map of_real
                        [fadd (fadd p q) (fadd r t);
                         fadd (fsub p q) (fsub r t);
                         fsub (fadd p q) (fadd r t);
                         fsub (fsub p q) (fsub r t)] |}
       | _, _ => map_array of_real a
       end |}.

(** Three two by two maps: centroid, integrated intensity, line width. *)
Definition two_by_two_maps : store :=
  fun a =>
    match a with
    | 0%nat => {| shape := [2; 2]%nat; data := [Fin 1; Fin 2; Fin 3; Fin 4] |}
    | 1%nat => {| shape := [2; 2]%nat; data := [Fin 1; Fin 0; Fin 2; Fin 1] |}
    | _ => {| shape := [2; 2]%nat; data := [Fin 2; Fin 2; Fin 2; Fin 2] |}
    end.


(* ================================================================== *)
(** * Properties *)

Unset Implicit Arguments.

(** ** Deciding comparisons of reals *)

Lemma Rltb_true (a b : R) : a < b -> Rltb a b = true.
Proof.
  intros Hab. unfold Rltb.
  destruct (Rlt_dec a b); [reflexivity | contradiction].
Qed.

Lemma Rltb_false (a b : R) : ~ a < b -> Rltb a b = false.
Proof.
  intros Hab. unfold Rltb.
  destruct (Rlt_dec a b); [contradiction | reflexivity].
Qed.

Lemma Rltb_spec (a b : R) : Rltb a b = true <-> a < b.
Proof.
  unfold Rltb. destruct (Rlt_dec a b); split; intros; try assumption;
    try reflexivity; try discriminate; contradiction.
Qed.

Lemma Reqb_true (a b : R) : a = b -> Reqb a b = true.
Proof.
  intros Hab. unfold Reqb.
  destruct (Req_dec_T a b); [reflexivity | contradiction].
Qed.

Lemma Reqb_false (a b : R) : a <> b -> Reqb a b = false.
Proof.
  intros Hab. unfold Reqb.
  destruct (Req_dec_T a b); [contradiction | reflexivity].
Qed.

(** Resolve the comparisons of reals in the goal by linear arithmetic. *)
Ltac decide_reals :=
  repeat match goal with
    | |- context [Rltb ?a ?b] =>
        first [ rewrite (Rltb_true a b) by lra
              | rewrite (Rltb_false a b) by lra ]
    | |- context [Reqb ?a ?b] =>
        first [ rewrite (Reqb_true a b) by lra
              | rewrite (Reqb_false a b) by lra ]
    end.

(** ** Results *)

Lemma bind_Ok {A B : Type} (m : result A) (k : A -> result B) (b : B) :
  bind m k = Ok b -> exists a, m = Ok a /\ k a = Ok b.
Proof.
  destruct m as [a | e]; simpl; intros Hb; [| discriminate].
  exists a. split; [reflexivity | assumption].
Qed.

(** Split a successful chain of binds into its steps. *)
Ltac bind_inv H :=
  let a := fresh "a" in
  let Ha := fresh "Ha" in
  apply bind_Ok in H; destruct H as (a & Ha & H).

(** ** [make_hists] *)

Section MakeHists.
Context `{NumpyHistogram}.

(** [int(np.sqrt(n))] is the floor of the square root. *)
Lemma int_sqrt_floor (n : nat) :
  (int_sqrt n * int_sqrt n <= Z.of_nat n
   < (int_sqrt n + 1) * (int_sqrt n + 1))%Z.
Proof.
  unfold int_sqrt. pose proof (Nat.sqrt_spec n (Nat.le_0_l n)) as [Hlo Hhi].
  simpl in Hlo, Hhi. lia.
Qed.

Lemma make_hists_loop_default (values : list (list float64))
  (min_number : Z) (kwargs : hist_kwargs) (hists : list hist_entry) :
  make_hists_loop values min_number None kwargs = Ok hists ->
  length hists = length values /\
  forall (i : nat) (value : list float64),
    nth_error values i = Some value ->
    ((Z.of_nat (length value) < min_number)%Z ->
     nth_error hists i = Some empty_hist) /\
    ((min_number <= Z.of_nat (length value))%Z ->
     exists counts edges,
       np_histogram value (BinCount (int_sqrt (length value))) kwargs
         = Ok (counts, edges) /\
       nth_error hists i = Some (bin_centres edges, counts)).
Proof.
  revert hists.
  induction values as [| value rest IH]; intros hists Hrun; simpl in Hrun.
  - injection Hrun as <-. split; [reflexivity |].
    intros [| i] v Hv; discriminate.
  - destruct (Z.of_nat (length value) <? min_number)%Z eqn:Hfew.
    + bind_inv Hrun. injection Hrun as <-.
      destruct (IH _ Ha) as [Hlen Hnth].
      split; [simpl; congruence |].
      intros [| i] v Hv; simpl in Hv.
      * injection Hv as <-. apply Z.ltb_lt in Hfew.
        split; [reflexivity | lia].
      * apply (Hnth i v Hv).
    + bind_inv Hrun. bind_inv Hrun. injection Hrun as <-.
      destruct (IH _ Ha0) as [Hlen Hnth].
      split; [simpl; congruence |].
      intros [| i] v Hv; simpl in Hv.
      * injection Hv as <-. apply Z.ltb_ge in Hfew.
        split; [lia |]. intros _.
        destruct a as [counts edges]. exists counts, edges.
        split; [assumption | reflexivity].
      * apply (Hnth i v Hv).
Qed.

(** C4 (as amended): with no [bins] keyword, [make_hists] records one entry
    per threshold level; a level with fewer than [min_number] values gets the
    empty placeholder, and every other level of [N] values gets the
    histogram [np.histogram] builds with [int(sqrt(N))] bins, the floor of
    the square root and not its rounding. *)
Theorem make_hists_default_bin_count (values : list (list float64))
  (min_number : Z) (kwargs : hist_kwargs) (hists : list hist_entry) :
  make_hists values min_number None kwargs = Ok hists ->
  length hists = length values /\
  forall (i : nat) (value : list float64),
    nth_error values i = Some value ->
    let N := length value in
    ((Z.of_nat N < min_number)%Z -> nth_error hists i = Some empty_hist) /\
    ((min_number <= Z.of_nat N)%Z ->
     exists bins counts edges,
       (bins * bins <= Z.of_nat N < (bins + 1) * (bins + 1))%Z /\
       np_histogram value (BinCount bins) kwargs = Ok (counts, edges) /\
       nth_error hists i = Some (bin_centres edges, counts)).
Proof.
  intros Hrun. unfold make_hists in Hrun.
  destruct (make_hists_loop_default _ _ _ _ Hrun) as [Hlen Hnth].
  split; [exact Hlen |].
  intros i value Hv N. destruct (Hnth i value Hv) as [Hfew Hmany].
  split; [exact Hfew |].
  intros Hge. destruct (Hmany Hge) as (counts & edges & Hcall & Hentry).
  exists (int_sqrt N), counts, edges.
  split; [apply int_sqrt_floor |]. split; assumption.
Qed.

End MakeHists.

Lemma make_hists_default_bin_count_example :
  let values := [repeat (Fin 1) 3; repeat (Fin 1) 15] in
  let hists := [empty_hist;
                (bin_centres (map of_nat (seq 0 4)), repeat 0%Z 3)] in
  make_hists (H := zero_histogram) values 10 None tt = Ok hists /\
  length hists = length values /\
  forall (i : nat) (value : list float64),
    nth_error values i = Some value ->
    let N := length value in
    ((Z.of_nat N < 10)%Z -> nth_error hists i = Some empty_hist) /\
    ((10 <= Z.of_nat N)%Z ->
     exists bins counts edges,
       (bins * bins <= Z.of_nat N < (bins + 1) * (bins + 1))%Z /\
       np_histogram (NumpyHistogram := zero_histogram) value (BinCount bins) tt
         = Ok (counts, edges) /\
       nth_error hists i = Some (bin_centres edges, counts)).
Proof.
  intros values hists.
  assert (Hrun : make_hists (H := zero_histogram) values 10 None tt = Ok hists)
    by reflexivity.
  split; [exact Hrun |].
  exact (make_hists_default_bin_count (H := zero_histogram) values 10 tt
           hists Hrun).
Defined.

(** C4 as stated fails: for a level of 15 values the histogram is built
    with 3 bins, whatever [np.histogram] does, while [round(sqrt(15))] is 4. *)
Lemma make_hists_bins_not_rounded :
  let value := map of_nat (seq 1 15) in
  (forall (E : NumpyHistogram) (kwargs : hist_kwargs),
     make_hists [value] 10 None kwargs =
     (hb <- np_histogram value (BinCount 3) kwargs ;;
      Ok [(bin_centres (snd hb), fst hb)])) /\
  round_sqrt (length value) = 4%Z.
Proof.
  intros value. split; [| reflexivity].
  intros E kwargs. unfold make_hists, make_hists_loop.
  change (length value) with 15%nat.
  change (int_sqrt 15) with 3%Z.
  change (Z.of_nat 15 <? 10)%Z with false. cbv iota.
  destruct (np_histogram value (BinCount 3) kwargs); reflexivity.
Qed.

(** ** Python sequences *)

Lemma py_index_nat (n k : nat) :
  (k < n)%nat -> py_index (Z.of_nat n) (Z.of_nat k) = Ok k.
Proof.
  intros Hk. unfold py_index.
  replace ((0 <=? Z.of_nat k)%Z && (Z.of_nat k <? Z.of_nat n)%Z) with true.
  - rewrite Nat2Z.id. reflexivity.
  - symmetry. apply andb_true_intro. split.
    + apply Z.leb_le. lia.
    + apply Z.ltb_lt. lia.
Qed.

Lemma py_setitem_nat {A : Type} (l : list A) (k : nat) (v : A) :
  (k < length l)%nat -> py_setitem l (Z.of_nat k) v = Ok (set_nth l k v).
Proof.
  intros Hk. unfold py_setitem. rewrite (py_index_nat _ _ Hk). reflexivity.
Qed.

Lemma set_nth_middle {A : Type} (l1 l2 : list A) (a v : A) :
  set_nth (l1 ++ a :: l2) (length l1) v = l1 ++ v :: l2.
Proof.
  induction l1 as [| b l1 IH]; simpl; [reflexivity |].
  rewrite IH. reflexivity.
Qed.

Lemma py_slice_nat {A : Type} (l : list A) (a len : nat) :
  (a + len <= length l)%nat ->
  py_slice l (Z.of_nat a) (Z.of_nat a + Z.of_nat len)
  = firstn len (skipn a l).
Proof.
  intros Hb. unfold py_slice, clamp_bound.
  replace (Z.of_nat a <? 0)%Z with false by (symmetry; apply Z.ltb_ge; lia).
  replace (Z.of_nat a + Z.of_nat len <? 0)%Z with false
    by (symmetry; apply Z.ltb_ge; lia).
  rewrite !Z.min_l by lia.
  replace (Z.of_nat a + Z.of_nat len - Z.of_nat a)%Z with (Z.of_nat len) by lia.
  rewrite !Nat2Z.id. reflexivity.
Qed.

Lemma py_range_nat (a n : nat) :
  py_range (Z.of_nat a) (Z.of_nat a + Z.of_nat n)
  = map Z.of_nat (seq a n).
Proof.
  unfold py_range.
  replace (Z.of_nat a + Z.of_nat n - Z.of_nat a)%Z with (Z.of_nat n) by lia.
  rewrite Nat2Z.id.
  replace (seq a n) with (map (fun k => (a + k)%nat) (seq 0 n)).
  - rewrite map_map. apply map_ext. intros k. lia.
  - clear. revert a. induction n as [| n IH]; intros a; [reflexivity |].
    simpl. rewrite Nat.add_0_r. f_equal.
    rewrite <- (seq_shift n 0), map_map. rewrite <- (IH (S a)).
    apply map_ext. intros k. lia.
Qed.

(** ** [std_window] *)

Lemma std_window_loop (y : list Z) (h n : nat) :
  (n + 2 * h <= length y)%nat ->
  forall (m : nat), (m <= n)%nat ->
  fold_left (std_window_step y (Z.of_nat h))
    (map Z.of_nat (seq (h + m) (n - m)))
    (Ok (map (fun j => np_std (map of_Z (scanned_window y h j))) (seq 0 m)
         ++ repeat NaN (n - m)))
  = Ok (map (fun j => np_std (map of_Z (scanned_window y h j))) (seq 0 n)).
Proof.
  intros Hlen m Hm.
  remember (n - m)%nat as d eqn:Hd. revert m Hm Hd.
  induction d as [| d IH]; intros m Hm Hd.
  - simpl. rewrite app_nil_r. replace m with n by lia. reflexivity.
  - cbn [seq map fold_left repeat].
    set (F := fun j => np_std (map of_Z (scanned_window y h j))) in *.
    assert (Hstep :
      std_window_step y (Z.of_nat h)
        (Ok (map F (seq 0 m) ++ NaN :: repeat NaN d)) (Z.of_nat (h + m))
      = Ok (map F (seq 0 (S m)) ++ repeat NaN d)).
    { unfold std_window_step. cbn [bind].
      replace (Z.of_nat (h + m) - Z.of_nat h)%Z with (Z.of_nat m) by lia.
      replace (Z.of_nat (h + m) + Z.of_nat h)%Z
        with (Z.of_nat m + Z.of_nat (2 * h))%Z by lia.
      rewrite py_slice_nat by lia.
      rewrite py_setitem_nat
        by (rewrite length_app, length_map, length_seq; simpl; lia).
      f_equal. rewrite seq_S, map_app. cbn [map Nat.add].
      rewrite <- app_assoc. cbn [app].
      pose proof (set_nth_middle (map F (seq 0 m)) (repeat NaN d) NaN (F m))
        as Hset.
      rewrite length_map, length_seq in Hset. exact Hset. }
    rewrite Hstep.
    replace (S (h + m)) with (h + S m)%nat by lia.
    apply IH; lia.
Qed.

(** For an odd window size [2 h + 1] that fits, the loop fills [stds] with
    the standard deviations of the scanned windows. *)
Lemma std_window_stds_odd (y : list Z) (h : nat) :
  (2 * h + 1 <= length y)%nat ->
  std_window_stds y (Z.of_nat (2 * h + 1))
  = Ok (map (fun j => np_std (map of_Z (scanned_window y h j)))
            (seq 0 (length y - 2 * h))).
Proof.
  intros Hlen. unfold std_window_stds.
  replace ((Z.of_nat (2 * h + 1) - 1) / 2)%Z with (Z.of_nat h)
    by (apply Z.div_unique with (r := 0%Z); lia).
  unfold np_empty.
  replace (Z.of_nat (length y) - Z.of_nat (2 * h + 1) + 1 <? 0)%Z with false
    by (symmetry; apply Z.ltb_ge; lia).
  replace (Z.to_nat (Z.of_nat (length y) - Z.of_nat (2 * h + 1) + 1))
    with (length y - 2 * h)%nat by lia.
  replace (Z.of_nat (length y) - Z.of_nat h)%Z
    with (Z.of_nat h + Z.of_nat (length y - 2 * h))%Z by lia.
  rewrite py_range_nat.
  pose proof (std_window_loop y h (length y - 2 * h)) as Hloop.
  specialize (Hloop ltac:(lia) 0%nat ltac:(lia)).
  rewrite Nat.add_0_r, Nat.sub_0_r in Hloop. simpl app in Hloop.
  exact Hloop.
Qed.

(** ** Sums, means and standard deviations of finite values *)

Lemma fold_left_Rplus_acc (l : list R) (a : R) :
  fold_left Rplus l a = a + fold_left Rplus l 0.
Proof.
  revert a. induction l as [| b l IH]; intros a; simpl.
  - lra.
  - rewrite (IH (a + b)), (IH (0 + b)). lra.
Qed.

Lemma Rsum_cons (a : R) (l : list R) : Rsum (a :: l) = a + Rsum l.
Proof. unfold Rsum. simpl. rewrite fold_left_Rplus_acc. lra. Qed.

Lemma fold_left_fadd_Fin (l : list R) (a : R) :
  fold_left fadd (map Fin l) (Fin a) = Fin (fold_left Rplus l a).
Proof.
  revert a. induction l as [| b l IH]; intros a; simpl; [reflexivity |].
  apply IH.
Qed.

Lemma np_sum_Fin (l : list R) : np_sum (map Fin l) = Fin (Rsum l).
Proof. apply fold_left_fadd_Fin. Qed.

Lemma INR_length_pos {A : Type} (l : list A) : l <> [] -> 0 < INR (length l).
Proof.
  intros Hl. destruct l as [| a l]; [contradiction |].
  apply lt_0_INR. simpl. lia.
Qed.

Lemma np_mean_Fin (l : list R) :
  l <> [] -> np_mean (map Fin l) = Fin (Rmean l).
Proof.
  intros Hl. unfold np_mean. rewrite np_sum_Fin, length_map.
  unfold of_nat, fdiv. pose proof (INR_length_pos l Hl) as Hpos.
  decide_reals. reflexivity.
Qed.

Lemma Rsum_nonneg (l : list R) : Forall (fun a => 0 <= a) l -> 0 <= Rsum l.
Proof.
  induction 1 as [| a l Ha Hl IH]; [unfold Rsum; simpl; lra |].
  rewrite Rsum_cons. lra.
Qed.

Lemma Rmean_squares_nonneg (m : R) (l : list R) :
  0 <= Rmean (map (fun a => (a - m) * (a - m)) l).
Proof.
  unfold Rmean. destruct l as [| b l].
  - unfold Rsum, Rdiv. simpl. rewrite Rmult_0_l. lra.
  - apply Rmult_le_pos.
    + apply Rsum_nonneg. apply Forall_forall. intros x Hx.
      apply in_map_iff in Hx. destruct Hx as (a & <- & _).
      apply (Rle_0_sqr (a - m)).
    + apply Rlt_le, Rinv_0_lt_compat, INR_length_pos. discriminate.
Qed.

(** [np.std] of finite values is the real standard deviation. *)
Lemma np_std_Fin (l : list R) :
  l <> [] -> np_std (map Fin l) = Fin (Rstd l).
Proof.
  intros Hl. unfold np_std. rewrite (np_mean_Fin l Hl).
  rewrite map_map.
  replace (map (fun a => fmul (fabs (fsub (Fin a) (Fin (Rmean l))))
                              (fabs (fsub (Fin a) (Fin (Rmean l))))) l)
    with (map Fin (map (fun a => (a - Rmean l) * (a - Rmean l)) l)).
  - rewrite np_mean_Fin
      by (destruct l; [contradiction | discriminate]).
    unfold fsqrt, Rstd.
    pose proof (Rmean_squares_nonneg (Rmean l) l) as Hnonneg.
    decide_reals. reflexivity.
  - rewrite map_map. apply map_ext. intros a. simpl. f_equal.
    fold (a - Rmean l). rewrite <- Rabs_mult. symmetry.
    apply Rabs_pos_eq. apply (Rle_0_sqr (a - Rmean l)).
Qed.

(** The break position for an odd window size [2 h + 1] that fits. *)
Lemma std_window_odd (y : list Z) (h : nat) :
  (2 * h + 1 <= length y)%nat ->
  std_window y (Z.of_nat (2 * h + 1))
  = (k <- np_argmax
            (map (fun j => np_std (map of_Z (scanned_window y h j)))
                 (seq 0 (length y - 2 * h))) ;;
     Ok (Z.of_nat k + Z.of_nat h)%Z).
Proof.
  intros Hlen. unfold std_window. rewrite (std_window_stds_odd y h Hlen).
  replace ((Z.of_nat (2 * h + 1) - 1) / 2)%Z with (Z.of_nat h)
    by (apply Z.div_unique with (r := 0%Z); lia).
  reflexivity.
Qed.

Lemma std_window_centred_odd (y : list Z) (h : nat) :
  (2 * h + 1 <= length y)%nat ->
  std_window_centred y (Z.of_nat (2 * h + 1))
  = (k <- np_argmax
            (map (fun j => np_std (map of_Z (firstn (2 * h + 1) (skipn j y))))
                 (seq 0 (length y - 2 * h))) ;;
     Ok (Z.of_nat k + Z.of_nat h)%Z).
Proof.
  intros Hlen. unfold std_window_centred, centred_window.
  replace ((Z.of_nat (2 * h + 1) - 1) / 2)%Z with (Z.of_nat h)
    by (apply Z.div_unique with (r := 0%Z); lia).
  replace (Z.of_nat (length y) - Z.of_nat h)%Z
    with (Z.of_nat h + Z.of_nat (length y - 2 * h))%Z by lia.
  rewrite py_range_nat.
  replace (seq h (length y - 2 * h))
    with (map (fun j => (h + j)%nat) (seq 0 (length y - 2 * h))).
  - rewrite !map_map.
    replace (map (fun j => np_std (map of_Z
                    (py_slice y (Z.of_nat (h + j) - Z.of_nat h)
                       (Z.of_nat (h + j) + Z.of_nat h + 1))))
                 (seq 0 (length y - 2 * h)))
      with (map (fun j => np_std (map of_Z (firstn (2 * h + 1) (skipn j y))))
                (seq 0 (length y - 2 * h))); [reflexivity |].
    apply map_ext_in. intros j Hj. apply in_seq in Hj.
    replace (Z.of_nat (h + j) - Z.of_nat h)%Z with (Z.of_nat j) by lia.
    replace (Z.of_nat (h + j) + Z.of_nat h + 1)%Z
      with (Z.of_nat j + Z.of_nat (2 * h + 1))%Z by lia.
    rewrite py_slice_nat by lia. reflexivity.
  - generalize (length y - 2 * h)%nat. clear. intros n. revert h.
    induction n as [| n IH]; intros h; [reflexivity |].
    simpl. rewrite Nat.add_0_r. f_equal.
    rewrite <- (seq_shift n 0), map_map. rewrite <- (IH (S h)).
    apply map_ext. intros k. lia.
Qed.

Lemma Rstd_zero (l : list R) :
  Rmean (map (fun a => (a - Rmean l) * (a - Rmean l)) l) = 0 -> Rstd l = 0.
Proof. intros Hz. unfold Rstd. rewrite Hz. apply sqrt_0. Qed.

Lemma Rstd_pos (l : list R) :
  0 < Rmean (map (fun a => (a - Rmean l) * (a - Rmean l)) l) -> 0 < Rstd l.
Proof. intros Hz. unfold Rstd. apply sqrt_lt_R0. exact Hz. Qed.

Lemma np_std_flat4 : np_std [of_Z 3; of_Z 3; of_Z 3; of_Z 3] = Fin 0.
Proof.
  change (np_std (map Fin [3; 3; 3; 3]) = Fin 0).
  rewrite np_std_Fin by discriminate. f_equal.
  apply Rstd_zero. unfold Rmean, Rsum. simpl. field.
Qed.

Lemma np_std_flat5 : np_std [of_Z 3; of_Z 3; of_Z 3; of_Z 3; of_Z 3] = Fin 0.
Proof.
  change (np_std (map Fin [3; 3; 3; 3; 3]) = Fin 0).
  rewrite np_std_Fin by discriminate. f_equal.
  apply Rstd_zero. unfold Rmean, Rsum. simpl. field.
Qed.

Lemma np_std_drop5 :
  exists s, 0 < s /\
    np_std [of_Z 3; of_Z 3; of_Z 3; of_Z 3; of_Z 2] = Fin s.
Proof.
  exists (Rstd [3; 3; 3; 3; 2]). split.
  - apply Rstd_pos. unfold Rmean, Rsum. simpl. lra.
  - change (np_std (map Fin [3; 3; 3; 3; 2]) = Fin (Rstd [3; 3; 3; 3; 2])).
    apply np_std_Fin. discriminate.
Qed.

Lemma std_window_flat_then_drop : std_window flat_then_drop 5 = Ok 2%Z.
Proof.
  change 5%Z with (Z.of_nat (2 * 2 + 1)).
  rewrite std_window_odd by (simpl; lia).
  cbn [flat_then_drop length Nat.sub Nat.mul Nat.add seq map scanned_window
       firstn skipn].
  rewrite np_std_flat4.
  unfold np_argmax, argmax_from, takes_over, flt. cbn [isnan negb orb andb].
  decide_reals. reflexivity.
Qed.

Lemma std_window_centred_flat_then_drop :
  std_window_centred flat_then_drop 5 = Ok 4%Z.
Proof.
  change 5%Z with (Z.of_nat (2 * 2 + 1)).
  rewrite std_window_centred_odd by (simpl; lia).
  cbn [flat_then_drop length Nat.sub Nat.mul Nat.add seq map firstn skipn].
  rewrite np_std_flat5. destruct np_std_drop5 as (s & Hs & ->).
  unfold np_argmax, argmax_from, takes_over, flt. cbn [isnan negb orb andb].
  decide_reals. reflexivity.
Qed.

(** C2: on the counts [3, 3, 3, 3, 3, 3, 2] with the default window size 5
    the code returns break position 2, while the scan of the documentation
    (the standard deviation of the 5 values centred at each interior
    position) puts it at 4: the code's windows hold the 4 values
    [y[i - 2], ..., y[i + 1]] and leave [y[i + 2]] out. *)
Theorem std_window_misses_last_value_of_window :
  std_window flat_then_drop 5 = Ok 2%Z /\
  std_window_centred flat_then_drop 5 = Ok 4%Z /\
  std_window_stds flat_then_drop 5
  = Ok (map (fun i =>
               np_std (map of_Z (py_slice flat_then_drop (i - 2) (i + 2))))
            [2; 3; 4]%Z) /\
  map (fun i => length (py_slice flat_then_drop (i - 2) (i + 2))) [2; 3; 4]%Z
  = [4; 4; 4]%nat.
Proof.
  split; [exact std_window_flat_then_drop |].
  split; [exact std_window_centred_flat_then_drop |].
  split; [| reflexivity].
  change 5%Z with (Z.of_nat (2 * 2 + 1)).
  rewrite std_window_stds_odd by (simpl; lia). reflexivity.
Qed.

(** ** [fit_numfeat] *)

Lemma select_counts (min_deltas : list float64) (numfeatures : list Z) :
  length min_deltas = length numfeatures ->
  select (more_than_one numfeatures) numfeatures
  = map snd (kept_levels min_deltas numfeatures) /\
  select (more_than_one numfeatures) min_deltas
  = map fst (kept_levels min_deltas numfeatures).
Proof.
  unfold kept_levels, more_than_one. revert numfeatures.
  induction min_deltas as [| d ds IH]; intros [| n ns] Hlen;
    try discriminate; simpl.
  - split; reflexivity.
  - injection Hlen as Hlen. destruct (IH ns Hlen) as [IHn IHd].
    destruct (1 <? n)%Z; simpl; rewrite IHn, IHd; split; reflexivity.
Qed.

Lemma kept_levels_above_one (min_deltas : list float64) (numfeatures : list Z) :
  Forall (fun p => (1 < snd p)%Z) (kept_levels min_deltas numfeatures).
Proof.
  apply Forall_forall. intros p Hp. apply filter_In in Hp.
  destruct Hp as [_ Hp]. apply Z.ltb_lt. exact Hp.
Qed.

Lemma np_mask_Ok {A : Type} (l : list A) (mask : list bool) (r : list A) :
  np_mask l mask = Ok r -> length mask = length l /\ r = select mask l.
Proof.
  unfold np_mask. destruct (Nat.eqb (length mask) (length l)) eqn:Hlen;
    intros Hr; [| discriminate].
  apply Nat.eqb_eq in Hlen. injection Hr as <-.
  split; [assumption | reflexivity].
Qed.

Section FitNumfeat.
Context `{Statsmodels}.

(** C10: whenever [fit_numfeat] fits, the threshold levels with a feature
    count of 1 or less have been removed first: the break scan
    ([std_window]) runs on the counts of the kept (delta, count) pairs, the
    break and the fitted values are read from the kept pairs from the break
    position on, and every kept pair has a count above 1. *)
Theorem fit_numfeat_drops_counts_up_to_one (numfeatures : list Z)
  (min_deltas : list float64) (size : Z) (fit : numfeat_fit) :
  fit_numfeat numfeatures min_deltas size = Ok (Some fit) ->
  let kept := kept_levels min_deltas numfeatures in
  Forall (fun p => (1 < snd p)%Z) kept /\
  (forall p, In p kept <->
             In p (combine min_deltas numfeatures) /\ (1 < snd p)%Z) /\
  exists pos : Z,
    std_window (map snd kept) size = Ok pos /\
    py_getitem (map fst kept) pos = Ok (break_pos fit) /\
    fitvals fit
    = (map np_log10 (py_slice_from (map fst kept) pos),
       map np_log10 (map of_Z (py_slice_from (map snd kept) pos))) /\
    OLS_fit (snd (fitvals fit)) (add_constant (fst (fitvals fit)))
    = Ok (model fit).
Proof.
  intros Hrun kept. unfold fit_numfeat in Hrun.
  destruct (Nat.eqb (length numfeatures) 1); [discriminate |].
  apply bind_Ok in Hrun. destruct Hrun as (nums & Hnums & Hrun).
  apply bind_Ok in Hrun. destruct Hrun as (deltas & Hdeltas & Hrun).
  apply bind_Ok in Hrun. destruct Hrun as (pos & Hpos & Hrun).
  apply bind_Ok in Hrun. destruct Hrun as (brk & Hbrk & Hrun).
  apply bind_Ok in Hrun. destruct Hrun as (m & Hm & Hrun).
  apply bind_Ok in Hrun. destruct Hrun as (slope & Hslope & Hrun).
  apply bind_Ok in Hrun. destruct Hrun as (slope_err & Herr & Hrun).
  injection Hrun as <-.
  apply np_mask_Ok in Hnums. destruct Hnums as [_ ->].
  apply np_mask_Ok in Hdeltas. destruct Hdeltas as [Hlen ->].
  unfold more_than_one in Hlen. rewrite length_map in Hlen.
  destruct (select_counts min_deltas numfeatures (eq_sym Hlen)) as [Hn Hd].
  fold kept in Hn, Hd. rewrite Hn in *. rewrite Hd in *.
  split; [apply kept_levels_above_one |].
  split.
  { intros p. unfold kept, kept_levels. rewrite filter_In, Z.ltb_lt. tauto. }
  exists pos. simpl. repeat split; assumption.
Qed.

End FitNumfeat.

Lemma fit_numfeat_drops_counts_up_to_one_example :
  let numfeatures := (flat_then_drop ++ [1; 0])%Z in
  let min_deltas := map of_nat (seq 1 9) in
  let kept := kept_levels min_deltas numfeatures in
  exists fit,
    fit_numfeat (H := zero_regression) numfeatures min_deltas 5
    = Ok (Some fit) /\
    Forall (fun p => (1 < snd p)%Z) kept /\
    (forall p, In p kept <->
             In p (combine min_deltas numfeatures) /\ (1 < snd p)%Z) /\
    exists pos : Z,
      std_window (map snd kept) 5 = Ok pos /\
      py_getitem (map fst kept) pos = Ok (break_pos fit) /\
      fitvals fit
      = (map np_log10 (py_slice_from (map fst kept) pos),
         map np_log10 (map of_Z (py_slice_from (map snd kept) pos))) /\
      OLS_fit (Statsmodels := zero_regression) (snd (fitvals fit))
        (add_constant (fst (fitvals fit)))
      = Ok (model fit).
Proof.
  intros numfeatures min_deltas kept.
  assert (Hrun :
    fit_numfeat (H := zero_regression) numfeatures min_deltas 5
    = Ok (Some {| break_pos := of_nat 3;
                  fitvals := (map np_log10 (map of_nat (seq 3 5)),
                              map np_log10 (map of_Z [3; 3; 3; 3; 2]%Z));
                  model := {| params := [Fin 0; Fin 0];
                              bse := [Fin 0; Fin 0] |};
                  tail_slope := Fin 0; tail_slope_err := Fin 0 |})).
  { unfold fit_numfeat.
    change (np_mask numfeatures (more_than_one numfeatures))
      with (Ok (A := list Z) flat_then_drop).
    change (np_mask min_deltas (more_than_one numfeatures))
      with (Ok (map of_nat (seq 1 7))).
    cbn [length numfeatures flat_then_drop app Nat.eqb bind].
    rewrite std_window_flat_then_drop. reflexivity. }
  exists {| break_pos := of_nat 3;
            fitvals := (map np_log10 (map of_nat (seq 3 5)),
                        map np_log10 (map of_Z [3; 3; 3; 3; 2]%Z));
            model := {| params := [Fin 0; Fin 0]; bse := [Fin 0; Fin 0] |};
            tail_slope := Fin 0; tail_slope_err := Fin 0 |}.
  split; [exact Hrun |].
  exact (fit_numfeat_drops_counts_up_to_one (H := zero_regression)
           numfeatures min_deltas 5 _ Hrun).
Defined.

(** ** [fit_elliptical_powerlaw] *)

Lemma finite_values_Fin (v : list R) : finite_values (map Fin v) = Some v.
Proof.
  induction v as [| a v IH]; simpl; [reflexivity |]. rewrite IH. reflexivity.
Qed.

(** [a % b] for a positive [b] lies in [[0, b)] and differs from [a] by a
    multiple of [b]. *)
Lemma py_fmod_range (a b : R) :
  0 < b ->
  0 <= py_fmod a b < b /\ exists k : Z, py_fmod a b = a - IZR k * b.
Proof.
  intros Hb. unfold py_fmod.
  destruct (base_Int_part (a / b)) as [Hlo Hhi].
  set (k := Int_part (a / b)) in *.
  assert (Hab : a = a / b * b) by (field; lra).
  split.
  - split.
    + assert (IZR k * b <= a / b * b) by (apply Rmult_le_compat_r; lra). lra.
    + assert (a / b * b < (IZR k + 1) * b)
        by (apply Rmult_lt_compat_r; lra). lra.
  - exists k. lra.
Qed.

Lemma finite_values_Some (values : list float64) :
  (exists v, finite_values values = Some v) <->
  Forall (fun a => isfinite a = true) values.
Proof.
  induction values as [| a values IH]; simpl.
  - split; [constructor | intros _; eexists; reflexivity].
  - destruct a; simpl;
      try (split; [intros [v Hv]; discriminate
                  | intros Hall; inversion Hall; discriminate]).
    split.
    + intros [v Hv]. constructor; [reflexivity |]. apply IH.
      destruct (finite_values values) as [vs |]; [| discriminate].
      eexists. reflexivity.
    + intros Hall. inversion Hall as [| ? ? _ Htail]; subst.
      apply IH in Htail. destruct Htail as [vs ->]. eexists. reflexivity.
Qed.

(** The sum the code takes is the total absolute residual. *)
Lemma abs_residual_sum_total (p : pl_params) (x y values : list R) :
  abs_residual_sum p x y values = total_abs_residual p x y values.
Proof.
  unfold abs_residual_sum, residuals, model_call.
  revert y values. induction x as [| a x IH]; intros y values.
  - destruct y, values; reflexivity.
  - destruct y as [| b y]; [destruct values; reflexivity |].
    destruct values as [| c values]; [reflexivity |].
    cbn [map2 map fold_left total_abs_residual].
    rewrite fold_left_Rplus_acc, IH. lra.
Qed.

(** The model surface, as a form in the rotated coordinates. *)
Lemma ellip_bounds (t : R) : 0 < 1 / (1 + exp (- t)) < 1.
Proof.
  pose proof (exp_pos (- t)) as He.
  split.
  - apply Rdiv_lt_0_compat; lra.
  - apply Rmult_lt_reg_r with (r := 1 + exp (- t)); [lra |].
    unfold Rdiv. rewrite Rmult_assoc, Rinv_l by lra. lra.
Qed.

Lemma ellipse_form (q c s x y : R) :
  x ^ 2 * ((q * c) ^ 2 + s ^ 2) + x * y * (2 * (1 - q ^ 2) * s * c)
  + y ^ 2 * ((q * s) ^ 2 + c ^ 2)
  = q ^ 2 * (x * c - y * s) ^ 2 + (x * s + y * c) ^ 2.
Proof. ring. Qed.

Lemma ellipse_form_pos (q x y t : R) :
  0 < q -> x <> 0 \/ y <> 0 ->
  0 < q ^ 2 * (x * cos t - y * sin t) ^ 2 + (x * sin t + y * cos t) ^ 2.
Proof.
  intros Hq Hxy.
  pose proof (sin2_cos2 t) as Hsc. unfold Rsqr in Hsc.
  set (c := cos t) in *. set (s := sin t) in *.
  set (u := x * c - y * s). set (v := x * s + y * c).
  assert (Hnorm : u * u + v * v = x * x + y * y).
  { unfold u, v.
    replace ((x * c - y * s) * (x * c - y * s) + (x * s + y * c) * (x * s + y * c))
      with ((x * x + y * y) * (s * s + c * c)) by ring.
    rewrite Hsc. ring. }
  assert (Hxy2 : 0 < x * x + y * y) by (destruct Hxy; nra).
  assert (Hq2 : 0 < q ^ 2) by nra.
  destruct (Req_dec_T u 0) as [Hu | Hu].
  - assert (0 < v * v) by nra. rewrite Hu. nra.
  - assert (0 < u * u) by nra.
    assert (0 < q ^ 2 * u ^ 2) by (apply Rmult_lt_0_compat; nra).
    nra.
Qed.

(** A model of index zero is flat away from the origin. *)
Lemma evaluate_flat (p : pl_params) (x y : R) :
  gamma p = 0 -> x <> 0 \/ y <> 0 -> evaluate p x y = logamplitude p.
Proof.
  intros Hgamma Hxy. unfold evaluate. rewrite ellipse_form.
  pose proof (ellip_bounds (ellip_transf p)) as Hq.
  pose proof (ellipse_form_pos (1 / (1 + exp (- ellip_transf p))) x y
                (theta p) (proj1 Hq) Hxy) as Hpos.
  unfold np_log10. decide_reals. cbn [fmul fadd]. rewrite Hgamma. lra.
Qed.

Lemma result_map_Ok {A B : Type} (f : A -> result B) (l : list A)
  (r : list B) :
  result_map f l = Ok r -> Forall2 (fun a b => f a = Ok b) l r.
Proof.
  revert r. induction l as [| a l IH]; intros r Hr; simpl in Hr.
  - injection Hr as <-. constructor.
  - apply bind_Ok in Hr. destruct Hr as (b & Hb & Hr).
    apply bind_Ok in Hr. destruct Hr as (bs & Hbs & Hr).
    injection Hr as <-. constructor; [exact Hb | apply IH; exact Hbs].
Qed.

Lemma set_nth_length {A : Type} (l : list A) (k : nat) (v : A) :
  length (set_nth l k v) = length l.
Proof.
  revert k. induction l as [| a l IH]; intros [| k]; simpl; auto.
Qed.

Section EllipticalPowerlawProofs.
Context `{Astropy} `{NumpyRandom} `{NumpyPercentile}.

(** The two fits.  Both are run by the first fitter object, so after the
    second run its [fit_info] holds the covariance of that run; the second
    fitter object is created and never called. *)
Lemma fit_twice_spec (w : world) (x y v : list R) (p0 : pl_params) :
  fit_twice w x y v p0
  = match lev_mar p0 x y v with
    | Raise e =>
        (Raise e,
         {| fitters := fitters w ++ [{| param_cov := None |}];
            gen := gen w; warnings := warnings w |})
    | Ok first =>
        match lev_mar (flip_theta p0) x y v with
        | Raise e =>
            (Raise e,
             {| fitters := fitters w ++ [{| param_cov := cov_x first |};
                                         {| param_cov := None |}];
                gen := gen w; warnings := warnings w |})
        | Ok second =>
            (Ok (if Rltb (total_abs_residual (fitted second) x y v)
                         (total_abs_residual (fitted first) x y v)
                 then (S (length (fitters w)), fitted second)
                 else (length (fitters w), fitted first)),
             {| fitters := fitters w ++ [{| param_cov := cov_x second |};
                                         {| param_cov := None |}];
                gen := gen w; warnings := warnings w |})
        end
    end.
Proof.
  unfold fit_twice, new_fitter, call_fitter. cbn [fitters gen warnings].
  destruct (lev_mar p0 x y v) as [first | e]; [| reflexivity].
  cbn [fitters gen warnings]. rewrite set_nth_middle.
  destruct (lev_mar (flip_theta p0) x y v) as [second | e].
  - cbn [fitters gen warnings]. rewrite !abs_residual_sum_total.
    rewrite <- app_assoc. cbn [app]. rewrite set_nth_middle.
    rewrite length_app. cbn [length]. rewrite Nat.add_1_r.
    destruct (Rltb _ _); reflexivity.
  - rewrite <- app_assoc. reflexivity.
Qed.

Lemma get_param_cov_first (F : list fitter_obj) (o o' : fitter_obj)
  (g : rng) (ws : list warning) :
  get_param_cov {| fitters := F ++ [o; o']; gen := g; warnings := ws |}
    (length F) = param_cov o.
Proof.
  unfold get_param_cov. cbn [fitters].
  rewrite nth_error_app2 by lia. rewrite Nat.sub_diag. reflexivity.
Qed.

Lemma get_param_cov_second (F : list fitter_obj) (o o' : fitter_obj)
  (g : rng) (ws : list warning) :
  get_param_cov {| fitters := F ++ [o; o']; gen := g; warnings := ws |}
    (S (length F)) = param_cov o'.
Proof.
  unfold get_param_cov. cbn [fitters].
  rewrite nth_error_app2 by lia.
  replace (S (length F) - length F)%nat with 1%nat by lia. reflexivity.
Qed.

(** A call that returns has run both fits. *)
Lemma fit_elliptical_powerlaw_Ok (w : world) (values : list float64)
  (x y v : list R) (p0 : pl_params) (bootstrap : bool) (niters : nat)
  (alpha : R) (res : fit_result) (w' : world) :
  finite_values values = Some v ->
  fit_elliptical_powerlaw w values x y p0 "LevMarq" bootstrap niters alpha
  = (Ok res, w') ->
  exists first second : lm_output,
    lev_mar p0 x y v = Ok first /\
    lev_mar (flip_theta p0) x y v = Ok second /\
    res_params res = res_fit_model res /\
    (res_fitter res, res_fit_model res)
    = (if Rltb (total_abs_residual (fitted second) x y v)
               (total_abs_residual (fitted first) x y v)
       then (S (length (fitters w)), fitted second)
       else (length (fitters w), fitted first)).
Proof.
  intros Hfinite Hrun. unfold fit_elliptical_powerlaw in Hrun.
  rewrite Hfinite in Hrun.
  change (String.eqb "LevMarq" "LevMarq") with true in Hrun. cbv iota in Hrun.
  rewrite fit_twice_spec in Hrun.
  destruct (lev_mar p0 x y v) as [first | e]; [| discriminate].
  destruct (lev_mar (flip_theta p0) x y v) as [second | e]; [| discriminate].
  exists first, second. split; [reflexivity |]. split; [reflexivity |].
  set (choice := if Rltb _ _ then _ else _) in *.
  destruct choice as [fitter fit_model].
  destruct bootstrap.
  - destruct (bootstrap_loop _ _ _ _ _ _ _ _) as [[cols | e] w2];
      [| discriminate].
    destruct (result_map _ _) as [stderrs | e]; [| discriminate].
    injection Hrun as <- _. split; reflexivity.
  - destruct (get_param_cov _ _); injection Hrun as <- _; split; reflexivity.
Qed.

(** C5: a call that returns has fitted the model from [p0] and from [p0]
    with theta replaced by [(theta + pi / 2) % pi], an angle between 0
    and pi; it returns whichever of the two fitted models has the smaller
    total absolute residual [sum |values - model(x, y)|], and the fit from
    [p0] when the two sums are equal. *)
Theorem fit_retains_lower_residual (w : world) (values : list float64)
  (x y v : list R) (p0 : pl_params) (bootstrap : bool) (niters : nat)
  (alpha : R) (res : fit_result) (w' : world) :
  finite_values values = Some v ->
  length x = length v -> length y = length v ->
  fit_elliptical_powerlaw w values x y p0 "LevMarq" bootstrap niters alpha
  = (Ok res, w') ->
  let shifted_start :=
    {| logamplitude := logamplitude p0;
       ellip_transf := ellip_transf p0;
       theta := py_fmod (theta p0 + PI / 2) PI;
       gamma := gamma p0 |} in
  0 <= theta shifted_start <= PI /\
  exists unshifted shifted : lm_output,
    lev_mar p0 x y v = Ok unshifted /\
    lev_mar shifted_start x y v = Ok shifted /\
    let resids := total_abs_residual (fitted unshifted) x y v in
    let resids_f := total_abs_residual (fitted shifted) x y v in
    res_params res = res_fit_model res /\
    total_abs_residual (res_fit_model res) x y v = Rmin resids resids_f /\
    (resids <= resids_f -> res_fit_model res = fitted unshifted) /\
    (resids_f < resids -> res_fit_model res = fitted shifted).
Proof.
  intros Hfinite _ _ Hrun shifted_start.
  split.
  { destruct (py_fmod_range (theta p0 + PI / 2) PI PI_RGT_0) as [[Hlo Hhi] _].
    cbn [theta shifted_start]. lra. }
  destruct (fit_elliptical_powerlaw_Ok w values x y v p0 bootstrap niters
              alpha res w' Hfinite Hrun)
    as (first & second & Hfirst & Hsecond & Hparams & Hchoice).
  exists first, second. split; [exact Hfirst |]. split; [exact Hsecond |].
  intros resids resids_f. split; [exact Hparams |].
  fold resids resids_f in Hchoice.
  assert (Hmodel : res_fit_model res
                   = if Rltb resids_f resids then fitted second
                     else fitted first).
  { destruct (Rltb resids_f resids); injection Hchoice as _ ->; reflexivity. }
  rewrite Hmodel. unfold Rltb, Rmin.
  destruct (Rlt_dec resids_f resids) as [Hlt | Hge];
    destruct (Rle_dec resids resids_f) as [Hle | Hgt];
    repeat split; intros; try reflexivity; try lra.
Qed.

(** C3: without bootstrap the standard errors are never those of the fit
    that is returned.  Both fits are run by the first fitter object, so
    its [fit_info] holds the covariance of the second (theta-flipped) run;
    the second fitter object is created and never called.  When the
    unflipped fit is kept, the errors are [sqrt(|diag|)] of the covariance
    of the flipped run; when the flipped fit is kept, the fitter returned is
    the one never called, its covariance is [None], and the errors are four
    NaNs with the warning, whatever covariance the solver computed. *)
Theorem covariance_errors_not_from_retained_fit (w : world) (x y v : list R)
  (p0 : pl_params) (niters : nat) (alpha : R) (first second : lm_output) :
  lev_mar p0 x y v = Ok first ->
  lev_mar (flip_theta p0) x y v = Ok second ->
  let out :=
    fit_elliptical_powerlaw w (map Fin v) x y p0 "LevMarq" false niters alpha in
  exists res : fit_result,
    fst out = Ok res /\
    if Rltb (total_abs_residual (fitted second) x y v)
            (total_abs_residual (fitted first) x y v) then
      res_fit_model res = fitted second /\
      res_stderrs res = repeat NaN 4 /\
      warnings (snd out) = warnings w ++ [CovarianceFailed]
    else
      res_fit_model res = fitted first /\
      match cov_x second with
      | Some cov =>
          res_stderrs res = map fsqrt (map fabs (np_diag cov)) /\
          warnings (snd out) = warnings w
      | None =>
          res_stderrs res = repeat NaN 4 /\
          warnings (snd out) = warnings w ++ [CovarianceFailed]
      end.
Proof.
  intros Hfirst Hsecond out. subst out.
  unfold fit_elliptical_powerlaw.
  rewrite finite_values_Fin.
  change (String.eqb "LevMarq" "LevMarq") with true. cbv iota.
  rewrite fit_twice_spec, Hfirst, Hsecond.
  destruct (Rltb _ _).
  - rewrite get_param_cov_second. cbn [param_cov].
    eexists. split; [reflexivity |]. repeat split.
  - rewrite get_param_cov_first. cbn [param_cov].
    destruct (cov_x second) as [cov |];
      eexists; (split; [reflexivity |]); repeat split.
Qed.

(** The bootstrap loop, when it runs to its end: one refit per drawn
    permutation, to the data with the rearranged residuals added to [y];
    one fitter per iteration, and no warning. *)
Lemma bootstrap_loop_spec (n : nat) (fit_model : pl_params)
  (x y v resid : list R) (w w' : world) (acc cols : list pl_params) :
  bootstrap_loop n fit_model x y v resid w acc = (Ok cols, w') ->
  exists fresh : list pl_params,
    cols = acc ++ fresh /\
    Forall2 (fun perm col =>
               exists out,
                 lev_mar fit_model x (map2 Rplus y (take resid perm)) v
                 = Ok out /\ col = fitted out)
            (draws (gen w) (length resid) n) fresh /\
    length (fitters w') = (length (fitters w) + n)%nat /\
    warnings w' = warnings w.
Proof.
  revert w acc. induction n as [| n IH]; intros w acc Hrun.
  - simpl in Hrun. injection Hrun as <- <-. exists []. rewrite app_nil_r.
    repeat split; [constructor | lia].
  - cbn [bootstrap_loop draws] in *. unfold new_fitter, draw_permutation in Hrun.
    cbn [gen fitters warnings] in Hrun.
    destruct (np_random_permutation (gen w) (length resid)) as [perm g'].
    unfold boot_data, call_fitter in Hrun. cbn [gen fitters warnings] in Hrun.
    destruct (lev_mar fit_model x (map2 Rplus y (take resid perm)) v)
      as [out | e] eqn:Hout; [| discriminate].
    apply IH in Hrun. destruct Hrun as (fresh & Hcols & Hall & Hf & Hw).
    cbn [gen fitters warnings] in *.
    exists (fitted out :: fresh). rewrite <- app_assoc in Hcols.
    split; [exact Hcols |]. split.
    + constructor; [exists out; split; [exact Hout | reflexivity] | exact Hall].
    + rewrite set_nth_length, length_app in Hf. cbn [length] in Hf.
      split; [lia | exact Hw].
Qed.

Lemma draws_length (g : rng) (n k : nat) : length (draws g n k) = k.
Proof.
  revert g. induction k as [| k IH]; intros g; [reflexivity |].
  simpl. destruct (np_random_permutation g n) as [perm g'].
  simpl. rewrite IH. reflexivity.
Qed.

Lemma take_permutation (resid : list R) (perm : list nat) :
  Permutation perm (seq 0 (length resid)) ->
  Permutation (take resid perm) resid.
Proof.
  intros Hperm. unfold take.
  apply Permutation_trans
    with (l' := map (fun i => nth i resid 0) (seq 0 (length resid))).
  - apply Permutation_map. exact Hperm.
  - replace (map (fun i => nth i resid 0) (seq 0 (length resid))) with resid;
      [apply Permutation_refl |].
    clear. induction resid as [| a l IH]; [reflexivity |].
    simpl. f_equal. rewrite <- seq_shift, map_map. exact IH.
Qed.

Lemma draws_permutations (g : rng) (n k : nat) :
  (forall g' m, Permutation (fst (np_random_permutation g' m)) (seq 0 m)) ->
  Forall (fun perm => Permutation perm (seq 0 n)) (draws g n k).
Proof.
  intros Hperm. revert g. induction k as [| k IH]; intros g; simpl.
  - constructor.
  - pose proof (Hperm g n) as Hp.
    destruct (np_random_permutation g n) as [perm g']. constructor.
    + exact Hp.
    + apply IH.
Qed.

(** The run with bootstrap, when it returns. *)
Lemma fit_bootstrap_Ok (w : world) (x y v : list R) (p0 : pl_params)
  (niters : nat) (alpha : R) (res : fit_result) (w' : world) :
  fit_elliptical_powerlaw w (map Fin v) x y p0 "LevMarq" true niters alpha
  = (Ok res, w') ->
  exists (w1 : world) (cols : list pl_params),
    gen w1 = gen w /\ warnings w1 = warnings w /\
    length (fitters w1) = (length (fitters w) + 2)%nat /\
    bootstrap_loop niters (res_fit_model res) x y v
      (residuals (res_fit_model res) x y v) w1 [] = (Ok cols, w') /\
    result_map (half_width alpha) (param_rows cols) = Ok (res_stderrs res).
Proof.
  intros Hrun. unfold fit_elliptical_powerlaw in Hrun.
  rewrite finite_values_Fin in Hrun.
  change (String.eqb "LevMarq" "LevMarq") with true in Hrun. cbv iota in Hrun.
  rewrite fit_twice_spec in Hrun.
  destruct (lev_mar p0 x y v) as [first | e]; [| discriminate].
  destruct (lev_mar (flip_theta p0) x y v) as [second | e]; [| discriminate].
  set (w1 := {| fitters := _; gen := gen w; warnings := warnings w |}) in *.
  set (choice := if Rltb _ _ then _ else _) in *.
  destruct choice as [fitter fit_model].
  destruct (bootstrap_loop niters fit_model x y v
              (residuals fit_model x y v) w1 []) as [[cols | e] w2] eqn:Hloop;
    [| discriminate].
  destruct (result_map (half_width alpha) (param_rows cols))
    as [stderrs | e] eqn:Hse; [| discriminate].
  injection Hrun as <- <-. cbn [res_fit_model res_stderrs].
  exists w1, cols. split; [reflexivity |]. split; [reflexivity |].
  split; [unfold w1; cbn [fitters]; rewrite length_app; reflexivity |].
  split; [exact Hloop | exact Hse].
Qed.

(** C1: what the bootstrap does, when the call returns.  In each of the
    [niters] iterations the residuals are rearranged by a random
    permutation, so each residual is used exactly once (a draw without
    replacement), and the rearranged residuals are added to the [y]
    coordinates while the fitted values stay as they were; the model is
    refitted to that data.  The standard error of each of the four
    parameters is half the difference between the percentiles of its
    refitted values at [100 (0.5 + alpha / 2)] and
    [100 (0.5 - alpha / 2)]. *)
Theorem bootstrap_permutes_residuals (w : world) (x y v : list R)
  (p0 : pl_params) (niters : nat) (alpha : R) (res : fit_result)
  (w' : world) :
  (forall g m, Permutation (fst (np_random_permutation g m)) (seq 0 m)) ->
  fit_elliptical_powerlaw w (map Fin v) x y p0 "LevMarq" true niters alpha
  = (Ok res, w') ->
  let fit_model := res_fit_model res in
  let resid := map2 Rminus v (map2 (evaluate fit_model) x y) in
  let perms := draws (gen w) (length resid) niters in
  length perms = niters /\
  Forall (fun perm => Permutation (take resid perm) resid) perms /\
  exists cols : list pl_params,
    Forall2 (fun perm col =>
               exists out,
                 lev_mar fit_model x (map2 Rplus y (take resid perm)) v
                 = Ok out /\ col = fitted out)
            perms cols /\
    Forall2 (fun row stderr =>
               exists lower upper,
                 np_percentile row (100 * (0.5 - alpha / 2)) = Ok lower /\
                 np_percentile row (100 * (0.5 + alpha / 2)) = Ok upper /\
                 stderr = fmul (Fin 0.5) (fsub upper lower))
            [map logamplitude cols; map ellip_transf cols;
             map theta cols; map gamma cols]
            (res_stderrs res).
Proof.
  intros Hperm Hrun fit_model resid perms.
  destruct (fit_bootstrap_Ok w x y v p0 niters alpha res w' Hrun)
    as (w1 & cols & Hgen & _ & _ & Hloop & Hse).
  fold fit_model in Hloop.
  change (residuals fit_model x y v) with resid in Hloop.
  apply bootstrap_loop_spec in Hloop.
  destruct Hloop as (fresh & Hcols & Hall & _ & _).
  cbn [app] in Hcols. subst fresh. rewrite Hgen in Hall. fold perms in Hall.
  split; [apply draws_length |].
  split.
  { pose proof (draws_permutations (gen w) (length resid) niters Hperm)
      as Hdraws.
    eapply Forall_impl; [| exact Hdraws].
    intros perm Hp. apply take_permutation. exact Hp. }
  exists cols. split; [exact Hall |].
  apply result_map_Ok in Hse. unfold param_rows in Hse.
  eapply Forall2_impl; [| exact Hse].
  intros row stderr Hrow. unfold half_width in Hrow.
  apply bind_Ok in Hrow. destruct Hrow as (lower & Hlower & Hrow).
  apply bind_Ok in Hrow. destruct Hrow as (upper & Hupper & Hrow).
  injection Hrow as <-. exists lower, upper. repeat split; assumption.
Qed.

(** X23: when [fit_elliptical_powerlaw] refuses.  A value that is not
    finite or a method other than ['LevMarq'] raises [ValueError] with
    the state as it was found: no fitter has been created and the random
    generator has not been used.  Finite data of fewer than four points
    raises the [TypeError] of the solver, with one fitter created.  With
    bootstrap and no iteration, the call raises [IndexError] once both
    fits have run, for [alpha] between 0 and 1. *)
Theorem fit_elliptical_powerlaw_refusals (w : world) (values : list float64)
  (x y v : list R) (p0 : pl_params) (fit_method : string) (bootstrap : bool)
  (niters : nat) (alpha : R) :
  (~ (Forall (fun a => isfinite a = true) values /\
      fit_method = "LevMarq"%string) ->
   fit_elliptical_powerlaw w values x y p0 fit_method bootstrap niters alpha
   = (Raise ValueError, w)) /\
  (length x = length v -> length y = length v -> (length v < 4)%nat ->
   fit_elliptical_powerlaw w (map Fin v) x y p0 "LevMarq" bootstrap niters
     alpha
   = (Raise TypeError,
      {| fitters := fitters w ++ [{| param_cov := None |}];
         gen := gen w; warnings := warnings w |})) /\
  (0 <= alpha <= 1 ->
   (exists first, lev_mar p0 x y v = Ok first) ->
   (exists second, lev_mar (flip_theta p0) x y v = Ok second) ->
   fst (fit_elliptical_powerlaw w (map Fin v) x y p0 "LevMarq" true 0 alpha)
   = Raise IndexError).
Proof.
  split; [| split].
  - intros Hbad. unfold fit_elliptical_powerlaw.
    pose proof (finite_values_Some values) as Hfin.
    destruct (finite_values values) as [u |]; [| reflexivity].
    destruct (String.eqb fit_method "LevMarq") eqn:Hmethod; [| reflexivity].
    exfalso. apply Hbad. split.
    + apply Hfin. eexists. reflexivity.
    + apply String.eqb_eq. exact Hmethod.
  - intros Hx Hy Hfew. unfold fit_elliptical_powerlaw.
    rewrite finite_values_Fin.
    change (String.eqb "LevMarq" "LevMarq") with true. cbv iota.
    rewrite fit_twice_spec.
    rewrite (lev_mar_few_points p0 x y v Hx Hy Hfew). reflexivity.
  - intros Halpha [first Hfirst] [second Hsecond].
    unfold fit_elliptical_powerlaw. rewrite finite_values_Fin.
    change (String.eqb "LevMarq" "LevMarq") with true. cbv iota.
    rewrite fit_twice_spec, Hfirst, Hsecond.
    set (choice := if Rltb _ _ then _ else _).
    destruct choice as [fitter fit_model].
    cbn [bootstrap_loop param_rows map result_map]. unfold half_width at 1.
    rewrite np_percentile_empty by lra. reflexivity.
Qed.

(** X24: the state a call that returns leaves.  Two fitters are created
    for the two fits, and one more per bootstrap iteration.  With
    [bootstrap] there is one standard error per parameter and no warning
    is issued; without it the random generator is not used, and the
    covariance warning is issued exactly when the fitter that is read
    holds no covariance, in which case the four standard errors are
    NaN. *)
Theorem fit_elliptical_powerlaw_state (w : world) (x y v : list R)
  (p0 : pl_params) (bootstrap : bool) (niters : nat) (alpha : R)
  (res : fit_result) (w' : world) :
  fit_elliptical_powerlaw w (map Fin v) x y p0 "LevMarq" bootstrap niters
    alpha
  = (Ok res, w') ->
  length (fitters w')
  = (length (fitters w) + 2 + if bootstrap then niters else 0)%nat /\
  if bootstrap then
    warnings w' = warnings w /\ length (res_stderrs res) = 4%nat
  else
    gen w' = gen w /\
    ((warnings w' = warnings w /\
      exists cov, get_param_cov w' (res_fitter res) = Some cov /\
                  res_stderrs res = map fsqrt (map fabs (np_diag cov))) \/
     (warnings w' = warnings w ++ [CovarianceFailed] /\
      get_param_cov w' (res_fitter res) = None /\
      res_stderrs res = [NaN; NaN; NaN; NaN])).
Proof.
  destruct bootstrap; intros Hrun.
  - destruct (fit_bootstrap_Ok w x y v p0 niters alpha res w' Hrun)
      as (w1 & cols & _ & Hw1 & Hf1 & Hloop & Hse).
    apply bootstrap_loop_spec in Hloop.
    destruct Hloop as (_ & _ & _ & Hf & Hw).
    split; [lia |]. split; [congruence |].
    apply result_map_Ok in Hse. apply Forall2_length in Hse.
    rewrite <- Hse. reflexivity.
  - unfold fit_elliptical_powerlaw in Hrun.
    rewrite finite_values_Fin in Hrun.
    change (String.eqb "LevMarq" "LevMarq") with true in Hrun.
    cbv iota in Hrun. rewrite fit_twice_spec in Hrun.
    destruct (lev_mar p0 x y v) as [first | e]; [| discriminate].
    destruct (lev_mar (flip_theta p0) x y v) as [second | e];
      [| discriminate].
    set (w1 := {| fitters := _; gen := gen w; warnings := warnings w |}) in *.
    assert (Hw1 : length (fitters w1) = (length (fitters w) + 2)%nat)
      by (unfold w1; cbn [fitters]; rewrite length_app; reflexivity).
    set (choice := if Rltb _ _ then _ else _) in *.
    destruct choice as [fitter fit_model].
    destruct (get_param_cov w1 fitter) as [cov |] eqn:Hcov;
      injection Hrun as <- <-; cbn [res_fitter res_stderrs].
    + split; [lia |]. split; [reflexivity |].
      left. split; [reflexivity |]. exists cov.
      split; [exact Hcov | reflexivity].
    + split; [cbn [warn fitters]; lia |]. split; [reflexivity |].
      right. split; [reflexivity |]. split; [exact Hcov | reflexivity].
Qed.

End EllipticalPowerlawProofs.

(** The example run: five points around the origin, the flat solver. *)
Lemma quarter_turn : py_fmod (0 + PI / 2) PI = PI / 2.
Proof.
  unfold py_fmod.
  assert (Hpi : 0 < PI) by apply PI_RGT_0.
  replace ((0 + PI / 2) / PI) with (1 / 2) by (field; lra).
  replace (Int_part (1 / 2)) with 0%Z
    by (apply Int_part_spec; simpl; lra).
  simpl. lra.
Qed.

Lemma flat_residual (m : pl_params) :
  gamma m = 0 ->
  total_abs_residual m five_x five_y five_values
  = 4 * Rabs (1 - logamplitude m) + Rabs (2 - logamplitude m).
Proof.
  intros Hgamma. unfold five_x, five_y, five_values.
  cbn [total_abs_residual].
  rewrite !(evaluate_flat m) by (assumption || (left; lra) || (right; lra)).
  lra.
Qed.

Lemma flat_fit_unshifted :
  lev_mar (Astropy := flat_solver) circular_guess five_x five_y five_values
  = Ok {| fitted := {| logamplitude := 0; ellip_transf := 0; theta := 0;
                       gamma := 0 |};
          cov_x := Some [[Fin 4; Fin 0; Fin 0; Fin 0];
                         [Fin 0; Fin 9; Fin 0; Fin 0];
                         [Fin 0; Fin 0; Fin 16; Fin 0];
                         [Fin 0; Fin 0; Fin 0; Fin 25]] |}.
Proof.
  cbn [lev_mar flat_solver]. unfold flat_fit.
  change (length five_values <? 4)%nat with false. cbv iota.
  cbn [theta ellip_transf circular_guess]. decide_reals. reflexivity.
Qed.

Lemma flat_fit_shifted :
  lev_mar (Astropy := flat_solver) (flip_theta circular_guess) five_x five_y
    five_values
  = Ok {| fitted := {| logamplitude := 1; ellip_transf := 0;
                       theta := PI / 2; gamma := 0 |};
          cov_x := Some [[Fin 4; Fin 0; Fin 0; Fin 0];
                         [Fin 0; Fin 9; Fin 0; Fin 0];
                         [Fin 0; Fin 0; Fin 16; Fin 0];
                         [Fin 0; Fin 0; Fin 0; Fin 25]] |}.
Proof.
  cbn [lev_mar flat_solver]. unfold flat_fit.
  change (length five_values <? 4)%nat with false. cbv iota.
  cbn [theta ellip_transf flip_theta circular_guess].
  rewrite quarter_turn.
  assert (Hpi : 0 < PI) by apply PI_RGT_0.
  decide_reals. reflexivity.
Qed.

Lemma flat_residuals_compared :
  Rltb (total_abs_residual
          {| logamplitude := 1; ellip_transf := 0; theta := PI / 2;
             gamma := 0 |} five_x five_y five_values)
       (total_abs_residual
          {| logamplitude := 0; ellip_transf := 0; theta := 0; gamma := 0 |}
          five_x five_y five_values)
  = true.
Proof.
  rewrite !flat_residual by reflexivity. cbn [logamplitude].
  apply Rltb_true.
  replace (1 - 1) with 0 by lra. replace (2 - 1) with 1 by lra.
  replace (1 - 0) with 1 by lra. replace (2 - 0) with 2 by lra.
  rewrite Rabs_R0, Rabs_R1, (Rabs_pos_eq 2) by lra. lra.
Qed.

Lemma fit_elliptical_powerlaw_refusals_example :
  length [1; 2] = length [1; 2] /\
  length [1; 1] = length [1; 2] /\
  (length [1; 2] < 4)%nat /\
  fit_elliptical_powerlaw (H := flat_solver) (H1 := first_entry_percentile)
    fresh_world (map Fin [1; 2]) [1; 2] [1; 1] circular_guess "LevMarq"
    false 0 0.6827
  = (Raise TypeError,
     {| fitters := fitters fresh_world ++ [{| param_cov := None |}];
        gen := gen fresh_world; warnings := warnings fresh_world |}).
Proof.
  assert (Hx : length [1; 2] = length [1; 2]) by reflexivity.
  assert (Hy : length [1; 1] = length [1; 2]) by reflexivity.
  assert (Hfew : (length [1; 2] < 4)%nat) by (simpl; lia).
  split; [exact Hx |]. split; [exact Hy |]. split; [exact Hfew |].
  exact (proj1 (proj2 (fit_elliptical_powerlaw_refusals (H := flat_solver)
                         (H1 := first_entry_percentile) fresh_world []
                         [1; 2] [1; 1] [1; 2] circular_guess "LevMarq" false
                         0 0.6827)) Hx Hy Hfew).
Defined.

Lemma fit_retains_lower_residual_example :
  finite_values (map Fin five_values) = Some five_values /\
  length five_x = length five_values /\
  length five_y = length five_values /\
  exists (res : fit_result) (w' : world),
    fit_elliptical_powerlaw (H := flat_solver) (H1 := first_entry_percentile)
      fresh_world (map Fin five_values) five_x five_y circular_guess
      "LevMarq" false 0 0.6827
    = (Ok res, w') /\
    res_fit_model res
    = {| logamplitude := 1; ellip_transf := 0; theta := PI / 2; gamma := 0 |}
    /\ total_abs_residual (res_fit_model res) five_x five_y five_values
       = Rmin (4 * Rabs (1 - 0) + Rabs (2 - 0))
              (4 * Rabs (1 - 1) + Rabs (2 - 1)).
Proof.
  assert (Hfinite : finite_values (map Fin five_values) = Some five_values)
    by apply finite_values_Fin.
  assert (Hx : length five_x = length five_values) by reflexivity.
  assert (Hy : length five_y = length five_values) by reflexivity.
  split; [exact Hfinite |]. split; [exact Hx |]. split; [exact Hy |].
  assert (Hrun : exists res w',
            fit_elliptical_powerlaw (H := flat_solver)
              (H1 := first_entry_percentile) fresh_world
              (map Fin five_values) five_x five_y circular_guess "LevMarq"
              false 0 0.6827 = (Ok res, w')).
  { unfold fit_elliptical_powerlaw. rewrite Hfinite.
    change (String.eqb "LevMarq" "LevMarq") with true. cbv iota.
    rewrite fit_twice_spec, flat_fit_unshifted, flat_fit_shifted.
    cbn [fitted]. rewrite flat_residuals_compared.
    eexists. eexists. reflexivity. }
  destruct Hrun as (res & w' & Hrun). exists res, w'.
  split; [exact Hrun |].
  destruct (fit_retains_lower_residual (H := flat_solver)
              (H1 := first_entry_percentile) fresh_world
              (map Fin five_values) five_x five_y five_values circular_guess
              false 0 0.6827 res w' Hfinite Hx Hy Hrun)
    as (_ & unshifted & shifted & Hu & Hs & _ & Hmin & _ & Hlower).
  change {| logamplitude := logamplitude circular_guess;
            ellip_transf := ellip_transf circular_guess;
            theta := py_fmod (theta circular_guess + PI / 2) PI;
            gamma := gamma circular_guess |}
    with (flip_theta circular_guess) in Hs.
  rewrite flat_fit_unshifted in Hu. rewrite flat_fit_shifted in Hs.
  injection Hu as <-. injection Hs as <-. cbn [fitted] in *.
  split.
  - apply Hlower. apply Rltb_spec. exact flat_residuals_compared.
  - rewrite Hmin, !flat_residual by reflexivity. reflexivity.
Defined.

Lemma covariance_errors_not_from_retained_fit_example :
  let first :=
    {| fitted := {| logamplitude := 0; ellip_transf := 0; theta := 0;
                    gamma := 0 |};
       cov_x := Some [[Fin 4; Fin 0; Fin 0; Fin 0];
                      [Fin 0; Fin 9; Fin 0; Fin 0];
                      [Fin 0; Fin 0; Fin 16; Fin 0];
                      [Fin 0; Fin 0; Fin 0; Fin 25]] |} in
  let second :=
    {| fitted := {| logamplitude := 1; ellip_transf := 0; theta := PI / 2;
                    gamma := 0 |};
       cov_x := Some [[Fin 4; Fin 0; Fin 0; Fin 0];
                      [Fin 0; Fin 9; Fin 0; Fin 0];
                      [Fin 0; Fin 0; Fin 16; Fin 0];
                      [Fin 0; Fin 0; Fin 0; Fin 25]] |} in
  let out :=
    fit_elliptical_powerlaw (H := flat_solver) (H1 := first_entry_percentile)
      fresh_world (map Fin five_values) five_x five_y circular_guess
      "LevMarq" false 0 0.6827 in
  lev_mar (Astropy := flat_solver) circular_guess five_x five_y five_values
  = Ok first /\
  lev_mar (Astropy := flat_solver) (flip_theta circular_guess) five_x five_y
    five_values = Ok second /\
  exists res : fit_result,
    fst out = Ok res /\
    res_fit_model res = fitted second /\
    res_stderrs res = [NaN; NaN; NaN; NaN] /\
    warnings (snd out) = [CovarianceFailed].
Proof.
  intros first second out.
  split; [exact flat_fit_unshifted |]. split; [exact flat_fit_shifted |].
  destruct (covariance_errors_not_from_retained_fit (H := flat_solver)
              (H1 := first_entry_percentile) fresh_world five_x five_y
              five_values circular_guess 0 0.6827 first second
              flat_fit_unshifted flat_fit_shifted)
    as (res & Hres & Hcase).
  cbn [fitted first second] in Hcase.
  rewrite flat_residuals_compared in Hcase.
  destruct Hcase as (Hmodel & Hse & Hwarn).
  exists res. split; [exact Hres |]. split; [exact Hmodel |].
  split; [exact Hse | exact Hwarn].
Defined.

Lemma bootstrap_permutes_residuals_example :
  (forall (g : unit) (m : nat),
     Permutation
       (fst (np_random_permutation (NumpyRandom := reversing_generator) g m))
       (seq 0 m)) /\
  exists (res : fit_result) (w' : world),
    fit_elliptical_powerlaw (H := flat_solver) (H1 := first_entry_percentile)
      fresh_world (map Fin five_values) five_x five_y circular_guess
      "LevMarq" true 2 0.6827
    = (Ok res, w') /\
    draws (H0 := reversing_generator) tt 5 2
    = [[4; 3; 2; 1; 0]; [4; 3; 2; 1; 0]]%nat /\
    Forall (fun perm =>
              Permutation
                (take (map2 Rminus five_values
                         (map2 (evaluate (res_fit_model res)) five_x five_y))
                      perm)
                (map2 Rminus five_values
                   (map2 (evaluate (res_fit_model res)) five_x five_y)))
           [[4; 3; 2; 1; 0]; [4; 3; 2; 1; 0]]%nat /\
    length (res_stderrs res) = 4%nat.
Proof.
  assert (Hperm : forall (g : unit) (m : nat),
            Permutation
              (fst (np_random_permutation (NumpyRandom := reversing_generator)
                      g m)) (seq 0 m))
    by (intros g m; apply Permutation_sym, Permutation_rev).
  split; [exact Hperm |].
  assert (Hrun : exists res w',
            fit_elliptical_powerlaw (H := flat_solver)
              (H1 := first_entry_percentile) fresh_world
              (map Fin five_values) five_x five_y circular_guess "LevMarq"
              true 2 0.6827 = (Ok res, w')).
  { unfold fit_elliptical_powerlaw. rewrite finite_values_Fin.
    change (String.eqb "LevMarq" "LevMarq") with true. cbv iota.
    rewrite fit_twice_spec, flat_fit_unshifted, flat_fit_shifted.
    cbn [fitted]. rewrite flat_residuals_compared.
    eexists. eexists. reflexivity. }
  destruct Hrun as (res & w' & Hrun). exists res, w'.
  split; [exact Hrun |].
  destruct (bootstrap_permutes_residuals (H := flat_solver)
              (H1 := first_entry_percentile) fresh_world five_x five_y
              five_values circular_guess 2 0.6827 res w' Hperm Hrun)
    as (_ & Hall & cols & _ & Hse).
  assert (Hlen : length (map2 Rminus five_values
                           (map2 (evaluate (res_fit_model res)) five_x five_y))
                 = 5%nat) by reflexivity.
  rewrite Hlen in Hall.
  split; [reflexivity |]. split; [exact Hall |].
  apply Forall2_length in Hse. rewrite <- Hse. reflexivity.
Defined.

Lemma fit_elliptical_powerlaw_state_example :
  exists (res : fit_result) (w' : world),
    fit_elliptical_powerlaw (H := flat_solver) (H1 := first_entry_percentile)
      fresh_world (map Fin five_values) five_x five_y circular_guess
      "LevMarq" true 2 0.6827
    = (Ok res, w') /\
    length (fitters w') = 4%nat /\
    warnings w' = [] /\
    length (res_stderrs res) = 4%nat.
Proof.
  assert (Hrun : exists res w',
            fit_elliptical_powerlaw (H := flat_solver)
              (H1 := first_entry_percentile) fresh_world
              (map Fin five_values) five_x five_y circular_guess "LevMarq"
              true 2 0.6827 = (Ok res, w')).
  { unfold fit_elliptical_powerlaw. rewrite finite_values_Fin.
    change (String.eqb "LevMarq" "LevMarq") with true. cbv iota.
    rewrite fit_twice_spec, flat_fit_unshifted, flat_fit_shifted.
    cbn [fitted]. rewrite flat_residuals_compared.
    eexists. eexists. reflexivity. }
  destruct Hrun as (res & w' & Hrun). exists res, w'.
  split; [exact Hrun |].
  destruct (fit_elliptical_powerlaw_state (H := flat_solver)
              (H1 := first_entry_percentile) fresh_world five_x five_y
              five_values circular_guess true 2 0.6827 res w' Hrun)
    as (Hfitters & Hwarn & Hse).
  split; [exact Hfitters |]. split; [exact Hwarn | exact Hse].
Defined.

(** ** Floats: order and [np.nanmin] *)

Lemma flt_irrefl (a : float64) : flt a a = false.
Proof. destruct a; simpl; try reflexivity. apply Rltb_false. lra. Qed.

Lemma flt_trans (a b c : float64) :
  flt a b = true -> flt b c = true -> flt a c = true.
Proof.
  destruct a, b, c; simpl; intros Hab Hbc; try discriminate; try reflexivity.
  apply Rltb_spec in Hab. apply Rltb_spec in Hbc. apply Rltb_true. lra.
Qed.

Lemma fmin_not_nan (a b : float64) :
  isnan (fmin a b) = isnan a && isnan b.
Proof.
  unfold fmin. destruct (isnan a) eqn:Ha; [reflexivity |].
  destruct (isnan b) eqn:Hb; [exact Ha |].
  destruct (flt b a); simpl; assumption.
Qed.

(** What folding [np.fmin] over a list does to an accumulator that is not
    NaN: the result is not NaN, it is the accumulator or an entry of the
    list, and neither the accumulator nor any entry that is not NaN lies
    below it. *)
Lemma fold_fmin_min (l : list float64) (acc : float64) :
  isnan acc = false ->
  let v := fold_left fmin l acc in
  isnan v = false /\
  (v = acc \/ In v l) /\
  flt acc v = false /\
  forall b, In b l -> isnan b = false -> flt b v = false.
Proof.
  revert acc. induction l as [| a l IH]; intros acc Hacc; simpl.
  - repeat split; try assumption.
    + left. reflexivity.
    + apply flt_irrefl.
    + intros b [].
  - assert (Hstep : isnan (fmin acc a) = false)
      by (rewrite fmin_not_nan, Hacc; reflexivity).
    destruct (IH (fmin acc a) Hstep) as (Hv & Hin & Hlow & Hall).
    set (v := fold_left fmin l (fmin acc a)) in *.
    assert (Hcases :
      (fmin acc a = acc /\ (isnan a = true \/ flt a acc = false))
      \/ (fmin acc a = a /\ isnan a = false /\ flt a acc = true)).
    { unfold fmin. rewrite Hacc. destruct (isnan a) eqn:Ha.
      - left. split; [reflexivity | left; reflexivity].
      - destruct (flt a acc) eqn:Hlt.
        + right. repeat split.
        + left. split; [reflexivity | right; reflexivity]. }
    split; [exact Hv |]. split.
    { destruct Hin as [Hin | Hin]; [| right; right; exact Hin].
      destruct Hcases as [[Heq _] | [Heq _]]; rewrite Heq in Hin.
      - left. exact Hin.
      - right. left. symmetry. exact Hin. }
    split.
    { destruct Hcases as [[Heq _] | (Heq & Ha & Hlt)]; rewrite Heq in Hlow.
      - exact Hlow.
      - destruct (flt acc v) eqn:Hav; [| reflexivity].
        rewrite (flt_trans _ _ _ Hlt Hav) in Hlow. discriminate. }
    intros b [<- | Hb] Hnan; [| apply Hall; assumption].
    destruct Hcases as [[Heq [Ha | Hge]] | (Heq & Ha & Hlt)];
      rewrite Heq in Hlow.
    + congruence.
    + destruct (flt a v) eqn:Hav; [| reflexivity].
      destruct (flt v acc) eqn:Hva.
      * rewrite (flt_trans _ _ _ Hav Hva) in Hge. discriminate.
      * (* v is neither below nor above [acc], and [a] is below [v] *)
        destruct a, v, acc; simpl in *; try discriminate; try reflexivity.
        apply Rltb_spec in Hav.
        destruct (Rlt_dec r1 r0) as [H1 | H1];
          [rewrite (Rltb_true _ _ H1) in Hlow; discriminate |].
        destruct (Rlt_dec r0 r1) as [H2 | H2];
          [rewrite (Rltb_true _ _ H2) in Hva; discriminate |].
        destruct (Rlt_dec r r1) as [H3 | H3];
          [rewrite (Rltb_true _ _ H3) in Hge; discriminate |].
        lra.
    + exact Hlow.
Qed.

Lemma fold_fmin_nan (l : list float64) :
  Forall (fun a => isnan a = true) l -> fold_left fmin l NaN = NaN.
Proof.
  induction 1 as [| a l Ha Hl IH]; simpl; [reflexivity |].
  destruct a; try discriminate. exact IH.
Qed.

Lemma np_nanmin_least (l : list float64) :
  Exists (fun a => isnan a = false) l ->
  exists v, np_nanmin l = Ok v /\ least_non_nan l v.
Proof.
  induction l as [| a l IH]; intros Hex; [inversion Hex |].
  destruct (isnan a) eqn:Ha.
  - assert (Hex' : Exists (fun a => isnan a = false) l)
      by (inversion Hex; [congruence | assumption]).
    destruct (IH Hex') as (v & Hv & Hnan & Hin & Hall).
    exists v. destruct a; try discriminate. split.
    + destruct l as [| b l]; [inversion Hex' |]. simpl in *. exact Hv.
    + split; [exact Hnan |]. split; [right; exact Hin |].
      intros b [<- | Hb] Hb'; [discriminate | apply Hall; assumption].
  - exists (fold_left fmin l a). split; [reflexivity |].
    destruct (fold_fmin_min l a Ha) as (Hv & Hin & Hlow & Hall).
    split; [exact Hv |]. split.
    + destruct Hin as [-> | Hin]; [left; reflexivity | right; exact Hin].
    + intros b [<- | Hb] Hb'; [exact Hlow | apply Hall; assumption].
Qed.

Lemma np_nanmin_all_nan (l : list float64) :
  l <> [] -> Forall (fun a => isnan a = true) l -> np_nanmin l = Ok NaN.
Proof.
  intros Hl Hall. destruct l as [| a l]; [contradiction |].
  inversion Hall as [| ? ? Ha Hl']; subst. destruct a; try discriminate.
  simpl. rewrite (fold_fmin_nan _ Hl'). reflexivity.
Qed.

Lemma all_nan_or_not (l : list float64) :
  Forall (fun a => isnan a = true) l \/ Exists (fun a => isnan a = false) l.
Proof.
  induction l as [| a l [IH | IH]].
  - left. constructor.
  - destruct (isnan a) eqn:Ha.
    + left. constructor; assumption.
    + right. apply Exists_cons_hd. exact Ha.
  - right. apply Exists_cons_tl. exact IH.
Qed.

Lemma replace_nan_NaN (l : list float64) : replace_nan NaN l = l.
Proof.
  unfold replace_nan. induction l as [| a l IH]; simpl; [reflexivity |].
  rewrite IH. destruct a; reflexivity.
Qed.

Lemma replace_nan_clean (v : float64) (l : list float64) :
  isnan v = false -> Forall (fun a => isnan a = false) (replace_nan v l).
Proof.
  intros Hv. unfold replace_nan. apply Forall_forall. intros a Ha.
  apply in_map_iff in Ha. destruct Ha as (b & <- & _).
  destruct (isnan b) eqn:Hb; assumption.
Qed.

Lemma replace_nan_id (v : float64) (l : list float64) :
  Forall (fun a => isnan a = false) l -> replace_nan v l = l.
Proof.
  unfold replace_nan. induction 1 as [| a l Ha Hl IH]; simpl; [reflexivity |].
  rewrite Ha, IH. reflexivity.
Qed.

(** Cleaning a cleaned array changes nothing. *)
Lemma replace_nan_twice (l : list float64) (v v' : float64) :
  np_nanmin l = Ok v ->
  np_nanmin (replace_nan v l) = Ok v' ->
  replace_nan v' (replace_nan v l) = replace_nan v l.
Proof.
  intros Hv Hv'.
  assert (Hl : l <> []) by (intros ->; discriminate).
  destruct (all_nan_or_not l) as [Hall | Hex].
  - rewrite (np_nanmin_all_nan _ Hl Hall) in Hv. injection Hv as <-.
    rewrite replace_nan_NaN in *.
    rewrite (np_nanmin_all_nan _ Hl Hall) in Hv'. injection Hv' as <-.
    apply replace_nan_NaN.
  - destruct (np_nanmin_least _ Hex) as (u & Hu & Hnan & _).
    rewrite Hu in Hv. injection Hv as <-.
    apply replace_nan_id. apply replace_nan_clean. exact Hnan.
Qed.

(** ** [MVC.__init__] *)

Lemma store_set_eq (s : store) (l : loc) (a : ndarray float64) :
  store_set s l a l = a.
Proof. unfold store_set. rewrite Nat.eqb_refl. reflexivity. Qed.

Lemma store_set_neq (s : store) (l l' : loc) (a : ndarray float64) :
  l' <> l -> store_set s l a l' = s l'.
Proof.
  intros Hl. unfold store_set. apply Nat.eqb_neq in Hl. rewrite Hl.
  reflexivity.
Qed.

Lemma cleaned_at_nil (s : store) : cleaned_at [] s s.
Proof.
  intros a. split; [intros [] | reflexivity].
Qed.

Lemma np_nanmin_nonempty (l : list float64) :
  l <> [] -> exists v, np_nanmin l = Ok v.
Proof.
  destruct l as [| a l]; [contradiction |]. intros _. eexists. reflexivity.
Qed.

Lemma clean_nans_step (done : list loc) (s s' : store) (l : loc) :
  cleaned_at done s s' ->
  data (s l) <> [] ->
  exists s'', clean_nans s' l = Ok s'' /\ cleaned_at (l :: done) s s''.
Proof.
  intros Hinv Hl. unfold clean_nans.
  destruct (in_dec Nat.eq_dec l done) as [Hin | Hnotin].
  - destruct (proj1 (Hinv l) Hin) as (v & Hv & Hs').
    assert (Hne : data (s' l) <> []).
    { rewrite Hs'. simpl. unfold replace_nan.
      destruct (data (s l)); [contradiction | discriminate]. }
    destruct (np_nanmin_nonempty _ Hne) as (v' & Hv').
    rewrite Hv'. simpl. eexists. split; [reflexivity |].
    assert (Hsame : {| shape := shape (s' l);
                       data := replace_nan v' (data (s' l)) |} = s' l).
    { rewrite Hs' in Hv' |- *. simpl in *.
      rewrite (replace_nan_twice _ _ _ Hv Hv'). reflexivity. }
    rewrite Hsame. intros a. split.
    + intros Ha. destruct (Nat.eq_dec a l) as [-> | Hal].
      * rewrite store_set_eq. exists v. split; assumption.
      * rewrite store_set_neq by assumption.
        apply (proj1 (Hinv a)).
        destruct Ha as [Ha | Ha]; [congruence | exact Ha].
    + intros Ha. rewrite store_set_neq
        by (intros ->; apply Ha; left; reflexivity).
      apply (proj2 (Hinv a)). intros Hd. apply Ha. right. exact Hd.
  - rewrite (proj2 (Hinv l) Hnotin).
    destruct (np_nanmin_nonempty _ Hl) as (v & Hv).
    rewrite Hv. simpl. eexists. split; [reflexivity |].
    intros a. split.
    + intros Ha. destruct (Nat.eq_dec a l) as [-> | Hal].
      * rewrite store_set_eq. exists v. split; [exact Hv | reflexivity].
      * rewrite store_set_neq by assumption.
        apply (proj1 (Hinv a)).
        destruct Ha as [Ha | Ha]; [congruence | exact Ha].
    + intros Ha. rewrite store_set_neq
        by (intros ->; apply Ha; left; reflexivity).
      apply (proj2 (Hinv a)). intros Hd. apply Ha. right. exact Hd.
Qed.

Lemma cleaned_at_shape (done : list loc) (s s' : store) (a : loc) :
  cleaned_at done s s' -> shape (s' a) = shape (s a).
Proof.
  intros Hinv. destruct (in_dec Nat.eq_dec a done) as [Hin | Hnotin].
  - destruct (proj1 (Hinv a) Hin) as (v & _ & ->). reflexivity.
  - rewrite (proj2 (Hinv a) Hnotin). reflexivity.
Qed.

Lemma shape_eqb_spec (a b : list nat) : shape_eqb a b = true <-> a = b.
Proof.
  unfold shape_eqb. destruct (list_eq_dec Nat.eq_dec a b); split;
    intros; try assumption; try reflexivity; try discriminate; contradiction.
Qed.

(** [MVC.__init__] on three non-empty arrays: the three arrays are cleaned
    in the store, and then the shapes decide the outcome. *)
Lemma MVC_init_spec {H : Type} (s : store)
  (centroid moment0 linewidth : data_input H) (hdr : option H)
  (c m l : loc) (h : option H) (ws : list warning) :
  load_inputs centroid moment0 linewidth hdr = Ok (c, h, m, l, ws) ->
  data (s c) <> [] -> data (s m) <> [] -> data (s l) <> [] ->
  exists s' : store,
    cleaned_at [l; m; c] s s' /\
    MVC_init s centroid moment0 linewidth hdr
    = (if shape_eqb (shape (s c)) (shape (s m))
          && shape_eqb (shape (s c)) (shape (s l))
       then Ok {| _centroid := c; _moment0 := m; _linewidth := l;
                  header := h; mvc_shape := shape (s c) |}
       else Raise IndexError, s').
Proof.
  intros Hload Hc Hm Hl. unfold MVC_init. rewrite Hload.
  destruct (clean_nans_step [] s s c (cleaned_at_nil s) Hc)
    as (s1 & Hs1 & Hinv1).
  rewrite Hs1.
  destruct (clean_nans_step _ s s1 m Hinv1 Hm) as (s2 & Hs2 & Hinv2).
  rewrite Hs2.
  destruct (clean_nans_step _ s s2 l Hinv2 Hl) as (s3 & Hs3 & Hinv3).
  rewrite Hs3.
  exists s3. split; [exact Hinv3 |].
  rewrite !(cleaned_at_shape _ _ _ _ Hinv3).
  destruct (shape_eqb (shape (s c)) (shape (s m)));
    destruct (shape_eqb (shape (s c)) (shape (s l))); reflexivity.
Qed.

Lemma cleaned_at_entry (done : list loc) (s s' : store) (a : loc) :
  cleaned_at done s s' -> In a done ->
  shape (s' a) = shape (s a) /\
  exists v,
    np_nanmin (data (s a)) = Ok v /\
    data (s' a) = replace_nan v (data (s a)) /\
    (Exists (fun x => isnan x = false) (data (s a)) ->
     least_non_nan (data (s a)) v /\
     Forall (fun x => isnan x = false) (data (s' a))).
Proof.
  intros Hinv Hin. destruct (proj1 (Hinv a) Hin) as (v & Hv & Hs').
  split; [rewrite Hs'; reflexivity |].
  exists v. split; [exact Hv |]. split; [rewrite Hs'; reflexivity |].
  intros Hex. destruct (np_nanmin_least _ Hex) as (u & Hu & Hleast).
  rewrite Hu in Hv. injection Hv as <-. split; [exact Hleast |].
  rewrite Hs'. simpl. apply replace_nan_clean. apply Hleast.
Qed.

(** C7 (as amended): for three non-empty arrays, [MVC.__init__] replaces
    the NaNs of each array in place by the array's [np.nanmin], before the
    shape check and whatever its outcome, and touches no other array.  When
    the array has an entry that is not NaN, the replacement value is the
    least such entry and no NaN is left for [compute_pspec]; a shape
    mismatch then raises the error with the arrays already changed. *)
Theorem MVC_init_cleans_in_place {H : Type} (s : store)
  (centroid moment0 linewidth : data_input H) (hdr : option H)
  (c m l : loc) (h : option H) (ws : list warning) :
  load_inputs centroid moment0 linewidth hdr = Ok (c, h, m, l, ws) ->
  data (s c) <> [] -> data (s m) <> [] -> data (s l) <> [] ->
  let out := MVC_init s centroid moment0 linewidth hdr in
  let s' := snd out in
  (fst out = Raise IndexError \/
   exists self, fst out = Ok self /\ _centroid self = c /\
                _moment0 self = m /\ _linewidth self = l) /\
  (~ (shape (s c) = shape (s m) /\ shape (s c) = shape (s l)) ->
   fst out = Raise IndexError) /\
  (forall a : loc, a = c \/ a = m \/ a = l ->
     shape (s' a) = shape (s a) /\
     exists v,
       np_nanmin (data (s a)) = Ok v /\
       data (s' a) = replace_nan v (data (s a)) /\
       (Exists (fun x => isnan x = false) (data (s a)) ->
        least_non_nan (data (s a)) v /\
        Forall (fun x => isnan x = false) (data (s' a)))) /\
  (forall a : loc, a <> c -> a <> m -> a <> l -> s' a = s a).
Proof.
  intros Hload Hc Hm Hl out s'.
  destruct (MVC_init_spec s _ _ _ _ _ _ _ _ _ Hload Hc Hm Hl)
    as (s3 & Hinv & Hrun).
  subst s' out. rewrite Hrun. cbn [fst snd].
  split.
  { destruct (shape_eqb _ _ && shape_eqb _ _);
      [right; eexists; repeat split | left; reflexivity]. }
  split.
  { intros Hdiff.
    destruct (shape_eqb (shape (s c)) (shape (s m))) eqn:H1;
      destruct (shape_eqb (shape (s c)) (shape (s l))) eqn:H2;
      try reflexivity.
    exfalso. apply Hdiff. split; apply shape_eqb_spec; assumption. }
  split.
  { intros a Ha. apply (cleaned_at_entry _ _ _ a Hinv).
    simpl. destruct Ha as [-> | [-> | ->]]; tauto. }
  intros a Hac Ham Hal. apply (proj2 (Hinv a)).
  simpl. intros [E | [E | [E | []]]]; congruence.
Qed.

Lemma clean_nans_shape (s s' : store) (l a : loc) :
  clean_nans s l = Ok s' -> shape (s' a) = shape (s a).
Proof.
  unfold clean_nans. intros Hrun. apply bind_Ok in Hrun.
  destruct Hrun as (v & _ & Hs'). injection Hs' as <-.
  destruct (Nat.eq_dec a l) as [-> | Hal].
  - rewrite store_set_eq. reflexivity.
  - rewrite store_set_neq by assumption. reflexivity.
Qed.

Lemma clean_nans_error (s : store) (l : loc) (e : exn) :
  clean_nans s l = Raise e -> e = ValueError.
Proof.
  unfold clean_nans, np_nanmin. destruct (data (s l)); simpl; intros Hrun.
  - injection Hrun as <-. reflexivity.
  - discriminate.
Qed.

(** C8 (as amended): with three non-empty arrays, [MVC.__init__] raises
    the shape-mismatch error exactly when the shapes are not all the same,
    and succeeds otherwise; and whatever the arrays, identical shapes never
    raise that error. *)
Theorem MVC_init_shape_check {H : Type} (s : store)
  (centroid moment0 linewidth : data_input H) (hdr : option H)
  (c m l : loc) (h : option H) (ws : list warning) :
  load_inputs centroid moment0 linewidth hdr = Ok (c, h, m, l, ws) ->
  let out := MVC_init s centroid moment0 linewidth hdr in
  let same_shape :=
    shape (s c) = shape (s m) /\ shape (s c) = shape (s l) in
  (same_shape -> fst out <> Raise IndexError) /\
  (data (s c) <> [] -> data (s m) <> [] -> data (s l) <> [] ->
   (same_shape ->
    exists self, fst out = Ok self /\ mvc_shape self = shape (s c)) /\
   (~ same_shape -> fst out = Raise IndexError)).
Proof.
  intros Hload out same_shape. split.
  - intros [Hcm Hcl]. subst out. unfold MVC_init. rewrite Hload.
    destruct (clean_nans s c) as [s1 | e1] eqn:H1;
      [| apply clean_nans_error in H1; subst; discriminate].
    destruct (clean_nans s1 m) as [s2 | e2] eqn:H2;
      [| apply clean_nans_error in H2; subst; discriminate].
    destruct (clean_nans s2 l) as [s3 | e3] eqn:H3;
      [| apply clean_nans_error in H3; subst; discriminate].
    assert (Hshape : forall a, shape (s3 a) = shape (s a)).
    { intros a. rewrite (clean_nans_shape _ _ _ a H3).
      rewrite (clean_nans_shape _ _ _ a H2).
      apply (clean_nans_shape _ _ _ a H1). }
    rewrite !Hshape.
    rewrite (proj2 (shape_eqb_spec _ _) Hcm), (proj2 (shape_eqb_spec _ _) Hcl).
    discriminate.
  - intros Hc Hm Hl.
    destruct (MVC_init_spec s _ _ _ _ _ _ _ _ _ Hload Hc Hm Hl)
    as (s3 & Hinv & Hrun).
    subst out. rewrite Hrun. cbn [fst]. split.
    + intros [Hcm Hcl].
      rewrite (proj2 (shape_eqb_spec _ _) Hcm).
      rewrite (proj2 (shape_eqb_spec _ _) Hcl).
      eexists. split; reflexivity.
    + intros Hdiff.
      destruct (shape_eqb (shape (s c)) (shape (s m))) eqn:H1;
        destruct (shape_eqb (shape (s c)) (shape (s l))) eqn:H2;
        try reflexivity.
      exfalso. apply Hdiff. split; apply shape_eqb_spec; assumption.
Qed.

Lemma MVC_init_cleans_in_place_example :
  let out := MVC_init three_maps (BareArray 0%nat) (BareArray 1%nat)
               (BareArray 2%nat) (None : option unit) in
  load_inputs (BareArray 0%nat) (BareArray 1%nat) (BareArray 2%nat)
    (None : option unit)
  = Ok (0%nat, None, 1%nat, 2%nat, [NoHeaderLoaded]) /\
  data (three_maps 0%nat) <> [] /\
  data (three_maps 1%nat) <> [] /\
  data (three_maps 2%nat) <> [] /\
  fst out = Raise IndexError /\
  Forall (fun x => isnan x = false) (data (snd out 0%nat)).
Proof.
  intros out.
  assert (Hload : load_inputs (BareArray 0%nat) (BareArray 1%nat)
                    (BareArray 2%nat) (None : option unit)
                  = Ok (0%nat, None, 1%nat, 2%nat, [NoHeaderLoaded]))
    by reflexivity.
  assert (H0 : data (three_maps 0%nat) <> []) by discriminate.
  assert (H1 : data (three_maps 1%nat) <> []) by discriminate.
  assert (H2 : data (three_maps 2%nat) <> []) by discriminate.
  destruct (MVC_init_cleans_in_place three_maps _ _ _ _ _ _ _ _ _
              Hload H0 H1 H2) as (_ & Hfail & Hclean & _).
  repeat (split; [assumption |]).
  split.
  - apply Hfail. intros [_ Hshape]. discriminate Hshape.
  - destruct (Hclean 0%nat (or_introl eq_refl)) as (_ & v & _ & _ & Hex).
    apply Hex. apply Exists_cons_tl, Exists_cons_hd. reflexivity.
Defined.

(** C7 as stated fails: a map of NaNs only is left as it is ([np.nanmin]
    of it is NaN), construction succeeds, and [compute_pspec] reads the
    NaNs. *)
Lemma MVC_init_keeps_all_nan_map :
  let blank : store := fun _ => {| shape := [1; 1]%nat; data := [NaN] |} in
  let out := MVC_init blank (BareArray 0%nat) (BareArray 1%nat)
               (BareArray 2%nat) (None : option unit) in
  fst out = Ok {| _centroid := 0%nat; _moment0 := 1%nat; _linewidth := 2%nat;
                  header := None; mvc_shape := [1; 1]%nat |} /\
  data (snd out 0%nat) = [NaN] /\
  data (snd out 1%nat) = [NaN] /\
  data (snd out 2%nat) = [NaN].
Proof.
  intros blank out. repeat split.
Qed.

Lemma MVC_init_shape_check_example :
  let out := MVC_init three_maps (BareArray 0%nat) (BareArray 1%nat)
               (BareArray 2%nat) (None : option unit) in
  load_inputs (BareArray 0%nat) (BareArray 1%nat) (BareArray 2%nat)
    (None : option unit)
  = Ok (0%nat, None, 1%nat, 2%nat, [NoHeaderLoaded]) /\
  data (three_maps 0%nat) <> [] /\
  data (three_maps 1%nat) <> [] /\
  data (three_maps 2%nat) <> [] /\
  shape (three_maps 0%nat) <> shape (three_maps 2%nat) /\
  fst out = Raise IndexError.
Proof.
  intros out.
  assert (Hload : load_inputs (BareArray 0%nat) (BareArray 1%nat)
                    (BareArray 2%nat) (None : option unit)
                  = Ok (0%nat, None, 1%nat, 2%nat, [NoHeaderLoaded]))
    by reflexivity.
  assert (H0 : data (three_maps 0%nat) <> []) by discriminate.
  assert (H1 : data (three_maps 1%nat) <> []) by discriminate.
  assert (H2 : data (three_maps 2%nat) <> []) by discriminate.
  assert (Hdiff : shape (three_maps 0%nat) <> shape (three_maps 2%nat))
    by discriminate.
  destruct (MVC_init_shape_check three_maps _ _ _ _ _ _ _ _ _ Hload)
    as (_ & Hcheck).
  destruct (Hcheck H0 H1 H2) as (_ & Hfail).
  repeat (split; [assumption |]).
  apply Hfail. intros [_ Hshape]. exact (Hdiff Hshape).
Defined.

(** C8 as stated fails: with an empty centroid array and two one-pixel
    maps the shapes differ, yet construction fails in the NaN replacement
    with numpy's [ValueError], not with the shape-mismatch error. *)
Lemma MVC_init_empty_map_fails_before_shape_check :
  let maps : store :=
    fun a => match a with
             | 0%nat => {| shape := [0]%nat; data := [] |}
             | _ => {| shape := [1]%nat; data := [Fin 1] |}
             end in
  let out := MVC_init maps (BareArray 0%nat) (BareArray 1%nat)
               (BareArray 2%nat) (None : option unit) in
  shape_eqb (shape (maps 0%nat)) (shape (maps 1%nat)) = false /\
  fst out = Raise ValueError.
Proof.
  intros maps out. split; reflexivity.
Qed.

(** ** [MVC.compute_pspec] *)

Lemma chunks_map {A B : Type} (f : A -> B) (size count : nat) (l : list A) :
  chunks size count (map f l) = map (map f) (chunks size count l).
Proof.
  revert l. induction count as [| count IH]; intros l; simpl; [reflexivity |].
  rewrite firstn_map, skipn_map, IH. reflexivity.
Qed.

Lemma roll_map {A B : Type} (f : A -> B) (k : nat) (l : list A) :
  roll k (map f l) = map f (roll k l).
Proof.
  unfold roll. rewrite length_map, map_app, firstn_map, skipn_map.
  reflexivity.
Qed.

(** An elementwise operation commutes with the frequency shift. *)
Lemma fftshift_data_map {A B : Type} (f : A -> B) (shp : list nat)
  (l : list A) :
  fftshift_data shp (map f l) = map f (fftshift_data shp l).
Proof.
  revert l. induction shp as [| n rest IH]; intros l; simpl; [reflexivity |].
  rewrite chunks_map, map_map.
  rewrite (map_ext _ (fun c => map f (fftshift_data rest c)))
    by (intros c; apply IH).
  rewrite <- (map_map (fftshift_data rest) (map f)).
  rewrite roll_map, concat_map. reflexivity.
Qed.

Lemma fftshift_map_array {A B : Type} (f : A -> B) (a : ndarray A) :
  fftshift (map_array f a) = map_array f (fftshift a).
Proof.
  unfold fftshift, map_array. simpl. rewrite fftshift_data_map. reflexivity.
Qed.

(** On entries that are all finite, the squares and their sums are finite. *)
Lemma squares_sum_finite (l l' : list float64) :
  Forall (fun a => isfinite a = true) l ->
  Forall (fun a => isfinite a = true) l' ->
  Forall (fun a => isnan a = false)
         (map2 fadd (map fsquare l) (map fsquare l')).
Proof.
  intros Hl. revert l'. induction Hl as [| a l Ha Hl IH]; intros l' Hl'.
  - constructor.
  - destruct Hl' as [| b l' Hb Hl']; simpl; constructor.
    + destruct a, b; try discriminate. reflexivity.
    + apply IH. exact Hl'.
Qed.

Lemma np_nanmean_no_nan (l : list float64) :
  Forall (fun a => isnan a = false) l -> np_nanmean l = np_mean l.
Proof.
  intros Hl. unfold np_nanmean. f_equal.
  induction Hl as [| a l Ha Hl IH]; simpl; [reflexivity |].
  rewrite Ha. simpl. rewrite IH. reflexivity.
Qed.

Lemma map2_length {A B C : Type} (f : A -> B -> C) (l : list A)
  (l' : list B) :
  length (map2 f l l') = Nat.min (length l) (length l').
Proof.
  revert l'. induction l as [| a l IH]; intros [| b l']; simpl;
    try reflexivity.
  rewrite IH. reflexivity.
Qed.

(** Where the frequency shift puts the entries. *)
Lemma roll_length {A : Type} (k : nat) (l : list A) :
  length (roll k l) = length l.
Proof.
  unfold roll. rewrite length_app, length_skipn, length_firstn. lia.
Qed.

Lemma roll_nth_error {A : Type} (k : nat) (l : list A) (i : nat) :
  (k <= length l)%nat -> (i < length l)%nat ->
  nth_error (roll k l) ((i + k) mod length l) = nth_error l i.
Proof.
  intros Hk Hi. unfold roll. set (n := length l) in *.
  assert (Hskip : length (skipn (n - k) l) = k)
    by (rewrite length_skipn; fold n; lia).
  destruct (Nat.lt_ge_cases (i + k) n) as [Hlow | Hhigh].
  - rewrite Nat.mod_small by exact Hlow.
    rewrite nth_error_app2 by (rewrite Hskip; lia).
    rewrite Hskip, nth_error_firstn.
    replace (i + k - k <? n - k)%nat with true
      by (symmetry; apply Nat.ltb_lt; lia).
    f_equal. lia.
  - replace ((i + k) mod n)%nat with (i + k - n)%nat
      by (apply Nat.mod_unique with (q := 1%nat); lia).
    rewrite nth_error_app1 by (rewrite Hskip; lia).
    rewrite nth_error_skipn. f_equal. lia.
Qed.

Lemma chunks_length {A : Type} (size count : nat) (l : list A) :
  length (chunks size count l) = count.
Proof.
  revert l. induction count as [| count IH]; intros l; simpl;
    [reflexivity | rewrite IH; reflexivity].
Qed.

Lemma chunks_nth_error {A : Type} (size count : nat) (l : list A) (i : nat) :
  (i < count)%nat ->
  nth_error (chunks size count l) i
  = Some (firstn size (skipn (i * size) l)).
Proof.
  revert l i. induction count as [| count IH]; intros l i Hi; [lia |].
  destruct i as [| i]; simpl; [reflexivity |].
  rewrite IH by lia. rewrite skipn_skipn. do 3 f_equal. lia.
Qed.

Lemma chunks_singletons {A : Type} (l : list A) :
  chunks 1 (length l) l = map (fun a => [a]) l.
Proof.
  induction l as [| a l IH]; simpl; [reflexivity |]. rewrite IH. reflexivity.
Qed.

Lemma concat_singletons {A : Type} (l : list A) :
  concat (map (fun a => [a]) l) = l.
Proof.
  induction l as [| a l IH]; simpl; [reflexivity |]. rewrite IH. reflexivity.
Qed.

(** Along one axis the shift is a roll by half the length. *)
Lemma fftshift_data_axis {A : Type} (l : list A) :
  fftshift_data [length l] l = roll (length l / 2) l.
Proof.
  cbn [fftshift_data fold_right]. rewrite chunks_singletons, map_map.
  cbn [fftshift_data]. rewrite roll_map. apply concat_singletons.
Qed.

Lemma concat_nth_error {A : Type} (rows : list (list A)) (m a j : nat) :
  Forall (fun r => length r = m) rows -> (j < m)%nat ->
  nth_error (concat rows) (a * m + j)
  = match nth_error rows a with
    | Some r => nth_error r j
    | None => None
    end.
Proof.
  intros Hrows Hj. revert a.
  induction Hrows as [| r rows Hr Hrows IH]; intros a.
  - cbn [concat]. rewrite !nth_error_nil. reflexivity.
  - destruct a as [| a]; cbn [concat nth_error].
    + rewrite nth_error_app1 by (simpl; lia). reflexivity.
    + rewrite nth_error_app2 by (simpl; lia).
      replace (S a * m + j - length r)%nat with (a * m + j)%nat
        by (simpl; lia).
      apply IH.
Qed.

Lemma Forall_roll {A : Type} (P : A -> Prop) (k : nat) (l : list A) :
  Forall P l -> Forall P (roll k l).
Proof.
  intros Hl. unfold roll. rewrite Forall_forall in Hl.
  apply Forall_forall. intros a Ha. apply Hl.
  rewrite <- (firstn_skipn (length l - k) l).
  apply in_app_or in Ha. apply in_or_app. tauto.
Qed.

(** The shift of an [n0] by [n1] array moves the entry at [(i, j)] to
    [((i + n0 // 2) % n0, (j + n1 // 2) % n1)]. *)
Lemma fftshift_data_position {A : Type} (n0 n1 : nat) (l : list A)
  (i j : nat) :
  length l = (n0 * n1)%nat -> (i < n0)%nat -> (j < n1)%nat ->
  nth_error (fftshift_data [n0; n1] l) (centred_position n0 n1 i j)
  = nth_error l (i * n1 + j).
Proof.
  intros Hlen Hi Hj. unfold centred_position.
  cbn [fftshift_data fold_right]. rewrite Nat.mul_1_r.
  set (rows := chunks n1 n0 l).
  set (shifted := map (fftshift_data [n1]) rows).
  assert (Hrow : forall a, (a < n0)%nat ->
            length (firstn n1 (skipn (a * n1) l)) = n1).
  { intros a Ha. rewrite length_firstn, length_skipn, Hlen. nia. }
  assert (Hrows : Forall (fun r => length r = n1) rows).
  { apply Forall_forall. intros r Hr.
    apply In_nth_error in Hr. destruct Hr as [a Ha].
    assert (Halt : (a < n0)%nat).
    { rewrite <- (chunks_length n1 n0 l). apply nth_error_Some.
      unfold rows in Ha. rewrite Ha. discriminate. }
    unfold rows in Ha. rewrite chunks_nth_error in Ha by exact Halt.
    injection Ha as <-. apply Hrow. exact Halt. }
  assert (Hshifted : shifted = map (fun r => roll (n1 / 2) r) rows).
  { unfold shifted. apply map_ext_in. intros r Hr.
    rewrite Forall_forall in Hrows. rewrite <- (Hrows r Hr).
    apply fftshift_data_axis. }
  assert (Hlengths : Forall (fun r => length r = n1) (roll (n0 / 2) shifted)).
  { apply Forall_roll. rewrite Hshifted. apply Forall_forall. intros r Hr.
    apply in_map_iff in Hr. destruct Hr as (r' & <- & Hr').
    rewrite roll_length. rewrite Forall_forall in Hrows. apply Hrows.
    exact Hr'. }
  assert (Hj' : ((j + n1 / 2) mod n1 < n1)%nat)
    by (apply Nat.mod_upper_bound; lia).
  rewrite (concat_nth_error _ n1 _ _ Hlengths Hj').
  assert (Hcount : length shifted = n0)
    by (unfold shifted, rows; rewrite length_map, chunks_length; reflexivity).
  pose proof (Nat.div_mod_eq n0 2) as Hdiv0.
  pose proof (Nat.div_mod_eq n1 2) as Hdiv1.
  replace ((i + n0 / 2) mod n0)%nat with ((i + n0 / 2) mod length shifted)%nat
    by (rewrite Hcount; reflexivity).
  rewrite roll_nth_error by (rewrite Hcount; lia).
  rewrite Hshifted, nth_error_map. unfold rows.
  rewrite chunks_nth_error by exact Hi. cbn [option_map].
  set (r := firstn n1 (skipn (i * n1) l)).
  assert (Hr : length r = n1) by (apply Hrow; exact Hi).
  replace ((j + n1 / 2) mod n1)%nat with ((j + n1 / 2) mod length r)%nat
    by (rewrite Hr; reflexivity).
  rewrite roll_nth_error by (rewrite Hr; lia).
  unfold r. rewrite nth_error_firstn, nth_error_skipn.
  replace (j <? n1)%nat with true by (symmetry; apply Nat.ltb_lt; exact Hj).
  reflexivity.
Qed.

Section ComputePspec.
Context `{NumpyFFT}.

(** C6: for finite centroid and linewidth maps, [compute_pspec] stores
    [|FFT(f1 f2) - mean(f3^2 + f1^2) FFT(f2)|^2] with the zero frequency
    moved to the centre of the array; the shift is applied to the
    transform, before the squared magnitude is taken.  For maps of [n0]
    by [n1] pixels and a transform that keeps the shape, the entry of the
    transform at [(i, j)] is found, squared in magnitude, at
    [((i + n0 // 2) % n0, (j + n1 // 2) % n1)], so the zero-frequency term
    stands at [(n0 // 2, n1 // 2)]. *)
Theorem compute_pspec_is_centred_spectrum {T : Type} (self : MVC T)
  (s : store) :
  let f1 := s (_centroid self) in
  let f2 := s (_moment0 self) in
  let f3 := s (_linewidth self) in
  let transform :=
    zip_arrays csub (fft2 (zip_arrays fmul f1 f2))
      (map_array
         (cmul (of_real
                  (np_mean (map2 fadd (map fsquare (data f3))
                                      (map fsquare (data f1))))))
         (fft2 f2)) in
  Forall (fun a => isfinite a = true) (data f1) ->
  Forall (fun a => isfinite a = true) (data f3) ->
  compute_pspec self s = mvc_spectrum f1 f2 f3 /\
  compute_pspec self s
  = map_array (fun z => fsquare (cabs z)) (fftshift transform) /\
  forall n0 n1 : nat,
    shape f1 = [n0; n1] ->
    length (data f1) = (n0 * n1)%nat ->
    length (data f2) = (n0 * n1)%nat ->
    (forall a : ndarray float64,
       shape (fft2 a) = shape a /\
       length (data (fft2 a)) = length (data a)) ->
    forall i j : nat, (i < n0)%nat -> (j < n1)%nat ->
      nth_error (data (compute_pspec self s)) (centred_position n0 n1 i j)
      = option_map (fun z => fsquare (cabs z))
          (nth_error (data transform) (i * n1 + j)).
Proof.
  intros f1 f2 f3 transform Hf1 Hf3.
  assert (Hmean :
    np_nanmean (data (zip_arrays fadd (map_array fsquare f3)
                                      (map_array fsquare f1)))
    = np_mean (map2 fadd (map fsquare (data f3)) (map fsquare (data f1)))).
  { cbn [zip_arrays map_array data]. apply np_nanmean_no_nan.
    apply squares_sum_finite; assumption. }
  assert (Hrun : compute_pspec self s
                 = map_array (fun z => fsquare (cabs z)) (fftshift transform)).
  { unfold compute_pspec. fold f1 f2 f3. rewrite Hmean. reflexivity. }
  split.
  { rewrite Hrun. unfold mvc_spectrum. fold transform.
    rewrite fftshift_map_array. reflexivity. }
  split; [exact Hrun |].
  intros n0 n1 Hshape Hlen1 Hlen2 Hfft i j Hi Hj.
  rewrite Hrun. cbn [map_array data fftshift]. rewrite nth_error_map.
  assert (Htshape : shape transform = [n0; n1]).
  { unfold transform. cbn [zip_arrays shape].
    rewrite (proj1 (Hfft _)). cbn [zip_arrays shape]. exact Hshape. }
  assert (Htlen : length (data transform) = (n0 * n1)%nat).
  { unfold transform. cbn [zip_arrays map_array data].
    rewrite map2_length, length_map, !(proj2 (Hfft _)).
    cbn [zip_arrays data]. rewrite map2_length. lia. }
  rewrite Htshape.
  rewrite (fftshift_data_position n0 n1 _ i j Htlen Hi Hj). reflexivity.
Qed.

End ComputePspec.

(** The example: three maps of two by two pixels.  The transform of the
    product map is [[11, 3], [-9, -1]], that of the intensity map is
    [[4, 2], [-2, 0]], and the mean term is 11.5; the zero-frequency
    term [11 - 11.5 * 4] is found in the last place of the array. *)
Lemma two_by_two_fft_keeps_shape (a : ndarray float64) :
  shape (fft2 (NumpyFFT := two_by_two_fft) a) = shape a /\
  length (data (fft2 (NumpyFFT := two_by_two_fft) a)) = length (data a).
Proof.
  destruct a as [shp dat]. cbn [fft2 two_by_two_fft shape data].
  repeat match goal with
         | |- context [match ?x with _ => _ end] => destruct x
         end;
    cbn [map_array shape data length map]; split;
    try reflexivity; try (rewrite length_map; reflexivity).
Qed.

Lemma compute_pspec_is_centred_spectrum_example :
  let self := {| _centroid := 0%nat; _moment0 := 1%nat; _linewidth := 2%nat;
                 header := (None : option unit);
                 mvc_shape := [2; 2]%nat |} in
  let transform :=
    zip_arrays csub
      (fft2 (NumpyFFT := two_by_two_fft)
         (zip_arrays fmul (two_by_two_maps 0%nat) (two_by_two_maps 1%nat)))
      (map_array
         (cmul (of_real
                  (np_mean
                     (map2 fadd
                        (map fsquare (data (two_by_two_maps 2%nat)))
                        (map fsquare (data (two_by_two_maps 0%nat)))))))
         (fft2 (NumpyFFT := two_by_two_fft) (two_by_two_maps 1%nat))) in
  Forall (fun a => isfinite a = true) (data (two_by_two_maps 0%nat)) /\
  Forall (fun a => isfinite a = true) (data (two_by_two_maps 2%nat)) /\
  compute_pspec (H := two_by_two_fft) self two_by_two_maps
  = mvc_spectrum (H := two_by_two_fft) (two_by_two_maps 0%nat)
      (two_by_two_maps 1%nat) (two_by_two_maps 2%nat) /\
  centred_position 2 2 0 0 = 3%nat /\
  nth_error (data (compute_pspec (H := two_by_two_fft) self two_by_two_maps))
    3
  = option_map (fun z => fsquare (cabs z)) (nth_error (data transform) 0) /\
  nth_error (data (compute_pspec (H := two_by_two_fft) self two_by_two_maps))
    0
  = option_map (fun z => fsquare (cabs z)) (nth_error (data transform) 3).
Proof.
  intros self transform.
  assert (H0 : Forall (fun a => isfinite a = true)
                 (data (two_by_two_maps 0%nat)))
    by (repeat constructor).
  assert (H2 : Forall (fun a => isfinite a = true)
                 (data (two_by_two_maps 2%nat)))
    by (repeat constructor).
  split; [exact H0 |]. split; [exact H2 |].
  destruct (compute_pspec_is_centred_spectrum (H := two_by_two_fft) self
              two_by_two_maps H0 H2) as (Hspec & _ & Hplace).
  split; [exact Hspec |]. split; [reflexivity |].
  assert (Hshape : shape (two_by_two_maps (_centroid self)) = [2; 2]%nat)
    by reflexivity.
  assert (Hlen1 : length (data (two_by_two_maps (_centroid self)))
                  = (2 * 2)%nat) by reflexivity.
  assert (Hlen2 : length (data (two_by_two_maps (_moment0 self)))
                  = (2 * 2)%nat) by reflexivity.
  split.
  - exact (Hplace 2%nat 2%nat Hshape Hlen1 Hlen2 two_by_two_fft_keeps_shape
             0%nat 0%nat ltac:(lia) ltac:(lia)).
  - exact (Hplace 2%nat 2%nat Hshape Hlen1 Hlen2 two_by_two_fft_keeps_shape
             1%nat 1%nat ltac:(lia) ltac:(lia)).
Defined.

(** ** [pspec] *)





















Section Pspec.
Context `{Scipy}.


End Pspec.


Lemma pixel_dists_one_pixel : pixel_dists 1 1 = [0].
Proof.
  unfold pixel_dists.
  replace (meshgrid (radial_axis 1) (radial_axis 1)) with [(0, 0)%Z]
    by reflexivity.
  cbn [map fst snd]. change (0 ^ 2 + 0 ^ 2)%Z with 0%Z.
  rewrite sqrt_0. reflexivity.
Qed.

(** ** Further properties *)

(** X1: at the zero-frequency point the model value is not finite, and
    [evaluate] returns [0.0] there, whatever the parameters. *)
Theorem evaluate_zero_frequency (p : pl_params) : evaluate p 0 0 = 0.
Proof.
  unfold evaluate.
  match goal with
  | |- context [np_log10 (Fin ?e)] => replace e with 0 by ring
  end.
  unfold np_log10. decide_reals. unfold fmul, inf_times.
  destruct (Reqb (0.5 * gamma p) 0); [reflexivity |].
  destruct (eqb false (Rltb 0 (0.5 * gamma p))); reflexivity.
Qed.

(** X2: for an odd window size [2 h + 1] that fits the data, [std_window]
    fills one entry per interior position with the standard deviation of
    the [2 h] values [y[j], ..., y[j + 2 h - 1]] and returns the position
    of the first maximum, offset by [h]. *)
Theorem std_window_odd_size (y : list Z) (h : nat) :
  (2 * h + 1 <= length y)%nat ->
  exists (stds : list float64) (k : nat),
    std_window_stds y (Z.of_nat (2 * h + 1)) = Ok stds /\
    length stds = (length y - 2 * h)%nat /\
    (forall j, (j < length y - 2 * h)%nat ->
       nth_error stds j
       = Some (np_std (map of_Z (py_slice y (Z.of_nat j)
                                   (Z.of_nat j + Z.of_nat (2 * h)))))) /\
    np_argmax stds = Ok k /\
    std_window y (Z.of_nat (2 * h + 1)) = Ok (Z.of_nat k + Z.of_nat h)%Z.
Proof.
  intros Hlen.
  set (stds := map (fun j => np_std (map of_Z (scanned_window y h j)))
                   (seq 0 (length y - 2 * h))).
  assert (Hne : stds <> []).
  { unfold stds. destruct (length y - 2 * h)%nat eqn:Hn; [lia |].
    discriminate. }
  destruct stds as [| a t] eqn:Hstds; [contradiction |].
  exists (a :: t), (argmax_from 0 a 1 t). rewrite <- Hstds.
  split; [apply std_window_stds_odd; exact Hlen |].
  split; [unfold stds; rewrite length_map, length_seq; reflexivity |].
  split.
  { intros j Hj. unfold stds.
    rewrite nth_error_map, nth_error_seq.
    replace (j <? length y - 2 * h)%nat with true
      by (symmetry; apply Nat.ltb_lt; exact Hj).
    simpl. rewrite py_slice_nat by lia. reflexivity. }
  split; [rewrite Hstds; reflexivity |].
  rewrite (std_window_odd y h Hlen). fold stds. rewrite Hstds. reflexivity.
Qed.

Lemma std_window_odd_size_example :
  (2 * 2 + 1 <= length flat_then_drop)%nat /\
  exists (stds : list float64) (k : nat),
    std_window_stds flat_then_drop 5 = Ok stds /\
    length stds = 3%nat /\
    np_argmax stds = Ok k /\
    std_window flat_then_drop 5 = Ok (Z.of_nat k + 2)%Z.
Proof.
  assert (Hlen : (2 * 2 + 1 <= length flat_then_drop)%nat) by (simpl; lia).
  split; [exact Hlen |].
  destruct (std_window_odd_size flat_then_drop 2 Hlen)
    as (stds & k & Hstds & Hn & _ & Hk & Hrun).
  exists stds, k. repeat split; assumption.
Defined.

(** ** The domain of [interval_transform] *)

Lemma np_log_pos (u : R) : 0 < u -> np_log (Fin u) = Fin (ln u).
Proof. intros Hu. unfold np_log. decide_reals. reflexivity. Qed.

Lemma np_log_zero (u : R) : u = 0 -> np_log (Fin u) = NInf.
Proof. intros Hu. unfold np_log. decide_reals. reflexivity. Qed.

Lemma np_log_neg (u : R) : u < 0 -> np_log (Fin u) = NaN.
Proof. intros Hu. unfold np_log. decide_reals. reflexivity. Qed.


(** X4: [interval_transform] raises nothing outside its interval: for
    [a < b] the result is NaN exactly when [x] lies outside [[a, b]], it
    is minus infinity at [a] and plus infinity at [b]. *)
Theorem interval_transform_domain (x a b : R) :
  a < b ->
  (isnan (interval_transform (Fin x) (Fin a) (Fin b)) = true <->
   x < a \/ b < x) /\
  (x = a -> interval_transform (Fin x) (Fin a) (Fin b) = NInf) /\
  (x = b -> interval_transform (Fin x) (Fin a) (Fin b) = PInf).
Proof.
  intros Hab. unfold interval_transform.
  change (fsub (Fin x) (Fin a)) with (Fin (x + - a)).
  change (fsub (Fin b) (Fin x)) with (Fin (b + - x)).
  split; [| split].
  - destruct (Rlt_dec x a) as [Hxa | Hxa].
    { rewrite (np_log_neg (x + - a)) by lra.
      split; [intros _; left; exact Hxa | reflexivity]. }
    destruct (Rlt_dec b x) as [Hbx | Hbx].
    { rewrite (np_log_neg (b + - x)) by lra.
      split; [intros _; right; exact Hbx |].
      intros _. destruct (np_log (Fin (x + - a))); reflexivity. }
    assert (Hin : ~ (x < a \/ b < x)) by tauto.
    destruct (Req_dec_T x a) as [Hea | Hea].
    { rewrite (np_log_zero (x + - a)), (np_log_pos (b + - x)) by lra.
      split; [discriminate | intros Hout; contradiction]. }
    destruct (Req_dec_T x b) as [Heb | Heb].
    { rewrite (np_log_pos (x + - a)), (np_log_zero (b + - x)) by lra.
      split; [discriminate | intros Hout; contradiction]. }
    rewrite (np_log_pos (x + - a)), (np_log_pos (b + - x)) by lra.
    split; [discriminate | intros Hout; contradiction].
  - intros Hxa.
    rewrite (np_log_zero (x + - a)), (np_log_pos (b + - x)) by lra.
    reflexivity.
  - intros Hxb.
    rewrite (np_log_pos (x + - a)), (np_log_zero (b + - x)) by lra.
    reflexivity.
Qed.

Lemma interval_transform_domain_example :
  0 < 1 /\
  (isnan (interval_transform (Fin 2) (Fin 0) (Fin 1)) = true <->
   2 < 0 \/ 1 < 2) /\
  interval_transform (Fin 2) (Fin 0) (Fin 1) = NaN.
Proof.
  assert (Hab : 0 < 1) by lra.
  split; [exact Hab |].
  destruct (interval_transform_domain 2 0 1 Hab) as (Hnan & _).
  split; [exact Hnan |].
  assert (Hout : 2 < 0 \/ 1 < 2) by (right; lra).
  apply Hnan in Hout.
  destruct (interval_transform (Fin 2) (Fin 0) (Fin 1));
    try discriminate. reflexivity.
Defined.

(** ** The slope distances *)

Lemma fadd_comm (a b : float64) : fadd a b = fadd b a.
Proof.
  destruct a, b; simpl; try reflexivity. f_equal. lra.
Qed.

Lemma fsub_swap (a b : float64) : fsub b a = fneg (fsub a b).
Proof.
  destruct a, b; simpl; try reflexivity. f_equal. lra.
Qed.

Lemma fabs_fdiv_fneg (a c : float64) :
  fabs (fdiv (fneg a) c) = fabs (fdiv a c).
Proof.
  destruct a as [| | | x], c as [| | | y]; simpl; try reflexivity.
  - destruct (Rltb y 0); reflexivity.
  - destruct (Rltb y 0); reflexivity.
  - destruct (Req_dec_T y 0) as [Hy | Hy]; decide_reals.
    + destruct (Req_dec_T x 0) as [Hx | Hx]; decide_reals; [reflexivity |].
      destruct (Rlt_dec 0 x) as [Hpos | Hneg]; decide_reals; reflexivity.
    + simpl. f_equal.
      replace (- x / y) with (- (x / y)) by (field; exact Hy).
      apply Rabs_Ropp.
Qed.

Lemma fsqrt_cases (a : float64) :
  fsqrt a = NaN \/ fsqrt a = PInf \/ exists r, 0 <= r /\ fsqrt a = Fin r.
Proof.
  destruct a as [| | | x]; simpl; auto.
  destruct (Rlt_dec x 0) as [Hx | Hx]; decide_reals; auto.
  right. right. exists (sqrt x). split; [apply sqrt_pos | reflexivity].
Qed.

(** X9: the MVC distance does not depend on the order of the two data
    sets, whatever the slopes and errors (NaN and the infinities
    included), and it is never negative: it is NaN, plus infinity, or a
    number that is not negative. *)
Theorem mvc_distance_metric_symmetric (mvc1 mvc2 : slope_fit) :
  mvc_distance_metric mvc1 mvc2 = mvc_distance_metric mvc2 mvc1 /\
  (mvc_distance_metric mvc1 mvc2 = NaN \/
   mvc_distance_metric mvc1 mvc2 = PInf \/
   exists r : R, 0 <= r /\ mvc_distance_metric mvc1 mvc2 = Fin r).
Proof.
  split.
  - unfold mvc_distance_metric.
    rewrite (fsub_swap (slope mvc2) (slope mvc1)), fabs_fdiv_fneg.
    rewrite (fadd_comm (fsquare (slope_err mvc2))). reflexivity.
  - unfold mvc_distance_metric.
    destruct (fdiv _ _) as [| | | x]; cbn [fabs]; auto.
    right. right. exists (Rabs x). split; [apply Rabs_pos | reflexivity].
Qed.

(** X10: the dendrogram slope distance is the same function of the two
    slopes and their errors as the MVC distance, for every value of them:
    dividing the absolute difference by the square root and taking the
    absolute value of the quotient agree. *)
Theorem numfeature_stat_is_slope_distance (dendro1 dendro2 : numfeat_fit) :
  numfeature_stat dendro1 dendro2
  = mvc_distance_metric
      {| slope := tail_slope dendro1; slope_err := tail_slope_err dendro1 |}
      {| slope := tail_slope dendro2; slope_err := tail_slope_err dendro2 |}
  /\ numfeature_stat dendro1 dendro2 = numfeature_stat dendro2 dendro1.
Proof.
  assert (Hsame : forall a c : float64,
            fdiv (fabs a) (fsqrt c) = fabs (fdiv a (fsqrt c))).
  { intros a c.
    destruct (fsqrt_cases c) as [-> | [-> | (r & Hr & ->)]].
    - destruct a; reflexivity.
    - destruct a; simpl; try reflexivity. rewrite Rabs_R0. reflexivity.
    - destruct a as [| | | x]; simpl; try reflexivity.
      + decide_reals. reflexivity.
      + decide_reals. reflexivity.
      + destruct (Req_dec_T r 0) as [Hz | Hnz]; decide_reals.
        * destruct (Req_dec_T x 0) as [Hx | Hx].
          -- subst x. rewrite Rabs_R0. decide_reals. reflexivity.
          -- pose proof (Rabs_pos_lt x Hx) as Hax. decide_reals.
             destruct (Rlt_dec 0 x); decide_reals; reflexivity.
        * simpl. f_equal. unfold Rdiv. rewrite Rabs_mult.
          rewrite (Rabs_pos_eq (/ r))
            by (apply Rlt_le, Rinv_0_lt_compat; lra).
          reflexivity. }
  assert (Hmvc : forall d1 d2 : numfeat_fit,
            numfeature_stat d1 d2
            = mvc_distance_metric
                {| slope := tail_slope d1; slope_err := tail_slope_err d1 |}
                {| slope := tail_slope d2; slope_err := tail_slope_err d2 |}).
  { intros d1 d2. unfold numfeature_stat, mvc_distance_metric.
    cbn [slope slope_err]. apply Hsame. }
  split; [apply Hmvc |].
  rewrite !Hmvc. unfold mvc_distance_metric. cbn [slope slope_err].
  rewrite (fsub_swap (tail_slope dendro2) (tail_slope dendro1)),
    fabs_fdiv_fneg.
  rewrite (fadd_comm (fsquare (tail_slope_err dendro2))). reflexivity.
Qed.

(** ** The cutoff of [DendroDistance] *)

Lemma argwhere_above_In (numfeatures : list Z) (min_features : Z)
  (k i : nat) :
  In i (argwhere_above numfeatures min_features k) <->
  (k <= i)%nat /\
  exists n, nth_error numfeatures (i - k) = Some n /\ (min_features < n)%Z.
Proof.
  revert k. induction numfeatures as [| a t IH]; intros k; simpl.
  - split; [intros [] |]. intros (_ & n & Hn & _).
    destruct (i - k)%nat; discriminate.
  - assert (Htail : In i (argwhere_above t min_features (S k)) <->
              (S k <= i)%nat /\
              exists n, nth_error t (i - S k) = Some n /\ (min_features < n)%Z)
      by apply IH.
    destruct (min_features <? a)%Z eqn:Ha; simpl; rewrite Htail; split.
    + intros [<- | (Hk & n & Hn & Hlt)].
      * split; [lia |]. exists a. rewrite Nat.sub_diag.
        split; [reflexivity | apply Z.ltb_lt; exact Ha].
      * split; [lia |]. exists n.
        replace (i - k)%nat with (S (i - S k)) by lia.
        split; assumption.
    + intros (Hk & n & Hn & Hlt).
      destruct (Nat.eq_dec k i) as [E | E]; [left; exact E | right].
      split; [lia |]. exists n.
      replace (i - k)%nat with (S (i - S k)) in Hn by lia.
      split; assumption.
    + intros (Hk & n & Hn & Hlt). split; [lia |]. exists n.
      replace (i - k)%nat with (S (i - S k)) by lia.
      split; assumption.
    + intros (Hk & n & Hn & Hlt).
      destruct (Nat.eq_dec k i) as [E | E].
      * subst i. rewrite Nat.sub_diag in Hn. simpl in Hn.
        injection Hn as <-. apply Z.ltb_ge in Ha. lia.
      * split; [lia |]. exists n.
        replace (i - k)%nat with (S (i - S k)) in Hn by lia.
        split; assumption.
Qed.

Lemma argwhere_above_last (numfeatures : list Z) (min_features : Z)
  (k d : nat) :
  argwhere_above numfeatures min_features k <> [] ->
  In (last (argwhere_above numfeatures min_features k) d)
     (argwhere_above numfeatures min_features k) /\
  forall i, In i (argwhere_above numfeatures min_features k) ->
    (i <= last (argwhere_above numfeatures min_features k) d)%nat.
Proof.
  revert k. induction numfeatures as [| a t IH]; intros k Hne.
  - contradiction.
  - simpl in *. destruct (min_features <? a)%Z.
    + destruct (argwhere_above t min_features (S k)) as [| b l] eqn:Ht.
      * simpl. split; [left; reflexivity |].
        intros i [<- | []]. lia.
      * assert (Hne' : argwhere_above t min_features (S k) <> [])
          by (rewrite Ht; discriminate).
        destruct (IH (S k) Hne') as [Hin Hmax]. rewrite Ht in Hin, Hmax.
        change (last (k :: b :: l) d) with (last (b :: l) d).
        split; [right; exact Hin |].
        intros i [<- | Hi]; [| apply Hmax; exact Hi].
        assert (Hb : In b (argwhere_above t min_features (S k)))
          by (rewrite Ht; left; reflexivity).
        apply argwhere_above_In in Hb.
        assert (b <= last (b :: l) d)%nat by (apply Hmax; left; reflexivity).
        lia.
    + apply IH. exact Hne.
Qed.

Lemma last_above_spec (numfeatures : list Z) (min_features : Z) :
  match last_above numfeatures min_features with
  | Ok c => (1 <= c)%nat /\ last_exceeding numfeatures min_features c
  | Raise e =>
      e = ValueError /\
      forall j n, (1 <= j)%nat -> nth_error numfeatures j = Some n ->
        (n <= min_features)%Z
  end.
Proof.
  unfold last_above.
  set (A := argwhere_above numfeatures min_features 0).
  destruct (existsb (fun i => negb (i =? 0)%nat) A) eqn:Hany.
  - apply existsb_exists in Hany. destruct Hany as (i & Hi & Hnz).
    apply negb_true_iff, Nat.eqb_neq in Hnz.
    assert (Hne : A <> []) by (intros E; rewrite E in Hi; exact Hi).
    destruct (argwhere_above_last numfeatures min_features 0 0 Hne)
      as [Hin Hmax].
    fold A in Hin, Hmax. set (c := last A 0%nat) in *.
    split.
    + specialize (Hmax i Hi). lia.
    + split.
      * apply argwhere_above_In in Hin. destruct Hin as (_ & n & Hn & Hlt).
        rewrite Nat.sub_0_r in Hn. exists n. split; assumption.
      * intros j n Hj Hn.
        destruct (Z_lt_le_dec min_features n) as [Hlt | Hle]; [| exact Hle].
        assert (Hjin : In j A).
        { apply argwhere_above_In. split; [lia |]. exists n.
          rewrite Nat.sub_0_r. split; assumption. }
        specialize (Hmax j Hjin). lia.
  - split; [reflexivity |]. intros j n Hj Hn.
    destruct (Z_lt_le_dec min_features n) as [Hlt | Hle]; [| exact Hle].
    assert (Hjin : In j A).
    { apply argwhere_above_In. split; [lia |]. exists n.
      rewrite Nat.sub_0_r. split; assumption. }
    assert (Htrue : existsb (fun i => negb (i =? 0)%nat) A = true).
    { apply existsb_exists. exists j. split; [exact Hjin |].
      apply negb_true_iff, Nat.eqb_neq. lia. }
    congruence.
Qed.

(** X11: the cutoff of [DendroDistance].  When it is set, it is at least
    1 and is the smaller of the two last levels whose number of features
    exceeds [min_features].  Otherwise the error is [ValueError], and in
    one of the two data sets no level after the first exceeds
    [min_features]: the test [cutoff.any()] reads the positions, so a
    data set where only level 0 has enough features is refused like one
    where none has. *)
Theorem dendro_cutoff_spec (numfeatures1 numfeatures2 : list Z)
  (min_features : Z) :
  match dendro_cutoff numfeatures1 numfeatures2 min_features with
  | Ok c =>
      (1 <= c)%nat /\
      exists c1 c2 : nat,
        c = Nat.min c1 c2 /\
        last_exceeding numfeatures1 min_features c1 /\
        last_exceeding numfeatures2 min_features c2
  | Raise e =>
      e = ValueError /\
      ((forall j n, (1 <= j)%nat -> nth_error numfeatures1 j = Some n ->
          (n <= min_features)%Z) \/
       (forall j n, (1 <= j)%nat -> nth_error numfeatures2 j = Some n ->
          (n <= min_features)%Z))
  end.
Proof.
  unfold dendro_cutoff.
  pose proof (last_above_spec numfeatures1 min_features) as H1.
  pose proof (last_above_spec numfeatures2 min_features) as H2.
  destruct (last_above numfeatures1 min_features) as [c1 | e1]; cbn [bind].
  - destruct (last_above numfeatures2 min_features) as [c2 | e2]; cbn [bind].
    + destruct H1 as [Hc1 Hl1], H2 as [Hc2 Hl2].
      split; [lia |]. exists c1, c2.
      split; [reflexivity | split; assumption].
    + destruct H2 as [-> Hnone]. split; [reflexivity | right; exact Hnone].
  - destruct H1 as [-> Hnone]. split; [reflexivity | left; exact Hnone].
Qed.

(** ** The file name of [save_results] *)

Lemma py_slice_from_suffix {A : Type} (l suffix : list A) :
  suffix <> [] ->
  py_slice_from (l ++ suffix) (- Z.of_nat (length suffix)) = suffix.
Proof.
  intros Hne. unfold py_slice_from, clamp_bound. rewrite length_app.
  assert (Hpos : (0 < length suffix)%nat)
    by (destruct suffix; [contradiction | simpl; lia]).
  replace (- Z.of_nat (length suffix) <? 0)%Z with true
    by (symmetry; apply Z.ltb_lt; lia).
  replace (Z.to_nat (Z.max (- Z.of_nat (length suffix)
                            + Z.of_nat (length l + length suffix)) 0))
    with (length l) by lia.
  rewrite skipn_app, skipn_all, Nat.sub_diag. reflexivity.
Qed.

(** X13: the file name [save_results] writes to always ends in [.pkl]; a
    given name is kept when it ends so and gets the suffix appended
    otherwise, so applying the rule twice changes nothing; with no name it
    is [dendrogram_stats_output.pkl]. *)
Theorem save_results_name_pkl (output_name : option (list Ascii.ascii)) :
  let name := save_results_name output_name in
  py_slice_from name (-4) = pkl_suffix /\
  save_results_name (Some name) = name /\
  match output_name with
  | Some given =>
      (py_slice_from given (-4) = pkl_suffix -> name = given) /\
      (py_slice_from given (-4) <> pkl_suffix -> name = given ++ pkl_suffix)
  | None => name = list_ascii_of_string "dendrogram_stats_output.pkl"
  end.
Proof.
  assert (Hends : forall o, py_slice_from (save_results_name o) (-4)
                            = pkl_suffix).
  { intros o. unfold save_results_name.
    set (n := match o with
              | Some name => name
              | None => list_ascii_of_string "dendrogram_stats_output.pkl"
              end).
    destruct (list_eq_dec Ascii.ascii_dec (py_slice_from n (-4)) pkl_suffix)
      as [E | E]; [exact E |].
    apply (py_slice_from_suffix n pkl_suffix). discriminate. }
  intros name. split; [apply Hends |]. split.
  - unfold save_results_name at 1.
    destruct (list_eq_dec Ascii.ascii_dec (py_slice_from name (-4)) pkl_suffix)
      as [E | E]; [reflexivity |].
    exfalso. apply E. apply Hends.
  - destruct output_name as [given |].
    + subst name. unfold save_results_name.
      destruct (list_eq_dec Ascii.ascii_dec (py_slice_from given (-4))
                  pkl_suffix) as [E | E].
      * split; [reflexivity | contradiction].
      * split; [contradiction | reflexivity].
    + reflexivity.
Qed.

(** ** Window sizes [std_window] cannot work with *)

Lemma std_window_step_Raise (y : list Z) (half_size : Z) (e : exn)
  (l : list Z) :
  fold_left (std_window_step y half_size) l (Raise e) = Raise e.
Proof.
  induction l as [| i l IH]; simpl; [reflexivity | exact IH].
Qed.

Lemma py_setitem_past_end {A : Type} (l : list A) (v : A) :
  py_setitem l (Z.of_nat (length l)) v = Raise IndexError.
Proof.
  unfold py_setitem, py_index.
  replace (Z.of_nat (length l) <? Z.of_nat (length l))%Z with false
    by (symmetry; apply Z.ltb_ge; lia).
  replace (Z.of_nat (length l) <? 0)%Z with false
    by (symmetry; apply Z.ltb_ge; lia).
  rewrite !andb_false_r. reflexivity.
Qed.

Lemma std_window_odd_too_large (y : list Z) (h : nat) :
  (length y < 2 * h + 1)%nat ->
  std_window y (Z.of_nat (2 * h + 1)) = Raise ValueError.
Proof.
  intros Hlen. unfold std_window, std_window_stds.
  replace ((Z.of_nat (2 * h + 1) - 1) / 2)%Z with (Z.of_nat h)
    by (apply Z.div_unique with (r := 0%Z); lia).
  unfold np_empty.
  destruct (Z.of_nat (length y) - Z.of_nat (2 * h + 1) + 1 <? 0)%Z eqn:Hneg.
  - rewrite std_window_step_Raise. reflexivity.
  - apply Z.ltb_ge in Hneg.
    assert (Hy : length y = (2 * h)%nat) by lia.
    rewrite Hy.
    replace (Z.of_nat (2 * h) - Z.of_nat (2 * h + 1) + 1)%Z with 0%Z by lia.
    unfold py_range.
    replace (Z.to_nat (Z.of_nat (2 * h) - Z.of_nat h - Z.of_nat h)) with 0%nat
      by lia.
    reflexivity.
Qed.

(** X14: an even window size never works.  For [size = 2 h + 2] the
    array [stds] is one entry shorter than the number of positions the
    loop visits, so the last assignment raises [IndexError] whenever the
    data has at least [size - 1] values; for shorter data [np.empty] is
    asked for a negative length and raises [ValueError]. *)
Theorem std_window_even_size (y : list Z) (h : nat) :
  std_window y (Z.of_nat (2 * h + 2))
  = if (2 * h + 1 <=? length y)%nat then Raise IndexError
    else Raise ValueError.
Proof.
  unfold std_window, std_window_stds.
  replace ((Z.of_nat (2 * h + 2) - 1) / 2)%Z with (Z.of_nat h)
    by (apply Z.div_unique with (r := 1%Z); lia).
  destruct (2 * h + 1 <=? length y)%nat eqn:Hfit.
  - apply Nat.leb_le in Hfit.
    set (n := (length y - (2 * h + 1))%nat).
    unfold np_empty.
    replace (Z.of_nat (length y) - Z.of_nat (2 * h + 2) + 1)%Z
      with (Z.of_nat n) by lia.
    replace (Z.of_nat n <? 0)%Z with false by (symmetry; apply Z.ltb_ge; lia).
    rewrite Nat2Z.id.
    replace (Z.of_nat (length y) - Z.of_nat h)%Z
      with (Z.of_nat h + Z.of_nat (S n))%Z by lia.
    rewrite py_range_nat, seq_S, map_app, fold_left_app.
    pose proof (std_window_loop y h n ltac:(lia) 0%nat ltac:(lia)) as Hloop.
    rewrite Nat.add_0_r, Nat.sub_0_r in Hloop. cbn [seq map app] in Hloop.
    rewrite Hloop. cbn [map fold_left]. unfold std_window_step. cbn [bind].
    replace (Z.of_nat (h + n) - Z.of_nat h)%Z with (Z.of_nat n) by lia.
    set (stds := map _ (seq 0 n)).
    assert (Hstds : length stds = n)
      by (unfold stds; rewrite length_map, length_seq; reflexivity).
    rewrite <- Hstds at 1. rewrite py_setitem_past_end. reflexivity.
  - apply Nat.leb_gt in Hfit. unfold np_empty.
    replace (Z.of_nat (length y) - Z.of_nat (2 * h + 2) + 1 <? 0)%Z with true
      by (symmetry; apply Z.ltb_lt; lia).
    rewrite std_window_step_Raise. reflexivity.
Qed.

Section FitNumfeatErrors.
Context `{Statsmodels}.

(** X15: [fit_numfeat] needs at least [size] levels with more than one
    feature.  With one count per threshold, more than one threshold and an
    odd window size, it raises [ValueError] when fewer levels are kept:
    nothing is fitted. *)
Theorem fit_numfeat_too_few_levels (numfeatures : list Z)
  (min_deltas : list float64) (h : nat) :
  length min_deltas = length numfeatures ->
  length numfeatures <> 1%nat ->
  (length (kept_levels min_deltas numfeatures) < 2 * h + 1)%nat ->
  fit_numfeat numfeatures min_deltas (Z.of_nat (2 * h + 1))
  = Raise ValueError.
Proof.
  intros Hlen Hmany Hfew. unfold fit_numfeat.
  replace (Nat.eqb (length numfeatures) 1) with false
    by (symmetry; apply Nat.eqb_neq; exact Hmany).
  unfold np_mask, more_than_one. rewrite length_map, Hlen, Nat.eqb_refl.
  cbn [bind].
  destruct (select_counts min_deltas numfeatures Hlen) as [Hnums _].
  unfold more_than_one in Hnums. rewrite Hnums.
  rewrite std_window_odd_too_large
    by (rewrite length_map; exact Hfew).
  reflexivity.
Qed.

End FitNumfeatErrors.

Lemma fit_numfeat_too_few_levels_example :
  length [Fin 1; Fin 2; Fin 3] = length [5; 3; 1]%Z /\
  length [5; 3; 1]%Z <> 1%nat /\
  (length (kept_levels [Fin 1; Fin 2; Fin 3] [5; 3; 1]%Z) < 2 * 2 + 1)%nat /\
  fit_numfeat (H := zero_regression) [5; 3; 1]%Z [Fin 1; Fin 2; Fin 3] 5
  = Raise ValueError.
Proof.
  assert (Hlen : length [Fin 1; Fin 2; Fin 3] = length [5; 3; 1]%Z)
    by reflexivity.
  assert (Hmany : length [5; 3; 1]%Z <> 1%nat) by (simpl; lia).
  assert (Hfew : (length (kept_levels [Fin 1; Fin 2; Fin 3] [5; 3; 1]%Z)
                  < 2 * 2 + 1)%nat) by (simpl; lia).
  split; [exact Hlen |]. split; [exact Hmany |]. split; [exact Hfew |].
  exact (fit_numfeat_too_few_levels (H := zero_regression) [5; 3; 1]%Z
           [Fin 1; Fin 2; Fin 3] 2 Hlen Hmany Hfew).
Defined.

(** ** The [bins] keyword of [make_hists] *)

Section MakeHistsBins.
Context `{NumpyHistogram}.

(** X17: a [bins] keyword serves one histogram only.  [make_hists] pops
    it when it builds the first histogram, so with the levels before
    [value] all below [min_number], the histogram of [value] is built with
    the given bins and every later level falls back to the default
    [int(sqrt(len(value)))]. *)
Theorem make_hists_bins_keyword_once (pre : list (list float64))
  (value : list float64) (rest : list (list float64)) (min_number : Z)
  (b : bins_arg) (kwargs : hist_kwargs) :
  Forall (fun v => (Z.of_nat (length v) < min_number)%Z) pre ->
  (min_number <= Z.of_nat (length value))%Z ->
  make_hists (pre ++ value :: rest) min_number (Some b) kwargs
  = (hb <- np_histogram value b kwargs ;;
     hs <- make_hists rest min_number None kwargs ;;
     Ok (repeat empty_hist (length pre)
         ++ (bin_centres (snd hb), fst hb) :: hs)).
Proof.
  intros Hpre Hvalue. unfold make_hists.
  induction Hpre as [| v pre Hv Hpre IH].
  - cbn [app make_hists_loop length repeat].
    replace (Z.of_nat (length value) <? min_number)%Z with false
      by (symmetry; apply Z.ltb_ge; exact Hvalue).
    reflexivity.
  - cbn [app make_hists_loop length repeat].
    replace (Z.of_nat (length v) <? min_number)%Z with true
      by (symmetry; apply Z.ltb_lt; exact Hv).
    rewrite IH.
    destruct (np_histogram value b kwargs) as [hb | e]; [| reflexivity].
    cbn [bind].
    destruct (make_hists_loop rest min_number None kwargs) as [hs | e];
      reflexivity.
Qed.

End MakeHistsBins.

Lemma make_hists_bins_keyword_once_example :
  Forall (fun v : list float64 => (Z.of_nat (length v) < 1)%Z) [[]] /\
  (1 <= Z.of_nat (length [Fin 1]))%Z /\
  make_hists (H := zero_histogram) ([[]] ++ [Fin 1] :: [[Fin 2]]) 1
    (Some (BinCount 3)) tt
  = Ok [empty_hist;
        (bin_centres (map of_nat (seq 0 4)), repeat 0%Z 3);
        (bin_centres (map of_nat (seq 0 2)), repeat 0%Z 1)].
Proof.
  assert (Hpre : Forall (fun v : list float64 => (Z.of_nat (length v) < 1)%Z)
                   [[]])
    by (constructor; [simpl; lia | constructor]).
  assert (Hvalue : (1 <= Z.of_nat (length [Fin 1]))%Z) by (simpl; lia).
  split; [exact Hpre |]. split; [exact Hvalue |].
  exact (make_hists_bins_keyword_once (H := zero_histogram) [[]] [Fin 1]
           [[Fin 2]] 1 (BinCount 3) tt Hpre Hvalue).
Defined.

(** ** The grids of [pspec] *)












Lemma py_range_split (h n : nat) :
  (h <= n)%nat ->
  py_range (- Z.of_nat h) (Z.of_nat n - Z.of_nat h)
  = py_range (- Z.of_nat h) 0 ++ py_range 0 (Z.of_nat n - Z.of_nat h).
Proof.
  intros Hh. unfold py_range.
  replace (Z.to_nat (Z.of_nat n - Z.of_nat h - - Z.of_nat h)) with (h + (n - h))%nat
    by lia.
  replace (Z.to_nat (0 - - Z.of_nat h)) with h by lia.
  replace (Z.to_nat (Z.of_nat n - Z.of_nat h - 0)) with (n - h)%nat by lia.
  rewrite seq_app, map_app. f_equal.
  assert (Hgen : forall m s,
            map (fun k => (- Z.of_nat h + Z.of_nat k)%Z) (seq (h + s) m)
            = map (fun k => (0 + Z.of_nat k)%Z) (seq s m)).
  { induction m as [| m IHm]; intros s; [reflexivity |].
    cbn [seq map]. f_equal; [lia |].
    replace (S (h + s)) with (h + S s)%nat by lia. apply IHm. }
  replace (0 + h)%nat with (h + 0)%nat by lia. apply Hgen.
Qed.

Lemma freq_axis_radial (n : nat) :
  (1 <= n)%nat ->
  freq_axis n = Ok (map (fun k => IZR k * (1 / INR n)) (radial_axis n)).
Proof.
  intros Hn. unfold freq_axis, fftfreq, radial_axis.
  replace (Nat.eqb n 0) with false by (symmetry; apply Nat.eqb_neq; lia).
  cbn [bind]. f_equal.
  pose proof (Nat.div_mod_eq n 2) as Hdiv.
  pose proof (Nat.mod_upper_bound n 2 ltac:(lia)) as Hmod.
  assert (Hhalf : (n / 2 <= n)%nat) by lia.
  rewrite (py_range_split (n / 2) n Hhalf), roll_map. f_equal.
  replace ((Z.of_nat n - 1) / 2 + 1)%Z with (Z.of_nat n - Z.of_nat (n / 2))%Z.
  2:{ assert (Hq : ((Z.of_nat n - 1) / 2
                    = Z.of_nat n - Z.of_nat (n / 2) - 1)%Z).
      { symmetry.
        apply Z.div_unique with (r := (1 - Z.of_nat (n mod 2))%Z); lia. }
      lia. }
  set (A := py_range 0 (Z.of_nat n - Z.of_nat (n / 2))).
  set (B := py_range (- Z.of_nat (n / 2)) 0).
  assert (HA : length A = (n - n / 2)%nat)
    by (unfold A, py_range; rewrite length_map, length_seq; lia).
  assert (HB : length B = (n / 2)%nat)
    by (unfold B, py_range; rewrite length_map, length_seq; lia).
  unfold roll. rewrite length_app, HA, HB.
  replace (n - n / 2 + n / 2 - n / 2)%nat with (length A) by lia.
  rewrite skipn_app, firstn_app, skipn_all, firstn_all, !Nat.sub_diag.
  simpl. rewrite app_nil_r. reflexivity.
Qed.

Lemma meshgrid_map {A B : Type} (f g : A -> B) (y x : list A) :
  meshgrid (map f y) (map g x)
  = map (fun p => (f (fst p), g (snd p))) (meshgrid y x).
Proof.
  unfold meshgrid. induction y as [| yi y IH]; [reflexivity |].
  cbn [map flat_map]. rewrite map_app, IH, !map_map. reflexivity.
Qed.

(** X19: the frequency grid is laid out as the pixel grid.  An axis of
    no pixel makes [np.fft.fftfreq] divide by zero; otherwise the shifted
    [fftfreq] of an axis of [n] pixels is the centred pixel axis of
    [make_radial_arrays] times [1 / n], so the radial frequency at a
    place is computed from the pixel offsets [(k0, k1)] of that place, as
    [sqrt((k0 (1 / n0))^2 + (k1 (1 / n1))^2)]. *)
Theorem freq_grid_is_scaled_pixel_grid (n0 n1 : nat) :
  freq_axis n0
  = (if Nat.eqb n0 0 then Raise ZeroDivisionError
     else Ok (map (fun k => IZR k * (1 / INR n0)) (radial_axis n0))) /\
  freq_dists (S n0) (S n1)
  = Ok (map (fun p => sqrt ((IZR (fst p) * (1 / INR (S n0))) ^ 2
                            + (IZR (snd p) * (1 / INR (S n1))) ^ 2))
            (meshgrid (radial_axis (S n0)) (radial_axis (S n1)))).
Proof.
  split.
  - destruct (Nat.eqb n0 0) eqn:Hn.
    + apply Nat.eqb_eq in Hn. subst n0. reflexivity.
    + apply Nat.eqb_neq in Hn. apply freq_axis_radial. lia.
  - unfold freq_dists.
    rewrite !freq_axis_radial by lia. cbn [bind]. f_equal.
    rewrite meshgrid_map, map_map. reflexivity.
Qed.

Lemma meshgrid_nil_r {A : Type} (y : list A) : meshgrid y [] = [].
Proof.
  unfold meshgrid. induction y as [| yi y IH]; [reflexivity | exact IH].
Qed.

Lemma freqs_dist_nonzero_one_pixel :
  freqs_dist_nonzero 1 1 = Raise ValueError.
Proof.
  unfold freqs_dist_nonzero, freq_dists.
  rewrite freq_axis_radial by lia. cbn [bind].
  replace (radial_axis 1) with [0%Z] by reflexivity.
  cbn [map meshgrid flat_map app fst snd filter].
  replace (sqrt ((0 * (1 / INR 1)) ^ 2 + (0 * (1 / INR 1)) ^ 2)) with 0.
  - decide_reals. reflexivity.
  - replace ((0 * (1 / INR 1)) ^ 2 + (0 * (1 / INR 1)) ^ 2) with 0
      by (simpl; field).
    symmetry. apply sqrt_0.
Qed.

Section PspecDegenerate.
Context `{Scipy}.

(** X20: shapes [pspec] cannot work with.  An array with fewer than two
    axes raises [IndexError]; an array with an empty first or second axis
    raises [ValueError] when the number of bins is left to [pspec]; and an
    array of one pixel raises [ValueError] whenever frequencies are asked
    for, whatever the other arguments: the only radial frequency is zero,
    and the least non-zero one has nothing to be taken from. *)
Theorem pspec_degenerate_shapes (values : list float64) (n : nat)
  (rest : list nat) (nbins : option Z) (return_stddev : bool) (binsize : R)
  (logspacing : bool) (max_bin min_bin : option R) (return_freqs : bool) :
  pspec {| shape := []; data := values |} nbins return_stddev binsize
    logspacing max_bin min_bin return_freqs = Raise IndexError /\
  pspec {| shape := [n]; data := values |} nbins return_stddev binsize
    logspacing max_bin min_bin return_freqs = Raise IndexError /\
  pspec {| shape := 0%nat :: n :: rest; data := values |} None return_stddev
    binsize logspacing max_bin min_bin return_freqs = Raise ValueError /\
  pspec {| shape := n :: 0%nat :: rest; data := values |} None return_stddev
    binsize logspacing max_bin min_bin return_freqs = Raise ValueError /\
  pspec {| shape := 1%nat :: 1%nat :: rest; data := values |} nbins
    return_stddev binsize logspacing max_bin min_bin true = Raise ValueError.
Proof.
  split; [reflexivity |]. split; [reflexivity |].
  split; [reflexivity |]. split.
  - unfold pspec. cbn [shape]. unfold pixel_dists.
    replace (radial_axis 0) with (@nil Z) by reflexivity.
    rewrite meshgrid_nil_r. reflexivity.
  - unfold pspec. cbn [shape]. rewrite pixel_dists_one_pixel.
    rewrite freqs_dist_nonzero_one_pixel.
    destruct (pspec_nbins [0] nbins binsize) as [k | e] eqn:Hk.
    + reflexivity.
    + cbn [bind]. f_equal. unfold pspec_nbins in Hk.
      destruct nbins as [k |]; [discriminate |].
      cbn [np_max fold_left bind] in Hk. unfold fdiv in Hk.
      destruct (Reqb binsize 0); [| discriminate].
      revert Hk. decide_reals. cbn [int_round_plus_one]. congruence.
Qed.

End PspecDegenerate.

(** ** [MVC.__init__]: the inputs *)

(** X21: what [MVC.__init__] does with its inputs.  It raises [TypeError]
    exactly when one of the three inputs is of no supported form, and then
    no array has been touched.  When it succeeds, the header is the one
    given, or else the one the centroid input carries, or else none: the
    headers of the other two inputs are never used. *)
Theorem MVC_init_inputs {T : Type} (s : store)
  (centroid moment0 linewidth : data_input T) (hdr : option T) :
  let out := MVC_init s centroid moment0 linewidth hdr in
  (fst out = Raise TypeError <->
   centroid = Unsupported \/ moment0 = Unsupported \/ linewidth = Unsupported)
  /\ (fst out = Raise TypeError -> snd out = s)
  /\ forall self, fst out = Ok self ->
       header self = match hdr with
                     | Some h => Some h
                     | None => match centroid with
                               | WithHeader _ h => Some h
                               | _ => None
                               end
                     end.
Proof.
  intros out. subst out. unfold MVC_init.
  destruct (load_inputs centroid moment0 linewidth hdr)
    as [[[[[c h] m] l] ws] | e] eqn:Hload.
  - assert (Hsupported : ~ (centroid = Unsupported \/ moment0 = Unsupported
                            \/ linewidth = Unsupported)).
    { intros [-> | [-> | ->]]; unfold load_inputs in Hload;
        destruct hdr; try destruct centroid; try destruct moment0;
        try destruct linewidth; discriminate. }
    assert (Hheader : h = match hdr with
                          | Some h => Some h
                          | None => match centroid with
                                    | WithHeader _ h => Some h
                                    | _ => None
                                    end
                          end).
    { unfold load_inputs in Hload.
      destruct hdr; destruct centroid; destruct moment0; destruct linewidth;
        try discriminate; cbn in Hload; congruence. }
    destruct (clean_nans s c) as [s1 | e1] eqn:H1.
    2:{ cbn [fst snd]. apply clean_nans_error in H1. subst e1.
        repeat split; try discriminate; tauto. }
    destruct (clean_nans s1 m) as [s2 | e2] eqn:H2.
    2:{ cbn [fst snd]. apply clean_nans_error in H2. subst e2.
        repeat split; try discriminate; tauto. }
    destruct (clean_nans s2 l) as [s3 | e3] eqn:H3.
    2:{ cbn [fst snd]. apply clean_nans_error in H3. subst e3.
        repeat split; try discriminate; tauto. }
    destruct (negb _ || negb _); cbn [fst snd].
    + repeat split; try discriminate; tauto.
    + split; [split; [discriminate | tauto] |].
      split; [discriminate |].
      intros self Hself. injection Hself as <-. exact Hheader.
  - cbn [fst snd].
    assert (He : e = TypeError /\
                 (centroid = Unsupported \/ moment0 = Unsupported
                  \/ linewidth = Unsupported)).
    { unfold load_inputs in Hload.
      destruct hdr; destruct centroid; destruct moment0; destruct linewidth;
        cbn in Hload; try discriminate; injection Hload as <-;
        (split; [reflexivity | tauto]). }
    destruct He as [-> Hbad].
    split; [split; [intros _; exact Hbad | reflexivity] |].
    split; [reflexivity | discriminate].
Qed.

(** ** [MVC.__init__] followed by [compute_pspec] *)

Lemma least_non_nan_finite (l : list float64) (v : float64) :
  Forall (fun x => isnan x = true \/ isfinite x = true) l ->
  least_non_nan l v -> isfinite v = true.
Proof.
  intros Hall (Hnan & Hin & _).
  rewrite Forall_forall in Hall. destruct (Hall v Hin) as [Hv | Hv];
    [congruence | exact Hv].
Qed.

Lemma replace_nan_finite (v : float64) (l : list float64) :
  isfinite v = true ->
  Forall (fun x => isnan x = true \/ isfinite x = true) l ->
  Forall (fun x => isfinite x = true) (replace_nan v l).
Proof.
  intros Hv Hall. unfold replace_nan. apply Forall_forall. intros a Ha.
  apply in_map_iff in Ha. destruct Ha as (b & <- & Hb).
  rewrite Forall_forall in Hall. destruct (Hall b Hb) as [Hnan | Hfin].
  - rewrite Hnan. exact Hv.
  - destruct b; try discriminate. exact Hfin.
Qed.

Lemma Exists_finite_not_nan (l : list float64) :
  Exists (fun x => isfinite x = true) l ->
  Exists (fun x => isnan x = false) l.
Proof.
  intros Hex. apply Exists_exists in Hex. destruct Hex as (a & Ha & Hfin).
  apply Exists_exists. exists a. split; [exact Ha |].
  destruct a; try discriminate. reflexivity.
Qed.

Section MVCPipeline.
Context `{NumpyFFT}.

(** X22: construction followed by [compute_pspec].  For three maps of
    one shape whose pixels are numbers or NaN, each with a pixel that is a
    number, [MVC.__init__] succeeds and [compute_pspec] then stores the
    centred spectrum [|FFT(f1 f2) - mean(f3^2 + f1^2) FFT(f2)|^2] of the
    maps with every blanked pixel set to the least value of its map. *)
Theorem MVC_spectrum_of_blanked_maps {T : Type} (s : store)
  (centroid moment0 linewidth : data_input T) (hdr : option T)
  (c m l : loc) (h : option T) (ws : list warning) :
  load_inputs centroid moment0 linewidth hdr = Ok (c, h, m, l, ws) ->
  (forall a, In a [c; m; l] ->
     Forall (fun x => isnan x = true \/ isfinite x = true) (data (s a)) /\
     Exists (fun x => isfinite x = true) (data (s a))) ->
  shape (s c) = shape (s m) -> shape (s c) = shape (s l) ->
  exists (self : MVC T) (s' : store) (vc vm vl : float64),
    MVC_init s centroid moment0 linewidth hdr = (Ok self, s') /\
    least_non_nan (data (s c)) vc /\
    least_non_nan (data (s m)) vm /\
    least_non_nan (data (s l)) vl /\
    compute_pspec self s'
    = mvc_spectrum (filled vc (s c)) (filled vm (s m)) (filled vl (s l)).
Proof.
  intros Hload Hmaps Hcm Hcl.
  assert (Hne : forall a, In a [c; m; l] -> data (s a) <> []).
  { intros a Ha E. destruct (Hmaps a Ha) as [_ Hex]. rewrite E in Hex.
    inversion Hex. }
  destruct (MVC_init_spec s centroid moment0 linewidth hdr c m l h ws Hload)
    as (s' & Hinv & Hrun); try (apply Hne; simpl; tauto).
  assert (Hclean : forall a, In a [c; m; l] ->
            exists v, least_non_nan (data (s a)) v /\ s' a = filled v (s a) /\
                      Forall (fun x => isfinite x = true) (data (s' a))).
  { intros a Ha. destruct (Hmaps a Ha) as [Hall Hex].
    assert (Hdone : In a [l; m; c]) by (simpl in *; tauto).
    destruct (proj1 (Hinv a) Hdone) as (v & Hv & Hs').
    destruct (np_nanmin_least _ (Exists_finite_not_nan _ Hex))
      as (u & Hu & Hleast).
    rewrite Hu in Hv. injection Hv as <-.
    exists u. split; [exact Hleast |]. split; [exact Hs' |].
    rewrite Hs'. cbn [filled data]. apply replace_nan_finite.
    - apply (least_non_nan_finite _ _ Hall Hleast).
    - exact Hall. }
  destruct (Hclean c ltac:(simpl; tauto)) as (vc & Hvc & Hsc & Hfc).
  destruct (Hclean m ltac:(simpl; tauto)) as (vm & Hvm & Hsm & _).
  destruct (Hclean l ltac:(simpl; tauto)) as (vl & Hvl & Hsl & Hfl).
  replace (shape_eqb (shape (s c)) (shape (s m))) with true in Hrun
    by (symmetry; apply shape_eqb_spec; exact Hcm).
  replace (shape_eqb (shape (s c)) (shape (s l))) with true in Hrun
    by (symmetry; apply shape_eqb_spec; exact Hcl).
  cbn [andb] in Hrun.
  eexists. exists s', vc, vm, vl.
  split; [exact Hrun |]. do 3 (split; [assumption |]).
  unfold compute_pspec, mvc_spectrum.
  cbn [_centroid _moment0 _linewidth].
  rewrite <- Hsc, <- Hsm, <- Hsl.
  assert (Hmean :
    np_nanmean (data (zip_arrays fadd (map_array fsquare (s' l))
                                      (map_array fsquare (s' c))))
    = np_mean (map2 fadd (map fsquare (data (s' l)))
                         (map fsquare (data (s' c))))).
  { cbn [zip_arrays map_array data]. apply np_nanmean_no_nan.
    apply squares_sum_finite; assumption. }
  rewrite Hmean, fftshift_map_array. reflexivity.
Qed.

End MVCPipeline.

Lemma MVC_spectrum_of_blanked_maps_example :
  load_inputs (BareArray 0%nat) (BareArray 1%nat) (BareArray 2%nat)
    (None : option unit)
  = Ok (0%nat, None, 1%nat, 2%nat, [NoHeaderLoaded]) /\
  (forall a, In a [0%nat; 1%nat; 2%nat] ->
     Forall (fun x => isnan x = true \/ isfinite x = true)
            (data (blanked_maps a)) /\
     Exists (fun x => isfinite x = true) (data (blanked_maps a))) /\
  shape (blanked_maps 0%nat) = shape (blanked_maps 1%nat) /\
  shape (blanked_maps 0%nat) = shape (blanked_maps 2%nat) /\
  exists (self : MVC unit) (s' : store) (vc vm vl : float64),
    MVC_init blanked_maps (BareArray 0%nat) (BareArray 1%nat)
      (BareArray 2%nat) None = (Ok self, s') /\
    least_non_nan (data (blanked_maps 0%nat)) vc /\
    least_non_nan (data (blanked_maps 1%nat)) vm /\
    least_non_nan (data (blanked_maps 2%nat)) vl /\
    compute_pspec (H := one_pixel_fft) self s'
    = mvc_spectrum (H := one_pixel_fft) (filled vc (blanked_maps 0%nat))
        (filled vm (blanked_maps 1%nat)) (filled vl (blanked_maps 2%nat)).
Proof.
  assert (Hload : load_inputs (BareArray 0%nat) (BareArray 1%nat)
                    (BareArray 2%nat) (None : option unit)
                  = Ok (0%nat, None, 1%nat, 2%nat, [NoHeaderLoaded]))
    by reflexivity.
  assert (Hmaps : forall a, In a [0%nat; 1%nat; 2%nat] ->
            Forall (fun x => isnan x = true \/ isfinite x = true)
                   (data (blanked_maps a)) /\
            Exists (fun x => isfinite x = true) (data (blanked_maps a))).
  { intros a _. split.
    - constructor; [left; reflexivity |].
      constructor; [right; reflexivity | constructor].
    - apply Exists_cons_tl, Exists_cons_hd. reflexivity. }
  assert (Hcm : shape (blanked_maps 0%nat) = shape (blanked_maps 1%nat))
    by reflexivity.
  assert (Hcl : shape (blanked_maps 0%nat) = shape (blanked_maps 2%nat))
    by reflexivity.
  split; [exact Hload |]. split; [exact Hmaps |].
  split; [exact Hcm |]. split; [exact Hcl |].
  exact (MVC_spectrum_of_blanked_maps (H := one_pixel_fft) blanked_maps
           (BareArray 0%nat) (BareArray 1%nat) (BareArray 2%nat) None
           0%nat 1%nat 2%nat None [NoHeaderLoaded] Hload Hmaps Hcm Hcl).
Defined.

(** ** The bin numbers of [histogram_stat] *)

Lemma floor_sqrt_half (k : Z) :
  (0 <= k)%Z -> Int_part (sqrt (IZR k / 2)) = Z.sqrt (k / 2).
Proof.
  intros Hk. symmetry. apply Int_part_spec.
  pose proof (Z.sqrt_spec (k / 2) ltac:(apply Z.div_pos; lia)) as [Hlo Hhi].
  pose proof (Z.sqrt_nonneg (k / 2)) as Hs.
  set (sq := Z.sqrt (k / 2)) in *.
  pose proof (Z.div_mod k 2 ltac:(lia)) as Hdiv.
  pose proof (Z.mod_pos_bound k 2 ltac:(lia)) as Hmod.
  assert (Hlow : (2 * (sq * sq) <= k)%Z) by lia.
  assert (Hhigh : (k < 2 * ((sq + 1) * (sq + 1)))%Z) by lia.
  apply IZR_le in Hlow. apply IZR_lt in Hhigh.
  rewrite mult_IZR in Hlow, Hhigh. rewrite !mult_IZR in Hlow.
  rewrite !mult_IZR, !plus_IZR in Hhigh.
  assert (Hsq : 0 <= IZR sq) by (apply IZR_le; exact Hs).
  split.
  - assert (Hlt : sqrt (IZR k / 2) < IZR sq + 1).
    { rewrite <- (sqrt_square (IZR sq + 1)) by lra.
      apply sqrt_lt_1_alt. split; [| lra].
      apply Rmult_le_pos; [| lra]. apply IZR_le. exact Hk. }
    lra.
  - rewrite <- (sqrt_square (IZR sq)) at 1 by exact Hsq.
    apply sqrt_le_1_alt. lra.
Qed.

(** X25: with [nbins="best"] the number of bins of a level is the integer
    square root of the mean of the two feature counts, the mean rounded
    down first: [floor(sqrt((n1 + n2) / 2.)) = isqrt((n1 + n2) // 2)]; one
    number is computed for each level below the cutoff that both data sets
    have. *)
Theorem best_nbins_integer_sqrt (numfeatures1 numfeatures2 : list Z)
  (cutoff : nat) :
  Forall (fun n => (0 <= n)%Z) numfeatures1 ->
  Forall (fun n => (0 <= n)%Z) numfeatures2 ->
  best_nbins numfeatures1 numfeatures2 cutoff
  = map2 (fun n1 n2 => Z.sqrt ((n1 + n2) / 2))
         (firstn cutoff numfeatures1) (firstn cutoff numfeatures2) /\
  length (best_nbins numfeatures1 numfeatures2 cutoff)
  = Nat.min cutoff (Nat.min (length numfeatures1) (length numfeatures2)).
Proof.
  intros H1 H2. unfold best_nbins. split.
  - revert numfeatures2 H2 cutoff.
    induction H1 as [| n1 l1 Hn1 Hl1 IH]; intros l2 H2 cutoff.
    + destruct cutoff; reflexivity.
    + destruct cutoff as [| cutoff]; [reflexivity |].
      destruct H2 as [| n2 l2 Hn2 Hl2]; [reflexivity |].
      cbn [firstn map2]. rewrite floor_sqrt_half by lia.
      f_equal. apply IH. exact Hl2.
  - rewrite map2_length, !length_firstn. lia.
Qed.

Lemma best_nbins_integer_sqrt_example :
  Forall (fun n => (0 <= n)%Z) [7; 120]%Z /\
  Forall (fun n => (0 <= n)%Z) [10; 81]%Z /\
  best_nbins [7; 120]%Z [10; 81]%Z 2
  = map2 (fun n1 n2 => Z.sqrt ((n1 + n2) / 2)) (firstn 2 [7; 120]%Z)
         (firstn 2 [10; 81]%Z).
Proof.
  assert (H1 : Forall (fun n => (0 <= n)%Z) [7; 120]%Z)
    by (repeat constructor; lia).
  assert (H2 : Forall (fun n => (0 <= n)%Z) [10; 81]%Z)
    by (repeat constructor; lia).
  split; [exact H1 |]. split; [exact H2 |].
  exact (proj1 (best_nbins_integer_sqrt [7; 120]%Z [10; 81]%Z 2 H1 H2)).
Defined.
